(** * cw-ndfd-xml: DWML parsing and forecast assembly

    A shallow embedding of [cw_ndfd_xml/dwml.py], [cw_ndfd_xml/forecast.py]
    and [cw_ndfd_xml/utils.py], and the properties of the parser, the
    aggregation primitive, the assembly of the forecast and the hourly
    post-processing pass.

    Python dictionaries keyed by strings are finite maps ([gmap]); the two
    dictionaries whose iteration order decides something (the frequency table
    of [_most_frequent], the per-date index of [_aggregate]) are association
    lists in insertion order.  A Python exception is an explicit error
    result.  Python floats are binary64 numbers ([PrimFloat.float]); what the
    interpreter does to convert between text, [int] and [float] is a
    parameter of the development ([PyEnv]). *)

From Stdlib Require Import ZArith String Ascii List Lia.
From Stdlib Require Import Floats.PrimFloat Floats.SpecFloat Floats.FloatOps.
From stdpp Require Import base option list gmap strings sorting.

#[local] Set Warnings "-register-all,-inexact-float".

Local Open Scope string_scope.
Local Open Scope Z_scope.

(** ** Python values, exceptions, and the interpreter's conversions *)

Module Py.

(** The exceptions that the modelled code can raise. *)
Inductive pyerr :=
  | StopIteration | KeyError | IndexError | AttributeError
  | TypeError | ValueError | OverflowError | ZeroDivisionError
  | UnboundLocalError.

Inductive result (A : Type) :=
  | Ok (a : A)
  | Raise (e : pyerr).
Arguments Ok {A} a.
Arguments Raise {A} e.

#[export] Instance result_ret : MRet result := fun A a => Ok a.
#[export] Instance result_bind : MBind result := fun A B f m =>
  match m with Ok a => f a | Raise e => Raise e end.
#[export] Instance result_fmap : FMap result := fun A B f m =>
  match m with Ok a => Ok (f a) | Raise e => Raise e end.

Definition of_option {A} (e : pyerr) (o : option A) : result A :=
  match o with Some a => Ok a | None => Raise e end.

Definition is_ok {A} (r : result A) : bool :=
  match r with Ok _ => true | Raise _ => false end.

(** The values that flow through the forecast dictionaries: [None], [str],
    [int] and [float]. *)
Inductive pyval :=
  | VNone
  | VStr (s : string)
  | VInt (z : Z)
  | VFloat (f : float).

(** Raw text of an XML element: [None] or a [str]. *)
Definition of_text (t : option string) : pyval :=
  match t with Some s => VStr s | None => VNone end.

(** Truth value of an object ([if v:] / [not v]). *)
Definition truthy (v : pyval) : bool :=
  match v with
  | VNone => false
  | VStr s => negb (String.eqb s "")
  | VInt z => negb (z =? 0)
  | VFloat f => negb (PrimFloat.eqb f 0%float)
  end.

(** [v != 0]. *)
Definition ne_zero (v : pyval) : bool :=
  match v with
  | VNone => true
  | VStr _ => true
  | VInt z => negb (z =? 0)
  | VFloat f => negb (PrimFloat.eqb f 0%float)
  end.

(** A [datetime.datetime]; [utcoffset] is the offset of its [tzinfo] in
    minutes, when it is aware. *)
Record datetime := mkDatetime {
  year : nat; month : nat; day : nat;
  hour : nat; minute : nat; second : nat; microsecond : nat;
  utcoffset : option Z
}.

(** What the interpreter and [dateutil] provide: the conversions between
    text, [int] and [float], the quotient of two [int]s, [round] with a
    number of digits (non-negative, where the code calls it), and ISO-8601
    parsing of a [str]. *)
Class PyEnv := {
  isoparse : string → result datetime;
  float_of_str : string → result float;
  float_of_int : Z → result float;
  int_of_float : float → result Z;
  int_of_str : string → result Z;
  int_truediv : Z → Z → result float;
  round_float : float → Z → float
}.

Section Conversions.
Context `{PyEnv}.

(** [float(v)] *)
Definition py_float (v : pyval) : result float :=
  match v with
  | VNone => Raise TypeError
  | VStr s => float_of_str s
  | VInt z => float_of_int z
  | VFloat f => Ok f
  end.

(** [int(v)] *)
Definition py_int (v : pyval) : result Z :=
  match v with
  | VNone => Raise TypeError
  | VStr s => int_of_str s
  | VInt z => Ok z
  | VFloat f => int_of_float f
  end.

(** [round(z, n)] on an [int]: to a multiple of [10 ** -n], ties to
    even. *)
Definition round_int (z n : Z) : Z :=
  if 0 <=? n then z
  else
    let p := 10 ^ (- n) in
    let q := z / p in
    let r := z mod p in
    if 2 * r <? p then q * p
    else if p <? 2 * r then (q + 1) * p
    else if Z.even q then q * p else (q + 1) * p.

(** [round(v, n)] *)
Definition py_round (v : pyval) (n : Z) : result pyval :=
  match v with
  | VFloat f => Ok (VFloat (round_float f n))
  | VInt z => Ok (VInt (round_int z n))
  | _ => Raise TypeError
  end.

(** [a + b] on numbers, as [sum] uses it on its accumulator. *)
Definition py_add (a b : pyval) : result pyval :=
  match a, b with
  | VInt x, VInt y => Ok (VInt (x + y))
  | VInt x, VFloat g => f ← float_of_int x; Ok (VFloat (f + g))
  | VFloat f, VInt y => g ← float_of_int y; Ok (VFloat (f + g))
  | VFloat f, VFloat g => Ok (VFloat (f + g))
  | _, _ => Raise TypeError
  end.

(** [sum(values)]: the accumulator starts at the [int] 0. *)
Fixpoint py_sum_from (acc : pyval) (values : list pyval) : result pyval :=
  match values with
  | [] => Ok acc
  | v :: vs => acc' ← py_add acc v; py_sum_from acc' vs
  end.
Definition py_sum (values : list pyval) : result pyval :=
  py_sum_from (VInt 0) values.

(** [a / b] on numbers. *)
Definition py_truediv (a b : pyval) : result pyval :=
  match a, b with
  | VInt x, VInt y => VFloat <$> int_truediv x y
  | VInt x, VFloat g =>
      if PrimFloat.eqb g 0 then Raise ZeroDivisionError
      else f ← float_of_int x; Ok (VFloat (f / g))
  | VFloat f, VInt y =>
      if y =? 0 then Raise ZeroDivisionError
      else g ← float_of_int y; Ok (VFloat (f / g))
  | VFloat f, VFloat g =>
      if PrimFloat.eqb g 0 then Raise ZeroDivisionError
      else Ok (VFloat (f / g))
  | _, _ => Raise TypeError
  end.
End Conversions.

(** Exact comparison of an [int] with a [float]; [None] for a NaN. *)
Definition Z_float_compare (z : Z) (f : float) : option comparison :=
  match Prim2SF f with
  | S754_nan => None
  | S754_zero _ => Some (z ?= 0)
  | S754_infinity s => Some (if s then Gt else Lt)
  | S754_finite s m e =>
      let v := if s then Zneg m else Zpos m in
      Some (if 0 <=? e then z ?= v * 2 ^ e else z * 2 ^ (- e) ?= v)
  end.

(** [a < b] *)
Definition py_lt (a b : pyval) : result bool :=
  match a, b with
  | VInt x, VInt y => Ok (x <? y)
  | VFloat f, VFloat g => Ok (PrimFloat.ltb f g)
  | VInt x, VFloat g =>
      Ok (match Z_float_compare x g with Some Lt => true | _ => false end)
  | VFloat f, VInt y =>
      Ok (match Z_float_compare y f with Some Gt => true | _ => false end)
  | VStr s, VStr t => Ok (String.ltb s t)
  | _, _ => Raise TypeError
  end.

(** [a == b], as a dictionary compares keys created by separate
    conversions. *)
Definition py_eqb (a b : pyval) : bool :=
  match a, b with
  | VNone, VNone => true
  | VStr s, VStr t => String.eqb s t
  | VInt x, VInt y => x =? y
  | VFloat f, VFloat g => PrimFloat.eqb f g
  | VInt x, VFloat g =>
      match Z_float_compare x g with Some Eq => true | _ => false end
  | VFloat f, VInt y =>
      match Z_float_compare y f with Some Eq => true | _ => false end
  | _, _ => false
  end.

(** [max(values)] keeps an item that is greater than the current maximum;
    [min(values)] one that is less than the current minimum. *)
Fixpoint py_max_from (m : pyval) (values : list pyval) : result pyval :=
  match values with
  | [] => Ok m
  | v :: vs => py_lt m v ≫= λ b : bool, py_max_from (if b then v else m) vs
  end.
Definition py_max (values : list pyval) : result pyval :=
  match values with
  | [] => Raise ValueError
  | v :: vs => py_max_from v vs
  end.

Fixpoint py_min_from (m : pyval) (values : list pyval) : result pyval :=
  match values with
  | [] => Ok m
  | v :: vs => py_lt v m ≫= λ b : bool, py_min_from (if b then v else m) vs
  end.
Definition py_min (values : list pyval) : result pyval :=
  match values with
  | [] => Raise ValueError
  | v :: vs => py_min_from v vs
  end.

(** [len(str(v)) > 0] *)
Definition str_nonempty (v : pyval) : bool :=
  match v with
  | VStr s => negb (String.eqb s "")
  | _ => true
  end.

(** [s.split(sep)] for a one-character separator. *)
Fixpoint split (sep : ascii) (s : string) : list string :=
  match s with
  | EmptyString => [EmptyString]
  | String c r =>
      if Ascii.eqb c sep then EmptyString :: split sep r
      else match split sep r with
           | h :: t => String c h :: t
           | [] => [String c EmptyString]
           end
  end.

(** [sep in s] *)
Fixpoint contains (sep : ascii) (s : string) : bool :=
  match s with
  | EmptyString => false
  | String c r => Ascii.eqb c sep || contains sep r
  end.

(** Decimal digits of a field, zero-padded: [%m], [%d], [%H], [%M], [%S]
    and [%Y]. *)
Definition digit_char (n : nat) : ascii := ascii_of_nat (48 + n mod 10).
Definition pad2 (n : nat) : string :=
  String (digit_char (n / 10)) (String (digit_char n) EmptyString).
Definition pad4 (n : nat) : string :=
  String (digit_char (n / 1000)) (String (digit_char (n / 100)) (pad2 n)).

(** [dt.strftime('%Y-%m-%d')] and [dt.strftime('%H:%M:%S')] *)
Definition strftime_date (dt : datetime) : string :=
  pad4 (year dt) ++ "-" ++ pad2 (month dt) ++ "-" ++ pad2 (day dt).
Definition strftime_time (dt : datetime) : string :=
  pad2 (hour dt) ++ ":" ++ pad2 (minute dt) ++ ":" ++ pad2 (second dt).

(** [dt.date()] and [dt.time()], compared field by field. *)
Definition date_of (dt : datetime) : nat * nat * nat :=
  (year dt, month dt, day dt).
Definition time_of (dt : datetime) : nat * nat * nat * nat :=
  (hour dt, minute dt, second dt, microsecond dt).

Definition time_lt (a b : nat * nat * nat * nat) : bool :=
  let '(h1, m1, s1, u1) := a in
  let '(h2, m2, s2, u2) := b in
  match Nat.compare h1 h2, Nat.compare m1 m2, Nat.compare s1 s2 with
  | Lt, _, _ => true
  | Eq, Lt, _ => true
  | Eq, Eq, Lt => true
  | Eq, Eq, Eq => (u1 <? u2)%nat
  | _, _, _ => false
  end.

(** [list.sort()] on strings. *)
Definition str_le (a b : string) : Prop := String.leb a b.
Definition sort_strings : list string → list string := merge_sort str_le.

(** Six digits, zero-padded: the microseconds of [isoformat]. *)
Definition pad6 (n : nat) : string := pad2 (n / 100 / 100) ++ pad4 n.

(** [dt.isoformat()] *)
Definition isoformat (dt : datetime) : string :=
  strftime_date dt ++ "T" ++ strftime_time dt
  ++ (if (microsecond dt =? 0)%nat then "" else "." ++ pad6 (microsecond dt))
  ++ match utcoffset dt with
     | None => ""
     | Some off =>
         (if off <? 0 then "-" else "+")
         ++ pad2 (Z.to_nat (Z.abs off / 60)) ++ ":"
         ++ pad2 (Z.to_nat (Z.abs off mod 60))
     end.

End Py.
Import Py.

(** ** dwml.py: the document model and its parser *)

Module Dwml.

(** An [xml.etree.ElementTree.Element]: tag, attributes, text, children.
    [ElementTree.fromstring] turns a well-formed document into its root
    element; the parser below starts from that tree. *)
Inductive Element :=
  | mkElement (tag : string) (attrib : list (string * string))
              (text : option string) (children : list Element).

Definition tag (e : Element) : string :=
  match e with mkElement t _ _ _ => t end.
Definition attrib (e : Element) : list (string * string) :=
  match e with mkElement _ a _ _ => a end.
Definition text (e : Element) : option string :=
  match e with mkElement _ _ t _ => t end.
Definition getchildren (e : Element) : list Element :=
  match e with mkElement _ _ _ c => c end.

(** [e.attrib.get(k)] *)
Fixpoint attrib_get (a : list (string * string)) (k : string) : option string :=
  match a with
  | [] => None
  | (k', v) :: a' => if String.eqb k' k then Some v else attrib_get a' k
  end.

(** All elements of the tree in document order, the root first. *)
Fixpoint iter (e : Element) : list Element :=
  match e with
  | mkElement _ _ _ cs => e :: flat_map iter cs
  end.

(** [tree.getiterator(t)] *)
Definition getiterator (e : Element) (t : string) : list Element :=
  List.filter (fun x => String.eqb (tag x) t) (iter e).

Definition children_tagged (t : string) (e : Element) : list Element :=
  List.filter (fun x => String.eqb (tag x) t) (getchildren e).

(** [tree.find('data/parameters')] *)
Definition find_data_parameters (tree : Element) : option Element :=
  head (flat_map (children_tagged "parameters") (children_tagged "data" tree)).

Record DwmlLocation := mkLocation {
  loc_name : option string;
  latitude : option string;
  longitude : option string
}.

Record DwmlTimeLayout := mkTimeLayout {
  key : option string;
  coordinate : option string;
  summarization : option string;
  periods : list (option string * option string)
}.

Record DwmlParameterValue := mkParameterValue {
  value : pyval;
  start : datetime;
  end_ : option datetime
}.

Record DwmlParameter := mkParameter {
  ptag : string;
  name : option string;
  time_layout_key : option string;
  values : list DwmlParameterValue;
  typ : option string;
  units : option string
}.

Record DwmlDoc := mkDoc {
  locations : list DwmlLocation;
  time_layouts : gmap (option string) DwmlTimeLayout;
  parameters : list DwmlParameter
}.

(** [DwmlDoc.parameter]: [next(p for p in self.parameters if p.name == name)] *)
Fixpoint parameter_in (ps : list DwmlParameter) (n : string) : result DwmlParameter :=
  match ps with
  | [] => Raise StopIteration
  | p :: ps' =>
      if decide (name p = Some n) then Ok p else parameter_in ps' n
  end.

Definition parameter (doc : DwmlDoc) (n : string) : result DwmlParameter :=
  parameter_in (parameters doc) n.

(** [DwmlParser.parse_locations] *)
Definition location_child (st : option string * option string * option string)
    (child : Element) : option string * option string * option string :=
  let '(nm, lat, lon) := st in
  let nm := if String.eqb (tag child) "location-key" then text child else nm in
  if String.eqb (tag child) "point" then
    let lat := match attrib_get (attrib child) "latitude" with
               | Some v => Some v | None => lat end in
    let lon := match attrib_get (attrib child) "longitude" with
               | Some v => Some v | None => lon end in
    (nm, lat, lon)
  else (nm, lat, lon).

Definition parse_locations (tree : Element) : list DwmlLocation :=
  List.map (fun location =>
         let '(nm, lat, lon) :=
           foldl location_child (None, None, None) (getchildren location) in
         mkLocation nm lat lon)
      (getiterator tree "location").

(** [periods[len(periods)-1][1] = t] *)
Fixpoint set_last_end (ps : list (option string * option string))
    (t : option string) : result (list (option string * option string)) :=
  match ps with
  | [] => Raise IndexError
  | [p] => Ok [(p.1, t)]
  | p :: ps' => ps'' ← set_last_end ps' t; Ok (p :: ps'')
  end.

(** One child of a [time-layout] element. *)
Definition layout_child
    (st : option string * list (option string * option string))
    (child : Element)
    : result (option string * list (option string * option string)) :=
  let '(k, ps) := st in
  let k := if String.eqb (tag child) "layout-key" then text child else k in
  let ps := if String.eqb (tag child) "start-valid-time"
            then (ps ++ [(text child, None)])%list else ps in
  if String.eqb (tag child) "end-valid-time"
  then ps' ← set_last_end ps (text child); Ok (k, ps')
  else Ok (k, ps).

Fixpoint layout_children
    (st : option string * list (option string * option string))
    (cs : list Element)
    : result (option string * list (option string * option string)) :=
  match cs with
  | [] => Ok st
  | c :: cs' => st' ← layout_child st c; layout_children st' cs'
  end.

(** [DwmlParser.parse_time_layouts] *)
Fixpoint time_layouts_of (acc : gmap (option string) DwmlTimeLayout)
    (ls : list Element) : result (gmap (option string) DwmlTimeLayout) :=
  match ls with
  | [] => Ok acc
  | time_layout :: ls' =>
      let coordinate := attrib_get (attrib time_layout) "time-coordinate" in
      let summarization := attrib_get (attrib time_layout) "summarization" in
      '(k, ps) ← layout_children (None, []) (getchildren time_layout);
      time_layouts_of (<[k := mkTimeLayout k coordinate summarization ps]> acc) ls'
  end.

Definition parse_time_layouts (tree : Element)
    : result (gmap (option string) DwmlTimeLayout) :=
  time_layouts_of ∅ (getiterator tree "time-layout").

(** ["{}".format(x)] of an attribute that may be missing. *)
Definition fmt (o : option string) : string :=
  match o with Some s => s | None => "None" end.

(** [DwmlParser.format_weather] *)
Definition format_weather (coverage intensity weather_type qualifier : option string)
    : string :=
  "|coverage:" ++ fmt coverage ++ "|intensity:" ++ fmt intensity
  ++ "|weather-type:" ++ fmt weather_type ++ "|qualifier:" ++ fmt qualifier.

(** The raw values of one parameter element, and its [name]. *)
Definition weather_conditions_value (child : Element) : string :=
  foldl (fun v grand =>
           if String.eqb (tag grand) "value"
           then v ++ format_weather (attrib_get (attrib grand) "coverage")
                                    (attrib_get (attrib grand) "intensity")
                                    (attrib_get (attrib grand) "weather-type")
                                    (attrib_get (attrib grand) "qualifier")
           else v)
        "" (getchildren child).

Definition parameter_child (st : option string * list pyval) (child : Element)
    : option string * list pyval :=
  let '(nm, vs) := st in
  let nm := if String.eqb (tag child) "name" then text child else nm in
  if String.eqb (tag child) "value" || String.eqb (tag child) "icon-link"
  then (nm, (vs ++ [of_text (text child)])%list)
  else if String.eqb (tag child) "weather-conditions"
  then (nm, (vs ++ [VStr (weather_conditions_value child)])%list)
  else (nm, vs).

Definition raw_values (parameter : Element) : list pyval :=
  (foldl parameter_child (None, []) (getchildren parameter)).2.

Section Parser.
Context `{PyEnv}.

(** [DwmlParameterValue(v, isoparse(p[0]), isoparse(p[1]) if p[1] else None)] *)
Definition parameter_value (v : pyval) (p : option string * option string)
    : result DwmlParameterValue :=
  s ← match p.1 with Some t => isoparse t | None => Raise TypeError end;
  e ← match p.2 with
      | Some t => if String.eqb t "" then Ok None else Some <$> isoparse t
      | None => Ok None
      end;
  Ok (mkParameterValue v s e).

(** The loop over [zip(values, periods)]. *)
Fixpoint zip_values (vs : list pyval) (ps : list (option string * option string))
    : result (list DwmlParameterValue) :=
  match vs, ps with
  | v :: vs', p :: ps' =>
      pv ← parameter_value v p;
      pvs ← zip_values vs' ps';
      Ok (pv :: pvs)
  | _, _ => Ok []
  end.

Definition parse_parameter (time_layouts : gmap (option string) DwmlTimeLayout)
    (parameter : Element) : result DwmlParameter :=
  let time_layout_key := attrib_get (attrib parameter) "time-layout" in
  let typ := attrib_get (attrib parameter) "type" in
  let units := attrib_get (attrib parameter) "units" in
  let '(nm, vs) := foldl parameter_child (None, []) (getchildren parameter) in
  layout ← of_option KeyError (time_layouts !! time_layout_key);
  pvalues ← zip_values vs (periods layout);
  Ok (mkParameter (tag parameter) nm time_layout_key pvalues typ units).

Fixpoint parse_parameter_list (time_layouts : gmap (option string) DwmlTimeLayout)
    (ps : list Element) : result (list DwmlParameter) :=
  match ps with
  | [] => Ok []
  | p :: ps' =>
      q ← parse_parameter time_layouts p;
      qs ← parse_parameter_list time_layouts ps';
      Ok (q :: qs)
  end.

(** [DwmlParser.parse_parameters] *)
Definition parse_parameters (tree : Element)
    (time_layouts : gmap (option string) DwmlTimeLayout)
    : result (list DwmlParameter) :=
  match find_data_parameters tree with
  | None => Raise AttributeError
  | Some ps => parse_parameter_list time_layouts (getchildren ps)
  end.

(** [DwmlParser.parse], from the root element of the document. *)
Definition parse (tree : Element) : result DwmlDoc :=
  let locations := parse_locations tree in
  time_layouts ← parse_time_layouts tree;
  parameters ← parse_parameters tree time_layouts;
  Ok (mkDoc locations time_layouts parameters).
End Parser.

(** [DwmlParameterValue.as_legacy_data]: the dictionary with the keys
    ['value'], ['start'] and ['end']. *)
Record LegacyValue := mkLegacyValue {
  legacy_value : pyval;
  legacy_start : string;
  legacy_end : option string
}.

Definition format_legacy_datetime (dt : datetime) : string := isoformat dt.

Definition value_as_legacy_data (v : DwmlParameterValue) : LegacyValue :=
  mkLegacyValue (value v) (format_legacy_datetime (start v))
                (format_legacy_datetime <$> end_ v).

(** [DwmlDoc.as_legacy_data]: the entry of a name is the dictionary with
    the keys ['name'] and ['values']. *)
Definition legacy_entry (p : DwmlParameter) : option string * list LegacyValue :=
  (name p, List.map value_as_legacy_data (values p)).

Definition as_legacy_data (doc : DwmlDoc)
    : gmap (option string) (option string * list LegacyValue) :=
  foldl (λ data p, <[name p := legacy_entry p]> data) ∅ (parameters doc).

End Dwml.

(** ** utils.py *)

Module Utils.

(** [convert_xml_datetime_sql]; whatever the body raises is caught and
    turned into the empty string. *)
Definition convert_xml_datetime_sql `{PyEnv} (xml_date : pyval) : string :=
  match xml_date with
  | VStr s =>
      match isoparse s with
      | Ok dt => strftime_date dt ++ " " ++ strftime_time dt
      | Raise _ => ""
      end
  | _ => ""
  end.

End Utils.

(** ** A reference interpreter

    An instance of [PyEnv] for the notations the NDFD feed uses: plain
    decimal numerals ([-12], [0.40]) and [YYYY-MM-DDTHH:MM:SS] timestamps
    with an optional [Z] or [+HH:MM] offset.  Conversions to [float] round
    to the nearest binary64 number, ties to even; [round] rounds the exact
    value of its argument to the given number of decimals, ties to even, and
    converts the result back.  Other notations raise.  The properties proved
    below hold for every instance; this one evaluates the worked examples. *)

Module RefEnv.

Definition digit_of (c : ascii) : option Z :=
  let n := Z.of_N (N_of_ascii c) in
  if (48 <=? n) && (n <=? 57) then Some (n - 48) else None.

Fixpoint digits_acc (s : string) (acc : Z) : option Z :=
  match s with
  | EmptyString => Some acc
  | String c s' => d ← digit_of c; digits_acc s' (10 * acc + d)
  end.

(** A non-empty run of decimal digits. *)
Definition digits (s : string) : option Z :=
  match s with
  | EmptyString => None
  | _ => digits_acc s 0
  end.

Definition strip_sign (s : string) : bool * string :=
  match s with
  | String "-" r => (true, r)
  | String "+" r => (false, r)
  | _ => (false, s)
  end.

Definition ref_int_of_str (s : string) : result Z :=
  let '(neg, r) := strip_sign s in
  match digits r with
  | Some n => Ok (if neg then - n else n)
  | None => Raise ValueError
  end.

(** The part before the first ["."], and the part after it if there is one. *)
Fixpoint split_dot (s : string) : string * option string :=
  match s with
  | EmptyString => (EmptyString, None)
  | String "." r => (EmptyString, Some r)
  | String c r => let '(a, b) := split_dot r in (String c a, b)
  end.

(** The binary64 number nearest to [n / d], for [0 <= n] and [0 < d]. *)
Definition float_of_ratio (neg : bool) (n d : Z) : float :=
  match n with
  | Zpos p =>
      SF2Prim (SFdiv prec emax (S754_finite neg p 0)
                                (S754_finite false (Z.to_pos d) 0))
  | _ => if neg then neg_zero else zero
  end.

Definition ref_float_of_str (s : string) : result float :=
  let '(neg, r) := strip_sign s in
  let '(ip, fp) := split_dot r in
  let fp := default EmptyString fp in
  match digits (ip ++ fp) with
  | Some n => Ok (float_of_ratio neg n (10 ^ Z.of_nat (String.length fp)))
  | None => Raise ValueError
  end.

Definition ref_float_of_int (z : Z) : result float :=
  let f := SF2Prim (binary_normalize prec emax z 0 false) in
  if is_infinity f then Raise OverflowError else Ok f.

Definition ref_int_truediv (a b : Z) : result float :=
  if b =? 0 then Raise ZeroDivisionError
  else
    let f := float_of_ratio (negb (Bool.eqb (a <? 0) (b <? 0))) (Z.abs a) (Z.abs b) in
    if is_infinity f then Raise OverflowError else Ok f.

(** Truncation towards zero. *)
Definition ref_int_of_float (f : float) : result Z :=
  match Prim2SF f with
  | S754_zero _ => Ok 0
  | S754_finite s m e =>
      let a := if 0 <=? e then Zpos m * 2 ^ e else Zpos m / 2 ^ (- e) in
      Ok (if s then - a else a)
  | S754_infinity _ => Raise OverflowError
  | S754_nan => Raise ValueError
  end.

(** [n / d] rounded to an integer, ties to even, for [0 <= n] and [0 < d]. *)
Definition div_half_even (n d : Z) : Z :=
  let q := n / d in
  let r := n mod d in
  if 2 * r <? d then q
  else if d <? 2 * r then q + 1
  else if Z.even q then q else q + 1.

Definition ref_round_float (f : float) (n : Z) : float :=
  match Prim2SF f with
  | S754_finite s m e =>
      (* |f| = m * 2^e, scaled by 10^n, as a fraction num / den *)
      let num := Zpos m * (if 0 <=? e then 2 ^ e else 1)
                        * (if 0 <=? n then 10 ^ n else 1) in
      let den := (if 0 <=? e then 1 else 2 ^ (- e))
                 * (if 0 <=? n then 1 else 10 ^ (- n)) in
      let k := div_half_even num den in
      if 0 <=? n then float_of_ratio s k (10 ^ n)
      else float_of_ratio s (k * 10 ^ (- n)) 1
  | _ => f
  end.

Definition two_digits (s : string) (i : nat) : option nat :=
  Z.to_nat <$> digits (substring i 2 s).

Definition parse_offset (s : string) : option (option Z) :=
  match s with
  | EmptyString => Some None
  | "Z" => Some (Some 0)
  | String c r =>
      if (String.length r =? 5)%nat && (String.eqb (substring 2 1 r) ":") then
        h ← two_digits r 0;
        m ← two_digits r 3;
        let off := Z.of_nat (60 * h + m) in
        if Ascii.eqb c "+" then Some (Some off)
        else if Ascii.eqb c "-" then Some (Some (- off))
        else None
      else None
  end.

Definition ref_isoparse (s : string) : result datetime :=
  of_option ValueError (
    y ← Z.to_nat <$> digits (substring 0 4 s);
    mo ← two_digits s 5;
    d ← two_digits s 8;
    h ← two_digits s 11;
    mi ← two_digits s 14;
    se ← two_digits s 17;
    off ← parse_offset (substring 19 (String.length s - 19) s);
    if String.eqb (substring 4 1 s) "-" && String.eqb (substring 7 1 s) "-"
       && String.eqb (substring 10 1 s) "T" && String.eqb (substring 13 1 s) ":"
       && String.eqb (substring 16 1 s) ":"
       && (1 <=? mo)%nat && (mo <=? 12)%nat && (1 <=? d)%nat && (d <=? 31)%nat
       && (h <? 24)%nat && (mi <? 60)%nat && (se <? 60)%nat
    then Some (mkDatetime y mo d h mi se 0 off)
    else None).

Definition ref_env : PyEnv := {|
  isoparse := ref_isoparse;
  float_of_str := ref_float_of_str;
  float_of_int := ref_float_of_int;
  int_of_float := ref_int_of_float;
  int_of_str := ref_int_of_str;
  int_truediv := ref_int_truediv;
  round_float := ref_round_float
|}.

End RefEnv.

(** ** forecast.py: aggregation, assembly and post-processing *)

Module Forecast.
Import Dwml.

(** [ForecastParser.codes] *)
Definition codes : list (string * string) := [
  ("Daily Maximum Temperature", "maxt");
  ("Daily Minimum Temperature", "mint");
  ("12 Hourly Probability of Precipitation", "pop12");
  ("Temperature", "temp");
  ("Dew Point", "td");
  ("Apparent Temperature", "apt");
  ("Cloud Cover Amount", "sky");
  ("Wind Direction", "wdir");
  ("Wind Speed", "wspd");
  ("Wind Speed Gust", "wgust");
  ("Weather Type, Coverage, and Intensity", "wx");
  ("Liquid Precipitation Amount", "qpf");
  ("Snow Amount", "snow");
  ("Relative Humidity", "rhm");
  ("Conditions Icons", "sym")
].

(** [code_map = { v: k for k, v in self.codes.items() }], and [code_map[c]]. *)
Fixpoint code_map_in (cs : list (string * string)) (c : string) : result string :=
  match cs with
  | [] => Raise KeyError
  | (k, v) :: cs' => if String.eqb v c then Ok k else code_map_in cs' c
  end.
Definition code_map (c : string) : result string := code_map_in codes c.

(** The forecast: [daily[date][field]] and [hourly[date][time][field]]. *)
Record forecast_data := mkForecast {
  daily : gmap string (gmap string pyval);
  hourly : gmap string (gmap string (gmap string pyval))
}.

(** [_combine_daily]: [daily[date][code] = additional[date]] for every date
    of [additional], creating [daily[date]] when it is missing. *)
Definition combine_field (code : string)
    (s : option (gmap string pyval)) (v : option pyval)
    : option (gmap string pyval) :=
  match v with
  | None => s
  | Some x => Some (<[code := x]> (default ∅ s))
  end.

Definition _combine_daily (daily : gmap string (gmap string pyval))
    (code : string) (additional : gmap string pyval)
    : gmap string (gmap string pyval) :=
  merge (combine_field code) daily additional.

(** [_combine_hourly]: the same, one level down. *)
Definition combine_times (code : string)
    (o : option (gmap string (gmap string pyval)))
    (a : option (gmap string pyval))
    : option (gmap string (gmap string pyval)) :=
  match a with
  | None => o
  | Some times => Some (merge (combine_field code) (default ∅ o) times)
  end.

Definition _combine_hourly (hourly : gmap string (gmap string (gmap string pyval)))
    (code : string) (additional : gmap string (gmap string pyval))
    : gmap string (gmap string (gmap string pyval)) :=
  merge (combine_times code) hourly additional.

(** [_first_nonempty] *)
Fixpoint _first_nonempty (values : list pyval) : pyval :=
  match values with
  | [] => VNone
  | v :: vs => if str_nonempty v then v else _first_nonempty vs
  end.

(** [_most_frequent].  The frequency table [counts] is a dictionary: its
    items are kept in the order in which the keys were first inserted. *)
Section MostFrequent.
Context {A : Type} (eqb : A → A → bool).

(** [if not val in counts: counts[val] = 0] then
    [counts[val] = counts[val] + 1] *)
Fixpoint count_incr (counts : list (A * nat)) (val : A) : list (A * nat) :=
  match counts with
  | [] => [(val, 1%nat)]
  | (k, n) :: counts' =>
      if eqb k val then (k, S n) :: counts'
      else (k, n) :: count_incr counts' val
  end.

Definition count_table (values : list A) : list (A * nat) :=
  foldl count_incr [] values.

(** The second loop, on the pair [(val, maxCount)]: [if v > maxCount]. *)
Definition frequent_step (st : option A * nat) (kv : A * nat) : option A * nat :=
  if (st.2 <? kv.2)%nat then (Some kv.1, kv.2) else st.

(** When the second loop starts, [val] still holds what the first loop
    left in it: the last of [values], or nothing when there is none. *)
Definition _most_frequent (values : list A) : result A :=
  of_option UnboundLocalError
    (foldl frequent_step (last values, 0%nat) (count_table values)).1.
End MostFrequent.

(** [_is_night] *)
Definition _is_night (time : nat * nat * nat * nat) : bool :=
  let sunrise := (6, 0, 0, 0)%nat in
  let sunset := (18, 0, 0, 0)%nat in
  time_lt time sunrise || time_lt sunset time.

(** [_symbol_from_link] *)
Definition _symbol_from_link (link : pyval) : result pyval :=
  if negb (truthy link) then Ok VNone
  else match link with
       | VStr s => Ok (if contains "/" s
                       then VStr (List.last (split "/" s) EmptyString)
                       else VNone)
       | _ => Raise TypeError
       end.

(** [_is_night_symbol] *)
Definition _is_night_symbol (symbol : pyval) : result bool :=
  if negb (truthy symbol) then Ok false
  else match symbol with
       | VStr (String c _) => Ok (Ascii.eqb c "n")
       | VStr EmptyString => Ok false
       | _ => Raise TypeError
       end.

(** The skip predicates. *)
Definition _skip_night (v : DwmlParameterValue) : result bool :=
  Ok (_is_night (time_of (start v))).

Definition _skip_different_startend_date (v : DwmlParameterValue) : result bool :=
  match end_ v with
  | None => Raise AttributeError
  | Some e => Ok (negb (bool_decide (date_of (start v) = date_of e)))
  end.

Definition _skip_same_startend_date (v : DwmlParameterValue) : result bool :=
  match end_ v with
  | None => Raise AttributeError
  | Some e => Ok (bool_decide (date_of (start v) = date_of e))
  end.

Definition _skip_empty_value (v : DwmlParameterValue) : result bool :=
  match value v with
  | VStr s => Ok (String.eqb s "")
  | _ => Raise TypeError
  end.

Definition _skip_night_symbol (v : DwmlParameterValue) : result bool :=
  let link := value v in
  if negb (truthy link) then Ok false
  else
    symbol ← _symbol_from_link link;
    if negb (truthy symbol) then Ok false
    else _is_night_symbol symbol.

(** [_format_symbol] *)
Definition _format_symbol (v : pyval) : result pyval := _symbol_from_link v.

(** [_format_weather]; whatever the body raises is caught and turned into
    the empty string. *)
Definition weather_fields (weather_line : pyval) : option (string * string * string) :=
  match weather_line with
  | VStr line =>
      let elements := split "|" line in
      coverage_element ← elements !! 1%nat;
      intensity_element ← elements !! 2%nat;
      weather_type_element ← elements !! 3%nat;
      coverage ← split ":" coverage_element !! 1%nat;
      intensity ← split ":" intensity_element !! 1%nat;
      let intensity := if String.eqb intensity "none" then "" else intensity in
      weather ← split ":" weather_type_element !! 1%nat;
      Some (coverage, intensity, weather)
  | _ => None
  end.

Definition weather_phrase (coverage intensity weather : string) : string :=
  if String.eqb coverage "likely"
  then intensity ++ " " ++ weather ++ " " ++ coverage
  else if String.eqb coverage "chance" || String.eqb coverage "slight chance"
  then coverage ++ " of " ++ intensity ++ " " ++ weather
  else if String.eqb coverage "definitely"
  then intensity ++ " " ++ weather
  else coverage ++ " " ++ intensity ++ " " ++ weather.

Definition _format_weather (weather_line : pyval) : string :=
  match weather_fields weather_line with
  | Some (coverage, intensity, weather) => weather_phrase coverage intensity weather
  | None => ""
  end.

Section WithEnv.
Context `{PyEnv}.

(** [_format_wind] *)
Definition _format_wind (knots : pyval) : result pyval :=
  if truthy knots then
    f ← py_float knots;
    z ← int_of_float (f * 1.15077945)%float;
    Ok (VInt z)
  else Ok VNone.

(** [_daily_low] *)
Fixpoint seed_lows (data : gmap string pyval) (dailies : list DwmlParameterValue)
    : result (gmap string pyval) :=
  match dailies with
  | [] => Ok data
  | day :: rest =>
      match end_ day with
      | None => Raise AttributeError
      | Some e => seed_lows (<[strftime_date e := value day]> data) rest
      end
  end.

(** [if date in data and int(hour.value) < int(data[date]): data[date] = hour.value] *)
Definition lower_at (date : string) (v : pyval) (data : gmap string pyval)
    : result (gmap string pyval) :=
  match data !! date with
  | None => Ok data
  | Some stored =>
      h ← py_int v;
      s ← py_int stored;
      Ok (if h <? s then <[date := v]> data else data)
  end.

Definition hour_step (data : gmap string pyval) (hour : DwmlParameterValue)
    : result (gmap string pyval) :=
  data ← lower_at (strftime_date (start hour)) (value hour) data;
  match end_ hour with
  | Some e => lower_at (strftime_date e) (value hour) data
  | None => Ok data
  end.

Fixpoint scan_hourlies (data : gmap string pyval) (hourlies : list DwmlParameterValue)
    : result (gmap string pyval) :=
  match hourlies with
  | [] => Ok data
  | hour :: rest => data ← hour_step data hour; scan_hourlies data rest
  end.

Definition _daily_low (dailies hourlies : list DwmlParameterValue)
    : result (gmap string pyval) :=
  data ← seed_lows ∅ dailies;
  scan_hourlies data hourlies.

(** [_aggregate], first loop: the values of each start date, in the
    order in which the dates are first met. *)
Fixpoint alist_append (k : string) (x : pyval) (iv : list (string * list pyval))
    : list (string * list pyval) :=
  match iv with
  | [] => [(k, [x])]
  | (k', l) :: iv' =>
      if String.eqb k' k then (k', (l ++ [x])%list) :: iv'
      else (k', l) :: alist_append k x iv'
  end.

Definition index_value (is_numeric : bool)
    (skipper : option (DwmlParameterValue → result bool))
    (indexed_values : list (string * list pyval)) (v : DwmlParameterValue)
    : result (list (string * list pyval)) :=
  if is_numeric && negb (truthy (value v)) then Ok indexed_values
  else
    match skipper with Some sk => sk v | None => Ok false end ≫= λ skip : bool,
    if skip then Ok indexed_values
    else
      let start_date := strftime_date (start v) in
      x ← (if is_numeric && str_nonempty (value v)
           then VFloat <$> py_float (value v) else Ok (value v));
      Ok (alist_append start_date x indexed_values).

Fixpoint index_values (is_numeric : bool)
    (skipper : option (DwmlParameterValue → result bool))
    (indexed_values : list (string * list pyval)) (values : list DwmlParameterValue)
    : result (list (string * list pyval)) :=
  match values with
  | [] => Ok indexed_values
  | v :: vs =>
      iv ← index_value is_numeric skipper indexed_values v;
      index_values is_numeric skipper iv vs
  end.

(** [_aggregate], second loop: the aggregate function. *)
Definition reduce (function : string) (values : list pyval) : result pyval :=
  if String.eqb function "average"
  then s ← py_sum values; py_truediv s (VInt (Z.of_nat (length values)))
  else if String.eqb function "sum" then py_sum values
  else if String.eqb function "max" then py_max values
  else if String.eqb function "min" then py_min values
  else if String.eqb function "first" then of_option IndexError (head values)
  else if String.eqb function "first-nonempty" then Ok (_first_nonempty values)
  else if String.eqb function "frequent" then _most_frequent py_eqb values
  else of_option IndexError (head values).

(** [if min_values and len(values) < min_values] *)
Definition below_min (min_values : option nat) (values : list pyval) : bool :=
  match min_values with
  | Some m => negb (m =? 0)%nat && (length values <? m)%nat
  | None => false
  end.

Definition aggregate_date (function : string) (is_numeric : bool) (decimal : Z)
    (formatter : option (pyval → result pyval)) (min_values : option nat)
    (data : gmap string pyval) (entry : string * list pyval)
    : result (gmap string pyval) :=
  let '(date, values) := entry in
  if below_min min_values values then Ok data
  else
    value ← reduce function values;
    value ← (if is_numeric
             then if decimal =? 0 then VInt <$> py_int value
                  else py_round value decimal
             else Ok value);
    value ← match formatter with Some f => f value | None => Ok value end;
    Ok (<[date := value]> data).

Fixpoint aggregate_dates (function : string) (is_numeric : bool) (decimal : Z)
    (formatter : option (pyval → result pyval)) (min_values : option nat)
    (data : gmap string pyval) (entries : list (string * list pyval))
    : result (gmap string pyval) :=
  match entries with
  | [] => Ok data
  | entry :: rest =>
      data ← aggregate_date function is_numeric decimal formatter min_values data entry;
      aggregate_dates function is_numeric decimal formatter min_values data rest
  end.

Definition _aggregate (values : list DwmlParameterValue) (function : string)
    (is_numeric : bool) (decimal : Z)
    (skipper : option (DwmlParameterValue → result bool))
    (formatter : option (pyval → result pyval)) (min_values : option nat)
    : result (gmap string pyval) :=
  indexed_values ← index_values is_numeric skipper [] values;
  aggregate_dates function is_numeric decimal formatter min_values ∅ indexed_values.

(** [_single] *)
Fixpoint single_from (data : gmap string (gmap string pyval))
    (values : list DwmlParameterValue) (formatter : option (pyval → result pyval))
    : result (gmap string (gmap string pyval)) :=
  match values with
  | [] => Ok data
  | v :: vs =>
      let start_date := strftime_date (start v) in
      let start_time := strftime_time (start v) in
      value ← match formatter with Some f => f (value v) | None => Ok (value v) end;
      single_from
        (<[start_date := <[start_time := value]> (default ∅ (data !! start_date))]> data)
        vs formatter
  end.

Definition _single (values : list DwmlParameterValue)
    (formatter : option (pyval → result pyval))
    : result (gmap string (gmap string pyval)) :=
  single_from ∅ values formatter.

(** [doc.parameter(code_map[c]).values] *)
Definition values_of (doc : DwmlDoc) (c : string) : result (list DwmlParameterValue) :=
  n ← code_map c;
  p ← parameter doc n;
  Ok (values p).

Definition weather_formatter (v : pyval) : result pyval :=
  Ok (VStr (_format_weather v)).

(** [_daily] *)
Definition _daily (doc : DwmlDoc) : result (gmap string (gmap string pyval)) :=
  let daily : gmap string (gmap string pyval) := ∅ in
  vs ← values_of doc "maxt";
  a ← _aggregate vs "first" true 0 None None None;
  let daily := _combine_daily daily "high" a in
  mint ← values_of doc "mint";
  temp ← values_of doc "temp";
  a ← _daily_low mint temp;
  let daily := _combine_daily daily "low" a in
  vs ← values_of doc "pop12";
  a ← _aggregate vs "first" true 0 (Some _skip_different_startend_date) None None;
  let daily := _combine_daily daily "precip_day" a in
  vs ← values_of doc "pop12";
  a ← _aggregate vs "first" true 0 (Some _skip_same_startend_date) None None;
  let daily := _combine_daily daily "precip_night" a in
  vs ← values_of doc "qpf";
  a ← _aggregate vs "sum" true 2 (Some _skip_empty_value) None (Some 3%nat);
  let daily := _combine_daily daily "rain_amount" a in
  vs ← values_of doc "snow";
  a ← _aggregate vs "sum" true 1 (Some _skip_empty_value) None (Some 3%nat);
  let daily := _combine_daily daily "snow_amount" a in
  vs ← values_of doc "rhm";
  a ← _aggregate vs "average" true 0 None None None;
  let daily := _combine_daily daily "relative_humidity" a in
  vs ← values_of doc "wgust";
  a ← _aggregate vs "max" true 0 None (Some _format_wind) None;
  let daily := _combine_daily daily "wind_gust" a in
  vs ← values_of doc "wspd";
  a ← _aggregate vs "average" true 0 None (Some _format_wind) None;
  let daily := _combine_daily daily "wind_sustained" a in
  vs ← values_of doc "wx";
  a ← _aggregate vs "first-nonempty" false 0 (Some _skip_night)
                 (Some weather_formatter) None;
  let daily := _combine_daily daily "weather" a in
  vs ← values_of doc "sym";
  a ← _aggregate vs "frequent" false 0 (Some _skip_night_symbol)
                 (Some _format_symbol) None;
  let daily := _combine_daily daily "wsym" a in
  Ok daily.

(** [_hourly] *)
Definition hourly_field (doc : DwmlDoc)
    (hourly : gmap string (gmap string (gmap string pyval)))
    (code element : string) (formatter : option (pyval → result pyval))
    : result (gmap string (gmap string (gmap string pyval))) :=
  vs ← values_of doc element;
  a ← _single vs formatter;
  Ok (_combine_hourly hourly code a).

Definition _hourly (doc : DwmlDoc)
    : result (gmap string (gmap string (gmap string pyval))) :=
  let hourly : gmap string (gmap string (gmap string pyval)) := ∅ in
  hourly ← hourly_field doc hourly "temp" "temp" None;
  hourly ← hourly_field doc hourly "precip" "pop12" None;
  hourly ← hourly_field doc hourly "relative_humidity" "rhm" None;
  hourly ← hourly_field doc hourly "rain_amount" "qpf" None;
  hourly ← hourly_field doc hourly "snow_amount" "snow" None;
  hourly ← hourly_field doc hourly "wind_sustained" "wspd" (Some _format_wind);
  hourly ← hourly_field doc hourly "wind_gust" "wgust" (Some _format_wind);
  hourly ← hourly_field doc hourly "sky" "sky" None;
  hourly ← hourly_field doc hourly "weather" "wx" (Some weather_formatter);
  hourly ← hourly_field doc hourly "wsym" "sym" (Some _format_symbol);
  Ok hourly.

(** [_cleanup].  The state carried from one time slot to the next. *)
Record carry := mkCarry {
  tmpPrecip : pyval;
  averageRain : pyval;
  averageSnow : pyval
}.

Definition carry0 : carry := mkCarry VNone VNone VNone.

(** The precipitation part of the loop body. *)
Definition carry_precip (tmp : pyval) (slot : gmap string pyval)
    : pyval * gmap string pyval :=
  let currentPrecip := default VNone (slot !! "precip") in
  let slot := if truthy tmp && negb (truthy currentPrecip)
              then <["precip" := tmp]> slot else slot in
  (if truthy currentPrecip then currentPrecip else tmp, slot).

(** The rain part and the snow part of the loop body, for the field
    [rain_amount] with [averageRain] and for [snow_amount] with
    [averageSnow]. *)
Definition carry_amount (field : string) (average : pyval)
    (slot : gmap string pyval) : result (pyval * gmap string pyval) :=
  if truthy (default VNone (slot !! field))
  then
    f ← py_float (default VNone (slot !! field));
    let average := VFloat (round_float (f / 2)%float 2) in
    Ok (average, <[field := average]> slot)
  else
    Ok (VInt 0, if ne_zero average then <[field := average]> slot else slot).

(** The loop body up to the removal of the slot. *)
Definition cleanup_slot (c : carry) (slot : gmap string pyval)
    : result (carry * gmap string pyval) :=
  let '(tmp, slot) := carry_precip (tmpPrecip c) slot in
  '(rain, slot) ← carry_amount "rain_amount" (averageRain c) slot;
  '(snow, slot) ← carry_amount "snow_amount" (averageSnow c) slot;
  Ok (mkCarry tmp rain snow, slot).

(** [if not 'temp' in slot: data['hourly'][date].pop(time)] *)
Definition has_temp (slot : gmap string pyval) : bool :=
  bool_decide (is_Some (slot !! "temp")).

Fixpoint cleanup_times (c : carry) (slots : gmap string (gmap string pyval))
    (times : list string) : result (carry * gmap string (gmap string pyval)) :=
  match times with
  | [] => Ok (c, slots)
  | time :: rest =>
      slot ← of_option KeyError (slots !! time);
      '(c, slot) ← cleanup_slot c slot;
      cleanup_times c
        (if has_temp slot then <[time := slot]> slots else delete time slots)
        rest
  end.

Fixpoint cleanup_dates (c : carry)
    (hourly : gmap string (gmap string (gmap string pyval)))
    (dates : list string)
    : result (carry * gmap string (gmap string (gmap string pyval))) :=
  match dates with
  | [] => Ok (c, hourly)
  | date :: rest =>
      slots ← of_option KeyError (hourly !! date);
      let times := sort_strings (elements (dom slots)) in
      '(c, slots) ← cleanup_times c slots times;
      cleanup_dates c (<[date := slots]> hourly) rest
  end.

Definition _cleanup (data : forecast_data) : result forecast_data :=
  let dates := sort_strings (elements (dom (hourly data))) in
  '(_, hourly) ← cleanup_dates carry0 (hourly data) dates;
  Ok (mkForecast (daily data) hourly).

(** [ForecastParser.parse], from the root element of the document. *)
Definition parse (tree : Element) : result forecast_data :=
  doc ← Dwml.parse tree;
  daily ← _daily doc;
  hourly ← _hourly doc;
  _cleanup (mkForecast daily hourly).
End WithEnv.

End Forecast.

Import Dwml Forecast.
Import Utils.

(** * Specification

    The vocabulary in which the properties below are stated, and the data
    of the worked examples. *)

(** ** The parser *)

(** The invariant as the specification words it: every parameter has as
    many values as the time layout it refers to has periods. *)
Definition values_aligned (doc : DwmlDoc) : Prop :=
  ∀ P, P ∈ parameters doc →
    ∃ layout, time_layouts doc !! time_layout_key P = Some layout ∧
      length (values P) = length (periods layout).

(** A document whose [maxt] series has one value while its time layout
    [k-p24h-n2-1] has two periods. *)
Definition short_series_tree : Element :=
  mkElement "dwml" [] None [
    mkElement "data" [] None [
      mkElement "time-layout" [("time-coordinate", "local")] None [
        mkElement "layout-key" [] (Some "k-p24h-n2-1") [];
        mkElement "start-valid-time" [] (Some "2020-02-07T07:00:00-05:00") [];
        mkElement "end-valid-time" [] (Some "2020-02-07T19:00:00-05:00") [];
        mkElement "start-valid-time" [] (Some "2020-02-08T07:00:00-05:00") [];
        mkElement "end-valid-time" [] (Some "2020-02-08T19:00:00-05:00") []
      ];
      mkElement "parameters" [] None [
        mkElement "temperature"
          [("type", "maximum"); ("units", "Fahrenheit"); ("time-layout", "k-p24h-n2-1")]
          None [
            mkElement "name" [] (Some "Daily Maximum Temperature") [];
            mkElement "value" [] (Some "33") []
          ]
      ]
    ]
  ].

(** ** Weather phrases *)

(** The phrase the specification asks for, by coverage category; an
    intensity ["none"] counts as the empty string. *)
Definition phrase_by_category (coverage intensity weather phrase : string) : Prop :=
  let intensity := if String.eqb intensity "none" then "" else intensity in
  (coverage = "likely" →
     phrase = intensity ++ " " ++ weather ++ " likely") ∧
  (coverage = "chance" ∨ coverage = "slight chance" →
     phrase = coverage ++ " of " ++ intensity ++ " " ++ weather) ∧
  (coverage = "definitely" →
     phrase = intensity ++ " " ++ weather) ∧
  (coverage ≠ "likely" → coverage ≠ "chance" → coverage ≠ "slight chance" →
   coverage ≠ "definitely" →
     phrase = coverage ++ " " ++ intensity ++ " " ++ weather).

(** ** The most frequent value *)

Section FrequencySpec.
Context {A : Type} (eqb : A → A → bool).

(** How often [x] occurs in [l]. *)
Fixpoint occurrences (x : A) (l : list A) : nat :=
  match l with
  | [] => 0
  | y :: l' => (if eqb y x then 1 else 0) + occurrences x l'
  end.

(** The distinct values of [l], in the order in which they are first met. *)
Fixpoint first_occurrences (l : list A) : list A :=
  match l with
  | [] => []
  | x :: l' => x :: List.filter (λ y, negb (eqb x y)) (first_occurrences l')
  end.

(** Whether [x] occurs in [l]. *)
Definition mem (x : A) (l : list A) : bool := existsb (λ y, eqb y x) l.

End FrequencySpec.

(** ** Hourly post-processing as one pass over the time slots *)

(** The slot of a date and a time. *)
Definition slot_at (h : gmap string (gmap string (gmap string pyval)))
    (d t : string) : option (gmap string pyval) :=
  h !! d ≫= λ slots, slots !! t.

(** The time slots in the order in which [_cleanup] visits them: the dates
    in ascending order and, within a date, the times in ascending order. *)
Definition visits_of_date (d : string) (slots : gmap string (gmap string pyval))
    : list (string * string * gmap string pyval) :=
  List.map (λ t, (d, t, default ∅ (slots !! t)))
           (sort_strings (elements (dom slots))).

Definition visits_in (h : gmap string (gmap string (gmap string pyval)))
    (dates : list string) : list (string * string * gmap string pyval) :=
  flat_map (λ d, visits_of_date d (default ∅ (h !! d))) dates.

Definition visits (h : gmap string (gmap string (gmap string pyval)))
    : list (string * string * gmap string pyval) :=
  visits_in h (sort_strings (elements (dom h))).

(** A slot comes before another when its date is not later and, on the same
    date, its time is not later. *)
Definition visit_le (a b : string * string * gmap string pyval) : Prop :=
  str_le a.1.1 b.1.1 ∧ (a.1.1 = b.1.1 → str_le a.1.2 b.1.2).

(** The field of a slot of the forecast. *)
Definition field_at (data : forecast_data) (d t k : string) : option pyval :=
  slot_at (hourly data) d t ≫= λ s, s !! k.

(** The precipitation values seen in a run of slots, oldest first. *)
Definition seen_precips (slots : list (gmap string pyval)) : list pyval :=
  filter (λ v, truthy v) (omap (λ s : gmap string pyval, s !! "precip") slots).

(** The precipitation probability a visited slot ends with: its own when
    it has one, else the most recent one among the slots visited before it,
    when there is one. *)
Definition precip_result (earlier : list (gmap string pyval))
    (s s' : gmap string pyval) : Prop :=
  s' !! "precip"
  = if truthy (default VNone (s !! "precip")) then s !! "precip"
    else match last (seen_precips earlier) with
         | Some p => Some p
         | None => s !! "precip"
         end.

Section PassSpec.
Context `{PyEnv}.

(** The loop body applied to a list of slots, the carry threaded through. *)
Fixpoint run_slots (c : carry) (slots : list (gmap string pyval))
    : result (carry * list (gmap string pyval)) :=
  match slots with
  | [] => Ok (c, [])
  | s :: rest =>
      '(c1, s') ← cleanup_slot c s;
      '(c2, rest') ← run_slots c1 rest;
      Ok (c2, s' :: rest')
  end.

(** What the rain part (or the snow part) of the loop body does with the
    field and its carry-over. *)
Definition amount_spec (field : string) (average : pyval) (s : gmap string pyval)
    (average' : pyval) (s' : gmap string pyval) : Prop :=
  let cur := default VNone (s !! field) in
  if truthy cur
  then ∃ f, py_float cur = Ok f ∧
            average' = VFloat (round_float (f / 2)%float 2) ∧
            s' !! field = Some average'
  else average' = VInt 0 ∧
       s' !! field = if ne_zero average then Some average else s !! field.

(** The carry-over of an amount that a run of slots leaves behind: nothing
    yet before the first slot; half the amount of the last slot when it
    reports one; zero otherwise. *)
Definition amount_left (field : string) (slots : list (gmap string pyval))
    : result pyval :=
  match last slots with
  | None => Ok VNone
  | Some p =>
      let cur := default VNone (p !! field) in
      if truthy cur
      then f ← py_float cur; Ok (VFloat (round_float (f / 2)%float 2))
      else Ok (VInt 0)
  end.

(** The amount a visited slot ends with: half its own when it reports one,
    else the carry-over that the slots before it leave, when that is not
    equal to zero. *)
Definition amount_result (field : string) (earlier : list (gmap string pyval))
    (s s' : gmap string pyval) : Prop :=
  let cur := default VNone (s !! field) in
  if truthy cur
  then ∃ f, py_float cur = Ok f ∧
            s' !! field = Some (VFloat (round_float (f / 2)%float 2))
  else ∃ carried, amount_left field earlier = Ok carried ∧
                  s' !! field = if ne_zero carried then Some carried else s !! field.

(** The amounts that a slot reports can be converted to [float]. *)
Definition convertible (s : gmap string pyval) : Prop :=
  ∀ field, field = "rain_amount" ∨ field = "snow_amount" →
    truthy (default VNone (s !! field)) = true →
    is_ok (py_float (default VNone (s !! field))) = true.

End PassSpec.

(** Three slots of one day and one of the next: only the first reports a
    precipitation probability and a rain amount. *)
Definition carry_example : forecast_data :=
  mkForecast ∅ (list_to_map [
    ("2020-02-07", list_to_map [
       ("06:00:00", list_to_map [("temp", VStr "30"); ("precip", VStr "40");
                                 ("rain_amount", VStr "0.40")]);
       ("09:00:00", list_to_map [("temp", VStr "31")]);
       ("12:00:00", list_to_map [("temp", VStr "32")])]);
    ("2020-02-08", list_to_map [
       ("00:00:00", list_to_map [("temp", VStr "29")])])]).

Definition carry_example_cleaned : forecast_data :=
  Eval vm_compute in
    match _cleanup (H := RefEnv.ref_env) carry_example with
    | Ok d => d
    | Raise _ => carry_example
    end.

(** A slot without [temp] that reports a probability and amounts, followed
    by a slot with only a [temp]. *)
Definition pruned_example : forecast_data :=
  mkForecast ∅ (list_to_map [
    ("2020-02-07", list_to_map [
       ("18:00:00", list_to_map [("precip", VStr "55"); ("rain_amount", VStr "0.10");
                                 ("snow_amount", VStr "1.0")]);
       ("19:00:00", list_to_map [("temp", VStr "27")])])]).

Definition pruned_example_cleaned : forecast_data :=
  Eval vm_compute in
    match _cleanup (H := RefEnv.ref_env) pruned_example with
    | Ok d => d
    | Raise _ => pruned_example
    end.

(** ** The daily low *)

(** The daily-minimum values whose end date is [d], in series order. *)
Definition seeds_for (d : string) (dailies : list DwmlParameterValue) : list pyval :=
  omap (λ day, e ← end_ day;
               if decide (strftime_date e = d) then Some (value day) else None)
       dailies.

(** The hourly values that are compared with the value stored for [d]: a
    sample counts once for its start date and once for its end date. *)
Definition samples_of (d : string) (hour : DwmlParameterValue) : list pyval :=
  ((if decide (strftime_date (start hour) = d) then [value hour] else [])
   ++ match end_ hour with
      | Some e => if decide (strftime_date e = d) then [value hour] else []
      | None => []
      end)%list.

Definition samples_for (d : string) (hourlies : list DwmlParameterValue) : list pyval :=
  flat_map (samples_of d) hourlies.

Section DailyLowSpec.
Context `{PyEnv}.

(** The stored value after comparing it with each sample in turn: a sample
    replaces it exactly when it is strictly lower as an [int]. *)
Fixpoint lowest (stored : pyval) (samples : list pyval) : result pyval :=
  match samples with
  | [] => Ok stored
  | v :: rest =>
      h ← py_int v;
      s ← py_int stored;
      lowest (if h <? s then v else stored) rest
  end.

(** How [data'] comes from [data] at the key [d], given the samples that
    were compared there. *)
Definition lowered (d : string) (samples : list pyval)
    (data data' : gmap string pyval) : Prop :=
  match data !! d with
  | None => data' !! d = None
  | Some stored => ∃ x, lowest stored samples = Ok x ∧ data' !! d = Some x
  end.

End DailyLowSpec.

(** A daily minimum of 30 valid from 2020-02-07T19:00 to 2020-02-08T07:00,
    and an hourly temperature at 2020-02-08T05:00. *)
Definition low_example_daily : DwmlParameterValue :=
  mkParameterValue (VStr "30")
    (mkDatetime 2020 2 7 19 0 0 0 (Some (-300)))
    (Some (mkDatetime 2020 2 8 7 0 0 0 (Some (-300)))).

Definition low_example_hourly (v : string) : DwmlParameterValue :=
  mkParameterValue (VStr v) (mkDatetime 2020 2 8 5 0 0 0 (Some (-300))) None.

(** ** The aggregation primitive *)

(** A value takes part in the aggregation when it is not dropped as empty
    (numeric aggregation only) and the skip predicate does not skip it. *)
Definition skipped (skipper : option (DwmlParameterValue → result bool))
    (v : DwmlParameterValue) : bool :=
  match skipper with
  | Some sk => match sk v with Ok b => b | Raise _ => false end
  | None => false
  end.

Definition kept (is_numeric : bool)
    (skipper : option (DwmlParameterValue → result bool))
    (v : DwmlParameterValue) : bool :=
  negb (is_numeric && negb (truthy (value v))) && negb (skipped skipper v).

(** The number of values of the series that take part and start on [d]. *)
Definition count_kept (is_numeric : bool)
    (skipper : option (DwmlParameterValue → result bool))
    (d : string) (values : list DwmlParameterValue) : nat :=
  length (List.filter
            (λ v, kept is_numeric skipper v && String.eqb (strftime_date (start v)) d)
            values).

(** The values indexed under a date. *)
Fixpoint alist_get (d : string) (iv : list (string * list pyval)) : list pyval :=
  match iv with
  | [] => []
  | (k, l) :: iv' => if String.eqb k d then l else alist_get d iv'
  end.

(** The index has no repeated date and no empty group. *)
Definition index_ok (iv : list (string * list pyval)) : Prop :=
  NoDup iv.*1 ∧ Forall (λ kl, kl.2 ≠ []) iv.

(** A series whose values on 2020-02-07 are all empty strings, and one
    value on the next day. *)
Definition empty_day_series : list DwmlParameterValue := [
  mkParameterValue (VStr "") (mkDatetime 2020 2 7 7 0 0 0 (Some (-300))) None;
  mkParameterValue (VStr "") (mkDatetime 2020 2 7 13 0 0 0 (Some (-300))) None;
  mkParameterValue (VStr "") (mkDatetime 2020 2 7 19 0 0 0 (Some (-300))) None;
  mkParameterValue (VStr "12") (mkDatetime 2020 2 8 7 0 0 0 (Some (-300))) None
].

(** ** The assembly *)

(** The elements that [_daily] and [_hourly] look up. *)
Definition daily_codes : list string :=
  ["maxt"; "mint"; "temp"; "pop12"; "qpf"; "snow"; "rhm"; "wgust"; "wspd";
   "wx"; "sym"].
Definition hourly_codes : list string :=
  ["temp"; "pop12"; "rhm"; "qpf"; "snow"; "wspd"; "wgust"; "sky"; "wx"; "sym"].
Definition required_codes : list string :=
  ["maxt"; "mint"; "temp"; "pop12"; "qpf"; "snow"; "rhm"; "wgust"; "wspd";
   "wx"; "sym"; "sky"].

(** A feed with one time layout, whose single period has no end, and the
    given parameter elements. *)
Definition feed (params : list Element) : Element :=
  mkElement "dwml" [] None [
    mkElement "data" [] None [
      mkElement "time-layout" [("time-coordinate", "local")] None [
        mkElement "layout-key" [] (Some "k-p3h-n1-1") [];
        mkElement "start-valid-time" [] (Some "2020-02-07T19:00:00-05:00") []
      ];
      mkElement "parameters" [] None params
    ]
  ].

Definition series (tag name : string) (values : list string) : Element :=
  mkElement tag [("time-layout", "k-p3h-n1-1")] None
    (mkElement "name" [] (Some name) []
     :: List.map (λ v, mkElement "value" [] (Some v) []) values).

(** Every element that the assembly looks up, each with an empty series
    except the daily minimum, which has the values [mint]. *)
Definition all_series (mint : list string) : list Element := [
  series "temperature" "Daily Maximum Temperature" [];
  series "temperature" "Daily Minimum Temperature" mint;
  series "temperature" "Temperature" [];
  series "probability-of-precipitation" "12 Hourly Probability of Precipitation" [];
  series "precipitation" "Liquid Precipitation Amount" [];
  series "precipitation" "Snow Amount" [];
  series "humidity" "Relative Humidity" [];
  series "wind-speed" "Wind Speed Gust" [];
  series "wind-speed" "Wind Speed" [];
  series "weather" "Weather Type, Coverage, and Intensity" [];
  series "conditions-icon" "Conditions Icons" [];
  series "cloud-amount" "Cloud Cover Amount" []
].

(** The same without the wind gust series. *)
Definition series_without_wgust : list Element :=
  List.filter
    (λ e, negb (bool_decide (Some "Wind Speed Gust"
                             ∈ List.map text (getchildren e))))
    (all_series []).

(** The assembly raises exactly when the name of some required element is
    missing from the parsed document. *)
Definition raises_iff_missing `{PyEnv} (tree : Element) (doc : DwmlDoc) : Prop :=
  (∃ e, Forecast.parse tree = Raise e) ↔
  (∃ code n, code ∈ required_codes ∧ code_map code = Ok n ∧
             parameter doc n = Raise StopIteration).

(** ** Time layouts and parameters, read off the tree *)

(** The text of the last child with the tag [t]; [k] when there is no such
    child. *)
Definition last_text_from (k : option string) (t : string) (cs : list Element)
    : option string :=
  match last (List.filter (λ c, String.eqb (tag c) t) cs) with
  | Some c => text c
  | None => k
  end.

Definition last_text (t : string) (cs : list Element) : option string :=
  last_text_from None t cs.

(** The end of the period that is open when [cs] is reached: the text of
    the last [end-valid-time] child before the next [start-valid-time]
    child, and [cur] when there is none. *)
Fixpoint closing (cur : option string) (cs : list Element) : option string :=
  match cs with
  | [] => cur
  | c :: cs' =>
      if String.eqb (tag c) "start-valid-time" then cur
      else closing (if String.eqb (tag c) "end-valid-time" then text c else cur) cs'
  end.

(** One period for each [start-valid-time] child, in document order. *)
Fixpoint periods_from (cs : list Element) : list (option string * option string) :=
  match cs with
  | [] => []
  | c :: cs' =>
      if String.eqb (tag c) "start-valid-time"
      then (text c, closing None cs') :: periods_from cs'
      else periods_from cs'
  end.

(** An [end-valid-time] child comes before every [start-valid-time] child. *)
Fixpoint end_before_start (cs : list Element) : bool :=
  match cs with
  | [] => false
  | c :: cs' =>
      if String.eqb (tag c) "end-valid-time" then true
      else if String.eqb (tag c) "start-valid-time" then false
      else end_before_start cs'
  end.

(** The time layout that a [time-layout] element describes. *)
Definition layout_of (e : Element) : DwmlTimeLayout :=
  mkTimeLayout (last_text "layout-key" (getchildren e))
    (attrib_get (attrib e) "time-coordinate")
    (attrib_get (attrib e) "summarization")
    (periods_from (getchildren e)).

(** The value [pv] carries the parsed start and end of the period [p]; an
    end that is missing or empty is no end. *)
Definition carries_period `{PyEnv} (p : option string * option string)
    (pv : DwmlParameterValue) : Prop :=
  (∃ t, p.1 = Some t ∧ isoparse t = Ok (start pv)) ∧
  match p.2 with
  | Some t =>
      if String.eqb t "" then end_ pv = None
      else ∃ e, isoparse t = Ok e ∧ end_ pv = Some e
  | None => end_ pv = None
  end.

(** The raw value that a child of a parameter element contributes. *)
Definition is_text (v : pyval) : bool :=
  match v with VNone | VStr _ => true | _ => false end.

(** The raw value that a child of a parameter element contributes, if it
    contributes one. *)
Definition child_value (c : Element) : option pyval :=
  if String.eqb (tag c) "value" || String.eqb (tag c) "icon-link"
  then Some (of_text (text c))
  else if String.eqb (tag c) "weather-conditions"
  then Some (VStr (weather_conditions_value c))
  else None.

(** What a parsed parameter [P] takes from its element [e] and from the
    time layouts: the [i]-th value carries the [i]-th raw value of the element
    and the [i]-th period of the layout the element refers to. *)
Definition parameter_of `{PyEnv} (tl : gmap (option string) DwmlTimeLayout)
    (e : Element) (P : DwmlParameter) : Prop :=
  ptag P = tag e ∧
  name P = last_text "name" (getchildren e) ∧
  time_layout_key P = attrib_get (attrib e) "time-layout" ∧
  typ P = attrib_get (attrib e) "type" ∧
  units P = attrib_get (attrib e) "units" ∧
  ∃ layout, tl !! time_layout_key P = Some layout ∧
    ∀ i pv, values P !! i = Some pv →
      omap child_value (getchildren e) !! i = Some (value pv) ∧
      ∃ p, periods layout !! i = Some p ∧ carries_period p pv.

(** The encoding of one nested [value] of a [weather-conditions] element,
    and the nested [value] elements. *)
Definition encoded (g : Element) : string :=
  format_weather (attrib_get (attrib g) "coverage")
                 (attrib_get (attrib g) "intensity")
                 (attrib_get (attrib g) "weather-type")
                 (attrib_get (attrib g) "qualifier").

Definition conditions (child : Element) : list Element :=
  List.filter (λ g, String.eqb (tag g) "value") (getchildren child).

(** The coverage, intensity and weather type of a nested [value], as they
    are written into the encoding, and a text with neither of the two
    separators of the encoding. *)
Definition coverage_of (g : Element) : string :=
  fmt (attrib_get (attrib g) "coverage").
Definition intensity_of (g : Element) : string :=
  fmt (attrib_get (attrib g) "intensity").
Definition weather_type_of (g : Element) : string :=
  fmt (attrib_get (attrib g) "weather-type").
Definition plain (s : string) : bool :=
  negb (contains "|" s) && negb (contains ":" s).

(** A time layout of two periods, the second one open, and a document
    whose only parameter refers to a time layout that is not declared. *)
Definition open_layout : Element :=
  mkElement "time-layout" [("time-coordinate", "local")] None [
    mkElement "layout-key" [] (Some "k1") [];
    mkElement "start-valid-time" [] (Some "2020-02-07T07:00:00-05:00") [];
    mkElement "end-valid-time" [] (Some "2020-02-07T19:00:00-05:00") [];
    mkElement "start-valid-time" [] (Some "2020-02-08T07:00:00-05:00") []
  ].

Definition dangling_layout_tree : Element :=
  mkElement "dwml" [] None [
    mkElement "data" [] None [
      mkElement "parameters" [] None [
        mkElement "temperature" [("time-layout", "k1")] None
          [mkElement "name" [] (Some "Daily Maximum Temperature") []]
      ]
    ]
  ].

(** A [weather-conditions] element with two nested conditions. *)
Definition two_conditions : Element :=
  mkElement "weather-conditions" [] None [
    mkElement "value" [("coverage", "likely"); ("intensity", "light");
                       ("weather-type", "rain"); ("qualifier", "none")] None [];
    mkElement "value" [("coverage", "chance"); ("intensity", "none");
                       ("weather-type", "thunderstorms"); ("qualifier", "none")]
              None []
  ].

(** ** Skip predicates and formatters *)

(** The text after the last ["/"] of a link that has one begins with
    ["n"]. *)
Definition night_link (v : pyval) : Prop :=
  ∃ pre rest, v = VStr (pre ++ "/" ++ String "n" rest)
              ∧ contains "/" rest = false.

(** [formatter(x) if formatter else x] *)
Definition formatted (formatter : option (pyval → result pyval)) (x : pyval)
    : result pyval :=
  match formatter with Some f => f x | None => Ok x end.

(** The value starts and ends on the same calendar date. *)
Definition same_day (v : DwmlParameterValue) : Prop :=
  ∃ e, end_ v = Some e ∧ date_of (start v) = date_of e.

(** A value that starts on 2020-02-07 and ends on the given day of that
    month. *)
Definition pop_example (value : string) (end_day : nat) : DwmlParameterValue :=
  mkParameterValue (VStr value) (mkDatetime 2020 2 7 7 0 0 0 (Some (-300)))
    (Some (mkDatetime 2020 2 end_day 19 0 0 0 (Some (-300)))).

(** ** What an aggregate is computed from *)

(** The values of the series that take part and start on [d], in series
    order. *)
Definition group_of (is_numeric : bool)
    (skipper : option (DwmlParameterValue → result bool))
    (d : string) (values : list DwmlParameterValue) : list DwmlParameterValue :=
  List.filter
    (λ v, kept is_numeric skipper v && String.eqb (strftime_date (start v)) d)
    values.

Section AggregateSpec.
Context `{PyEnv}.

(** What a value that takes part is indexed as, and what becomes of the
    result of the aggregate function before it is formatted. *)
Definition indexed (is_numeric : bool) (v : pyval) : result pyval :=
  if is_numeric && str_nonempty v then VFloat <$> py_float v else Ok v.

Definition coerced (is_numeric : bool) (decimal : Z) (x : pyval) : result pyval :=
  if is_numeric
  then if decimal =? 0 then VInt <$> py_int x else py_round x decimal
  else Ok x.

(** [x] is computed from the values [vs]: each is indexed, the aggregate
    function is applied to the list, and its result is coerced and
    formatted. *)
Definition aggregate_of (function : string) (is_numeric : bool) (decimal : Z)
    (formatter : option (pyval → result pyval))
    (vs : list DwmlParameterValue) (x : pyval) : Prop :=
  ∃ g r c, Forall2 (λ v y, indexed is_numeric (value v) = Ok y) vs g ∧
           reduce function g = Ok r ∧
           coerced is_numeric decimal r = Ok c ∧
           formatted formatter c = Ok x.

End AggregateSpec.

(** ** What the hourly forecast is assembled from *)

(** The values of the series that start on the date [d] at the time [t]. *)
Definition starting_at (d t : string) (values : list DwmlParameterValue)
    : list DwmlParameterValue :=
  List.filter (λ v, String.eqb (strftime_date (start v)) d
                    && String.eqb (strftime_time (start v)) t) values.

(** The entry of a date and a time in a dictionary of dictionaries. *)
Definition entry_at (a : gmap string (gmap string pyval)) (d t : string)
    : option pyval :=
  a !! d ≫= λ times, times !! t.

(** The field of a date in the daily forecast. *)
Definition daily_field (daily : gmap string (gmap string pyval)) (d k : string)
    : option pyval :=
  daily !! d ≫= λ fields, fields !! k.

(** The field of a slot of the hourly forecast. *)
Definition hourly_field_at (h : gmap string (gmap string (gmap string pyval)))
    (d t k : string) : option pyval :=
  slot_at h d t ≫= λ s, s !! k.

Section AssemblySpec.
Context `{PyEnv}.

(** The fields of the hourly forecast: the field, the element it is taken
    from, and the formatter of its values, in the order of [_hourly]. *)
Definition hourly_recipes
    : list (string * string * option (pyval → result pyval)) := [
  ("temp", "temp", None);
  ("precip", "pop12", None);
  ("relative_humidity", "rhm", None);
  ("rain_amount", "qpf", None);
  ("snow_amount", "snow", None);
  ("wind_sustained", "wspd", Some _format_wind);
  ("wind_gust", "wgust", Some _format_wind);
  ("sky", "sky", None);
  ("weather", "wx", Some weather_formatter);
  ("wsym", "sym", Some _format_symbol)
].

Fixpoint hourly_fold (doc : DwmlDoc)
    (hourly : gmap string (gmap string (gmap string pyval)))
    (recipes : list (string * string * option (pyval → result pyval)))
    : result (gmap string (gmap string (gmap string pyval))) :=
  match recipes with
  | [] => Ok hourly
  | (code, element, formatter) :: rest =>
      hourly ← hourly_field doc hourly code element formatter;
      hourly_fold doc hourly rest
  end.

(** The fields of the daily forecast: the field and the aggregate it is
    combined from, in the order of [_daily]. *)
Definition daily_recipes (doc : DwmlDoc)
    : list (string * result (gmap string pyval)) := [
  ("high", vs ← values_of doc "maxt"; _aggregate vs "first" true 0 None None None);
  ("low", mint ← values_of doc "mint"; temp ← values_of doc "temp";
          _daily_low mint temp);
  ("precip_day",
   vs ← values_of doc "pop12";
   _aggregate vs "first" true 0 (Some _skip_different_startend_date) None None);
  ("precip_night",
   vs ← values_of doc "pop12";
   _aggregate vs "first" true 0 (Some _skip_same_startend_date) None None);
  ("rain_amount",
   vs ← values_of doc "qpf";
   _aggregate vs "sum" true 2 (Some _skip_empty_value) None (Some 3%nat));
  ("snow_amount",
   vs ← values_of doc "snow";
   _aggregate vs "sum" true 1 (Some _skip_empty_value) None (Some 3%nat));
  ("relative_humidity",
   vs ← values_of doc "rhm"; _aggregate vs "average" true 0 None None None);
  ("wind_gust",
   vs ← values_of doc "wgust";
   _aggregate vs "max" true 0 None (Some _format_wind) None);
  ("wind_sustained",
   vs ← values_of doc "wspd";
   _aggregate vs "average" true 0 None (Some _format_wind) None);
  ("weather",
   vs ← values_of doc "wx";
   _aggregate vs "first-nonempty" false 0 (Some _skip_night)
              (Some weather_formatter) None);
  ("wsym",
   vs ← values_of doc "sym";
   _aggregate vs "frequent" false 0 (Some _skip_night_symbol)
              (Some _format_symbol) None)
].

Fixpoint daily_fold (daily : gmap string (gmap string pyval))
    (recipes : list (string * result (gmap string pyval)))
    : result (gmap string (gmap string pyval)) :=
  match recipes with
  | [] => Ok daily
  | (code, aggregate) :: rest =>
      a ← aggregate;
      daily_fold (_combine_daily daily code a) rest
  end.

End AssemblySpec.

(** A feed with every element that the assembly looks up: one daily
    maximum and one hourly temperature at 2020-02-07T19:00, every other
    series empty. *)
Definition forecast_example : Element :=
  feed [
    series "temperature" "Daily Maximum Temperature" ["33"];
    series "temperature" "Daily Minimum Temperature" [];
    series "temperature" "Temperature" ["30"];
    series "probability-of-precipitation" "12 Hourly Probability of Precipitation" [];
    series "precipitation" "Liquid Precipitation Amount" [];
    series "precipitation" "Snow Amount" [];
    series "humidity" "Relative Humidity" [];
    series "wind-speed" "Wind Speed Gust" [];
    series "wind-speed" "Wind Speed" [];
    series "weather" "Weather Type, Coverage, and Intensity" [];
    series "conditions-icon" "Conditions Icons" [];
    series "cloud-amount" "Cloud Cover Amount" []
  ].

Definition forecast_example_parsed : forecast_data :=
  Eval vm_compute in
    match Forecast.parse (H := RefEnv.ref_env) forecast_example with
    | Ok d => d
    | Raise _ => mkForecast ∅ ∅
    end.

Definition forecast_example_doc : DwmlDoc :=
  Eval vm_compute in
    match Dwml.parse (H := RefEnv.ref_env) forecast_example with
    | Ok doc => doc
    | Raise _ => mkDoc [] ∅ []
    end.

Definition forecast_example_hourly
    : gmap string (gmap string (gmap string pyval)) :=
  Eval vm_compute in
    match _hourly (H := RefEnv.ref_env) forecast_example_doc with
    | Ok h => h
    | Raise _ => ∅
    end.

Definition forecast_example_daily : gmap string (gmap string pyval) :=
  Eval vm_compute in
    match _daily (H := RefEnv.ref_env) forecast_example_doc with
    | Ok dl => dl
    | Raise _ => ∅
    end.

(** The aggregations of [_daily] that take the first value of a date. *)
Definition first_value_fields
    : list (string * string * option (DwmlParameterValue → result bool)) := [
  ("high", "maxt", None);
  ("precip_day", "pop12", Some _skip_different_startend_date);
  ("precip_night", "pop12", Some _skip_same_startend_date)
].

(** ** Legacy data and SQL timestamps *)

(** The parameters of the document that have the name [n]. *)
Definition named (n : option string) (ps : list DwmlParameter) : list DwmlParameter :=
  List.filter (λ p, bool_decide (name p = n)) ps.

(** The wall-clock fields of a timestamp, and the range in which
    [strftime] writes each of them with a fixed number of digits. *)
Definition wall_clock (dt : datetime) : nat * nat * nat * nat * nat * nat :=
  (year dt, month dt, day dt, hour dt, minute dt, second dt).

Definition four_digit_year (dt : datetime) : Prop :=
  1000 ≤ Z.of_nat (year dt) ≤ 9999 ∧
  (month dt ≤ 12 ∧ day dt ≤ 31 ∧ hour dt < 24 ∧ minute dt < 60 ∧ second dt < 60)%nat.

(** ** Locations *)

(** The value of the attribute [a] on the last [point] child that has it;
    [k] when there is no such child. *)
Definition last_point_from (k : option string) (a : string) (cs : list Element)
    : option string :=
  match last (omap (λ c, if String.eqb (tag c) "point"
                         then attrib_get (attrib c) a else None) cs) with
  | Some v => Some v
  | None => k
  end.

(** The location that a [location] element describes. *)
Definition location_of (e : Element) : DwmlLocation :=
  mkLocation (last_text "location-key" (getchildren e))
             (last_point_from None "latitude" (getchildren e))
             (last_point_from None "longitude" (getchildren e)).

(** A location whose latitude and longitude come from two [point]
    children. *)
Definition split_point_location : Element :=
  mkElement "location" [] None [
    mkElement "location-key" [] (Some "point1") [];
    mkElement "point" [("latitude", "38.99")] None [];
    mkElement "point" [("longitude", "-77.01")] None []
  ].

(** * Properties *)

(** ** The error monad *)

Lemma bind_Ok {A B} (m : result A) (f : A → result B) (b : B) :
  m ≫= f = Ok b ↔ ∃ a, m = Ok a ∧ f a = Ok b.
Proof.
  destruct m as [a|e]; simpl; split.
  - intros Hf. by exists a.
  - by intros (a' & [= <-] & Hf).
  - intros [=].
  - by intros (a' & [=] & _).
Qed.

Lemma of_option_Ok {A} (e : pyerr) (o : option A) (a : A) :
  of_option e o = Ok a ↔ o = Some a.
Proof. destruct o; simpl; split; congruence. Qed.

Ltac inv_bind H :=
  let a := fresh "a" in
  let Ha := fresh "H" a in
  apply bind_Ok in H as (a & Ha & H).

(** ** The parser *)

Section ParserFacts.
Context `{PyEnv}.

Lemma zip_values_length vs ps pvs :
  zip_values vs ps = Ok pvs →
  length pvs = Nat.min (length vs) (length ps).
Proof.
  revert ps pvs. induction vs as [|v vs IH]; intros [|p ps] pvs; simpl;
    try (by intros [= <-]).
  intros Hz. inv_bind Hz. inv_bind Hz. injection Hz as <-.
  simpl. f_equal. by apply IH.
Qed.

Lemma parse_parameter_length tl e P :
  parse_parameter tl e = Ok P →
  time_layout_key P = attrib_get (attrib e) "time-layout" ∧
  ∃ layout, tl !! time_layout_key P = Some layout ∧
    length (values P) = Nat.min (length (raw_values e)) (length (periods layout)).
Proof.
  unfold parse_parameter, raw_values.
  destruct (foldl parameter_child _ _) as [nm vs]. simpl.
  intros Hp. inv_bind Hp. inv_bind Hp. injection Hp as <-. simpl.
  apply of_option_Ok in Ha. split; [done|].
  exists a. split; [done|]. by apply zip_values_length.
Qed.

Lemma parse_parameter_list_length tl es Ps :
  parse_parameter_list tl es = Ok Ps →
  Forall2 (λ e P,
    time_layout_key P = attrib_get (attrib e) "time-layout" ∧
    ∃ layout, tl !! time_layout_key P = Some layout ∧
      length (values P) = Nat.min (length (raw_values e)) (length (periods layout)))
    es Ps.
Proof.
  revert Ps. induction es as [|e es IH]; intros Ps; simpl.
  - intros [= <-]. constructor.
  - intros Hp. inv_bind Hp. inv_bind Hp. injection Hp as <-.
    constructor; [by apply parse_parameter_length | by apply IH].
Qed.
End ParserFacts.

(** C1, as stated, fails: [zip] stops at the shorter of the raw values and
    the periods, so the document above parses into a parameter with one
    value against a layout of two periods. *)
Lemma C1_values_aligned_counterexample :
  ∃ doc, Dwml.parse (H := RefEnv.ref_env) short_series_tree = Ok doc
         ∧ ¬ values_aligned doc.
Proof.
  eexists. split; [vm_compute; reflexivity|].
  intros Hal.
  destruct (Hal _ (list_elem_of_here _ _)) as (layout & Hl & Hlen).
  vm_compute in Hl. injection Hl as <-. discriminate Hlen.
Qed.

(** C1 (amended): after a successful parse every parameter refers to a
    time layout of the document, and the number of its values is the
    smaller of the number of raw values of its element and the number of
    periods of that layout; so it never exceeds the period count, and equals
    it exactly when the element has at least as many raw values as the layout
    has periods. *)
Theorem C1_values_length `{PyEnv} (tree : Element) (doc : DwmlDoc) :
  Dwml.parse tree = Ok doc →
  ∃ ps, find_data_parameters tree = Some ps ∧
    Forall2 (λ e P,
      time_layout_key P = attrib_get (attrib e) "time-layout" ∧
      ∃ layout, time_layouts doc !! time_layout_key P = Some layout ∧
        length (values P)
          = Nat.min (length (raw_values e)) (length (periods layout)) ∧
        (length (values P) ≤ length (periods layout))%nat ∧
        (length (values P) = length (periods layout)
           ↔ (length (periods layout) ≤ length (raw_values e))%nat))
      (getchildren ps) (parameters doc).
Proof.
  unfold Dwml.parse. intros Hp. inv_bind Hp. inv_bind Hp. injection Hp as <-.
  simpl. unfold parse_parameters in Ha0.
  destruct (find_data_parameters tree) as [ps|]; [|done].
  exists ps. split; [done|].
  apply parse_parameter_list_length in Ha0.
  eapply Forall2_impl; [exact Ha0|].
  intros e P (Hk & layout & Hl & Hlen). split; [done|].
  exists layout. split; [done|]. split; [done|]. lia.
Qed.

Lemma C1_values_length_witness :
  ∃ doc ps, Dwml.parse (H := RefEnv.ref_env) short_series_tree = Ok doc ∧
    find_data_parameters short_series_tree = Some ps ∧
    Forall2 (λ e P,
      time_layout_key P = attrib_get (attrib e) "time-layout" ∧
      ∃ layout, time_layouts doc !! time_layout_key P = Some layout ∧
        length (values P)
          = Nat.min (length (raw_values e)) (length (periods layout)) ∧
        (length (values P) ≤ length (periods layout))%nat ∧
        (length (values P) = length (periods layout)
           ↔ (length (periods layout) ≤ length (raw_values e))%nat))
      (getchildren ps) (parameters doc).
Proof.
  assert (Hp : is_ok (Dwml.parse (H := RefEnv.ref_env) short_series_tree) = true)
    by (vm_compute; reflexivity).
  destruct (Dwml.parse (H := RefEnv.ref_env) short_series_tree) as [doc|e] eqn:Hd;
    [|discriminate Hp].
  destruct (C1_values_length (H := RefEnv.ref_env) short_series_tree doc Hd)
    as (ps & Hps & Hall).
  exists doc, ps. split; [reflexivity|]. split; [exact Hps | exact Hall].
Defined.

(** ** Splitting strings *)

Lemma split_no_sep (sep : ascii) (s : string) :
  contains sep s = false → split sep s = [s].
Proof.
  induction s as [|c r IH]; simpl; [done|].
  destruct (Ascii.eqb c sep); simpl; [done|].
  intros Hr. by rewrite (IH Hr).
Qed.

Lemma split_app_sep (sep : ascii) (a r : string) :
  contains sep a = false →
  split sep (a ++ String sep r) = a :: split sep r.
Proof.
  induction a as [|c a IH]; simpl.
  - intros _. by rewrite Ascii.eqb_refl.
  - destruct (Ascii.eqb c sep); simpl; [done|].
    intros Ha. by rewrite (IH Ha).
Qed.

Lemma split_lit_app (sep : ascii) (a c r : string) :
  contains sep a = false → contains sep c = false →
  split sep (a ++ c ++ String sep r) = (a ++ c) :: split sep r.
Proof.
  intros Ha Hc. induction a as [|x a IH]; simpl.
  - by apply split_app_sep.
  - simpl in Ha. destruct (Ascii.eqb x sep); simpl in *; [done|].
    by rewrite (IH Ha).
Qed.

Lemma split_lit_sep (sep : ascii) (a c : string) :
  contains sep a = false →
  split sep (a ++ String sep c) !! 1%nat = head (split sep c).
Proof.
  intros Ha. rewrite split_app_sep by done. simpl.
  by destruct (split sep c).
Qed.

(** ** Weather phrases *)

Lemma split_encoded (c i w r : string) :
  contains "|" c = false → contains "|" i = false → contains "|" w = false →
  split "|" ("|coverage:" ++ c ++ "|intensity:" ++ i ++ "|weather-type:" ++ w
               ++ "|qualifier:" ++ r)
  = "" :: ("coverage:" ++ c) :: ("intensity:" ++ i) :: ("weather-type:" ++ w)
       :: split "|" ("qualifier:" ++ r).
Proof.
  intros Hc Hi Hw.
  change ("|coverage:" ++ c ++ "|intensity:" ++ i ++ "|weather-type:" ++ w
            ++ "|qualifier:" ++ r)
    with ("" ++ String "|" ("coverage:" ++ c ++ String "|" ("intensity:" ++ i
            ++ String "|" ("weather-type:" ++ w ++ String "|" ("qualifier:" ++ r))))).
  rewrite split_app_sep by done.
  by rewrite !split_lit_app by done.
Qed.

Lemma split_label (l x : string) :
  contains ":" l = false → contains ":" x = false →
  split ":" (l ++ String ":" x) !! 1%nat = Some x.
Proof.
  intros Hl Hx. rewrite split_lit_sep by done. by rewrite split_no_sep.
Qed.

Lemma weather_fields_encoded (c i w : string) (q : option string) :
  contains "|" c = false → contains ":" c = false →
  contains "|" i = false → contains ":" i = false →
  contains "|" w = false → contains ":" w = false →
  weather_fields
    (VStr (Dwml.format_weather (Some c) (Some i) (Some w) q))
  = Some (c, if String.eqb i "none" then "" else i, w).
Proof.
  intros Hc1 Hc2 Hi1 Hi2 Hw1 Hw2.
  unfold Dwml.format_weather, weather_fields.
  change (fmt (Some c)) with c. change (fmt (Some i)) with i.
  change (fmt (Some w)) with w.
  rewrite split_encoded by done.
  change ("coverage:" ++ c) with ("coverage" ++ String ":" c).
  change ("intensity:" ++ i) with ("intensity" ++ String ":" i).
  change ("weather-type:" ++ w) with ("weather-type" ++ String ":" w).
  cbn [lookup list_lookup mbind option_bind].
  rewrite !split_label by done. reflexivity.
Qed.

Lemma weather_phrase_by_category (c i w : string) :
  phrase_by_category c i w
    (weather_phrase c (if String.eqb i "none" then "" else i) w).
Proof.
  unfold phrase_by_category, weather_phrase.
  destruct (String.eqb_spec c "likely") as [-> | H1];
    [by repeat split; try done; intros [|] | ].
  destruct (String.eqb_spec c "chance") as [-> | H2];
    [by repeat split; try done; intros [|] | ].
  destruct (String.eqb_spec c "slight chance") as [-> | H3];
    [by repeat split; try done; intros [|] | ].
  destruct (String.eqb_spec c "definitely") as [-> | H4];
    [by repeat split; try done; intros [|] | ].
  simpl. repeat split; try done. by intros [|].
Qed.

Lemma format_weather_too_short (line : string) :
  (length (split "|" line) < 4)%nat → _format_weather (VStr line) = "".
Proof.
  unfold _format_weather, weather_fields. intros Hlen.
  destruct (split "|" line) as [|e0 [|e1 [|e2 [|e3 rest]]]]; simpl in *;
    try done; lia.
Qed.

Lemma format_weather_no_colon (line seg : string) (k : nat) :
  (1 ≤ k ≤ 3)%nat → split "|" line !! k = Some seg → contains ":" seg = false →
  _format_weather (VStr line) = "".
Proof.
  unfold _format_weather, weather_fields. intros Hk Hseg Hc.
  destruct (split "|" line !! 1%nat) as [e1|] eqn:H1; [|done].
  destruct (split "|" line !! 2%nat) as [e2|] eqn:H2; [|done].
  destruct (split "|" line !! 3%nat) as [e3|] eqn:H3; [|done].
  cbn [mbind option_bind].
  assert (k = 1 ∨ k = 2 ∨ k = 3)%nat as [-> | [-> | ->]] by lia.
  - assert (e1 = seg) as -> by congruence.
    rewrite (split_no_sep _ seg) by done. reflexivity.
  - assert (e2 = seg) as -> by congruence.
    rewrite (split_no_sep _ seg) by done.
    destruct (split ":" e1 !! 1%nat); reflexivity.
  - assert (e3 = seg) as -> by congruence.
    rewrite (split_no_sep _ seg) by done.
    destruct (split ":" e1 !! 1%nat); [|reflexivity].
    destruct (split ":" e2 !! 1%nat); reflexivity.
Qed.

Lemma format_weather_parsed (line e0 ce ie we cl c il i wl w : string)
    (rest crest irest wrest : list string) :
  split "|" line = e0 :: ce :: ie :: we :: rest →
  split ":" ce = cl :: c :: crest →
  split ":" ie = il :: i :: irest →
  split ":" we = wl :: w :: wrest →
  phrase_by_category c i w (_format_weather (VStr line)).
Proof.
  intros Hl Hc Hi Hw. unfold _format_weather, weather_fields.
  rewrite Hl. cbn [lookup list_lookup mbind option_bind].
  rewrite Hc, Hi, Hw. cbn [lookup list_lookup mbind option_bind].
  apply weather_phrase_by_category.
Qed.

(** C7: decoding a weather value never fails: a value that is not text,
    has fewer than four pipe-delimited segments, or has no colon in its
    coverage, intensity or weather-type segment gives the empty string, and
    every other value gives the phrase of its coverage category, with an
    intensity ["none"] replaced by the empty string.  In particular the
    values the parser encodes are decoded that way. *)
Theorem C7_format_weather :
  (∀ v, (∀ line, v ≠ VStr line) → _format_weather v = "") ∧
  (∀ line, (length (split "|" line) < 4)%nat → _format_weather (VStr line) = "") ∧
  (∀ line seg k, (1 ≤ k ≤ 3)%nat → split "|" line !! k = Some seg →
     contains ":" seg = false → _format_weather (VStr line) = "") ∧
  (∀ line e0 ce ie we cl c il i wl w rest crest irest wrest,
     split "|" line = e0 :: ce :: ie :: we :: rest →
     split ":" ce = cl :: c :: crest →
     split ":" ie = il :: i :: irest →
     split ":" we = wl :: w :: wrest →
     phrase_by_category c i w (_format_weather (VStr line))) ∧
  (∀ c i w q,
     contains "|" c = false → contains ":" c = false →
     contains "|" i = false → contains ":" i = false →
     contains "|" w = false → contains ":" w = false →
     phrase_by_category c i w
       (_format_weather (VStr (Dwml.format_weather (Some c) (Some i) (Some w) q)))) ∧
  _format_weather
    (VStr "|coverage:chance|intensity:light|weather-type:rain|qualifier:none")
    = "chance of light rain" ∧
  _format_weather
    (VStr "|coverage:likely|intensity:none|weather-type:snow|qualifier:none")
    = " snow likely".
Proof.
  split; [|split; [|split; [|split; [|split; [|split]]]]].
  - intros v Hv. destruct v as [|line| |]; try done. by destruct (Hv line).
  - apply format_weather_too_short.
  - intros line seg k. apply format_weather_no_colon.
  - intros line e0 ce ie we cl c il i wl w rest crest irest wrest.
    apply format_weather_parsed.
  - intros c i w q Hc1 Hc2 Hi1 Hi2 Hw1 Hw2. unfold _format_weather.
    rewrite weather_fields_encoded by done.
    apply weather_phrase_by_category.
  - reflexivity.
  - reflexivity.
Qed.

Lemma C7_format_weather_witness :
  phrase_by_category "slight chance" "heavy" "snow showers"
    (_format_weather
       (VStr (Dwml.format_weather (Some "slight chance") (Some "heavy")
                                  (Some "snow showers") (Some "none"))))
  ∧ _format_weather (VStr "|coverage:likely|intensity:none") = "".
Proof.
  split.
  - apply (proj1 (proj2 (proj2 (proj2 (proj2 C7_format_weather)))));
      reflexivity.
  - apply (proj1 (proj2 C7_format_weather)). vm_compute. lia.
Defined.

(** ** The most frequent value *)

Section MostFrequentFacts.
Context {A : Type} (eqb : A → A → bool).
Hypothesis eqb_spec : ∀ x y, eqb x y = true ↔ x = y.
Local Open Scope list_scope.
Local Abbreviation occurrences := (occurrences eqb).
Local Abbreviation first_occurrences := (first_occurrences eqb).
Local Abbreviation mem := (mem eqb).

Lemma eqb_refl x : eqb x x = true.
Proof. by apply eqb_spec. Qed.

Lemma eqb_false x y : eqb x y = false ↔ x ≠ y.
Proof.
  split.
  - intros Hf Heq. apply eqb_spec in Heq. congruence.
  - intros Hne. destruct (eqb x y) eqn:He; [|done].
    by apply eqb_spec in He.
Qed.

Lemma eqb_comm x y : eqb x y = eqb y x.
Proof.
  destruct (eqb y x) eqn:He.
  - apply eqb_spec in He as ->. apply eqb_refl.
  - apply eqb_false in He. apply eqb_false. congruence.
Qed.

Lemma mem_spec x l : mem x l = true ↔ x ∈ l.
Proof.
  unfold mem. induction l as [|y l IH]; simpl.
  - split; [done|]. by intros ?%elem_of_nil.
  - rewrite elem_of_cons, orb_true_iff, IH, eqb_spec.
    split; (intros [Hx|Hx]; [left | right]); congruence.
Qed.

Lemma mem_false x l : mem x l = false ↔ x ∉ l.
Proof.
  rewrite <- mem_spec. destruct (mem x l); split; congruence.
Qed.

Lemma occurrences_app x l1 l2 :
  occurrences x (l1 ++ l2) = (occurrences x l1 + occurrences x l2)%nat.
Proof. induction l1 as [|y l1 IH]; simpl; [done|]. rewrite IH. lia. Qed.

Lemma occurrences_not_in x l : x ∉ l → occurrences x l = 0%nat.
Proof.
  induction l as [|y l IH]; simpl; [done|].
  rewrite not_elem_of_cons. intros [Hne Hl].
  rewrite IH by done. by rewrite (proj2 (eqb_false y x)).
Qed.

Lemma filter_ne_elem_of x y l :
  y ∈ List.filter (λ z, negb (eqb x z)) l ↔ y ∈ l ∧ x ≠ y.
Proof.
  rewrite !list_elem_of_In, filter_In, negb_true_iff, eqb_false. done.
Qed.

Lemma first_occurrences_elem_of x l : x ∈ first_occurrences l ↔ x ∈ l.
Proof.
  induction l as [|y l IH]; simpl; [done|].
  rewrite !elem_of_cons, filter_ne_elem_of, IH.
  destruct (eqb y x) eqn:He.
  - apply eqb_spec in He. split; [|intros _]; left; congruence.
  - apply eqb_false in He. split.
    + intros [Hx|[Hx _]]; [left | right]; done.
    + intros [Hx|Hx]; [left | right]; [done|]. split; [done|]. congruence.
Qed.

Lemma first_occurrences_NoDup l : NoDup (first_occurrences l).
Proof.
  induction l as [|y l IH]; simpl; [constructor|].
  constructor.
  - rewrite filter_ne_elem_of. by intros [_ Hy].
  - apply NoDup_ListNoDup, List.NoDup_filter, NoDup_ListNoDup, IH.
Qed.

Lemma first_occurrences_snoc l x :
  first_occurrences (l ++ [x])
  = first_occurrences l ++ (if mem x l then [] else [x]).
Proof.
  induction l as [|y l IH]; simpl; [done|].
  rewrite IH, List.filter_app. f_equal.
  destruct (mem x l) eqn:Hm; simpl.
  - by rewrite orb_true_r.
  - rewrite orb_false_r. by destruct (eqb y x).
Qed.

(** Incrementing the count of [x] in a table with distinct keys. *)
Lemma count_incr_map (f : A → nat) (ks : list A) (x : A) :
  NoDup ks →
  count_incr eqb (List.map (λ k, (k, f k)) ks) x
  = List.map (λ k, (k, if eqb k x then S (f k) else f k)) ks
    ++ (if mem x ks then [] else [(x, 1%nat)]).
Proof.
  induction ks as [|k ks IH]; simpl; [done|].
  intros [Hk Hks]%NoDup_cons.
  destruct (eqb k x) eqn:He; simpl.
  - apply eqb_spec in He as ->. rewrite app_nil_r. f_equal.
    apply map_ext_in. intros k' Hk'%list_elem_of_In.
    assert (k' ≠ x) as Hne%eqb_false by (by intros ->). by rewrite Hne.
  - by rewrite IH.
Qed.

Lemma count_table_snoc (l : list A) (x : A) :
  count_table eqb (l ++ [x]) = count_incr eqb (count_table eqb l) x.
Proof. unfold count_table. by rewrite foldl_app. Qed.

(** The frequency table pairs every distinct value, in first-encounter
    order, with its number of occurrences. *)
Lemma count_table_spec (l : list A) :
  count_table eqb l
  = List.map (λ k, (k, occurrences k l)) (first_occurrences l).
Proof.
  induction l as [|x l IH] using rev_ind; [done|].
  rewrite count_table_snoc, IH, count_incr_map by apply first_occurrences_NoDup.
  rewrite first_occurrences_snoc, List.map_app.
  assert (mem x (first_occurrences l) = mem x l) as ->.
  { destruct (mem x l) eqn:Hm.
    - apply mem_spec, first_occurrences_elem_of, mem_spec, Hm.
    - apply mem_false. rewrite first_occurrences_elem_of. by apply mem_false. }
  f_equal.
  - apply map_ext. intros k. f_equal. rewrite occurrences_app. simpl.
    rewrite (eqb_comm x k). destruct (eqb k x); lia.
  - destruct (mem x l) eqn:Hm; simpl; [done|].
    rewrite occurrences_app. simpl. rewrite eqb_refl.
    apply mem_false in Hm. by rewrite occurrences_not_in.
Qed.

(** The scan of the table stops on the first entry that holds the
    greatest count. *)
Lemma frequent_fold (t : list (A * nat)) (o : option A) (m : nat) :
  (Forall (λ kv, kv.2 ≤ m)%nat t ∧ foldl frequent_step (o, m) t = (o, m))
  ∨ (∃ pre k n post,
       t = pre ++ (k, n) :: post ∧
       foldl frequent_step (o, m) t = (Some k, n) ∧
       (m < n)%nat ∧
       Forall (λ kv, kv.2 < n)%nat pre ∧
       Forall (λ kv, kv.2 ≤ n)%nat post).
Proof.
  revert o m. induction t as [|[k n] t IH]; intros o m; simpl.
  - left. by split.
  - change (frequent_step (o, m) (k, n))
      with (if (m <? n)%nat then (Some k, n) else (o, m)).
    destruct (Nat.ltb_spec m n) as [Hlt|Hge].
    + right. destruct (IH (Some k) n) as [[Hall Hf]|(pre & k' & n' & post & -> & Hf & Hn & Hpre & Hpost)].
      * exists [], k, n, t. by repeat split.
      * exists ((k, n) :: pre), k', n', post. repeat split; try done; [lia|].
        constructor; [simpl; lia | done].
    + destruct (IH o m) as [[Hall Hf]|(pre & k' & n' & post & -> & Hf & Hn & Hpre & Hpost)].
      * left. split; [|done]. constructor; [simpl; lia | done].
      * right. exists ((k, n) :: pre), k', n', post. repeat split; try done.
        constructor; [simpl; lia | done].
Qed.

Lemma most_frequent_first_max (values : list A) :
  values ≠ [] →
  ∃ x pre post,
    _most_frequent eqb values = Ok x ∧
    first_occurrences values = pre ++ x :: post ∧
    (∀ y, y ∈ pre → occurrences y values < occurrences x values)%nat ∧
    (∀ y, y ∈ post → occurrences y values ≤ occurrences x values)%nat.
Proof.
  intros Hne. unfold _most_frequent.
  destruct (frequent_fold (count_table eqb values) (last values) 0)
    as [[Hall Hf]|(pre & k & n & post & Ht & Hf & Hn & Hpre & Hpost)].
  - destruct values as [|v values]; [done|].
    rewrite count_table_spec in Hall. simpl in Hall.
    apply Forall_cons in Hall as [Hv _]. simpl in Hv.
    rewrite eqb_refl in Hv. lia.
  - rewrite Hf. simpl. rewrite count_table_spec in Ht.
    apply map_eq_app in Ht as (pre' & rest & Hfo & Hpre' & Hrest).
    destruct rest as [|k' post']; [done|]. simpl in Hrest.
    injection Hrest as -> <- Hpost'.
    exists k, pre', post'. split; [done|]. split; [done|]. split.
    + intros y Hy. rewrite <- Hpre' in Hpre.
      rewrite Forall_forall in Hpre.
      apply (Hpre (y, occurrences y values)).
      apply list_elem_of_In, in_map_iff. exists y. by rewrite <- list_elem_of_In.
    + intros y Hy. rewrite <- Hpost' in Hpost.
      rewrite Forall_forall in Hpost.
      apply (Hpost (y, occurrences y values)).
      apply list_elem_of_In, in_map_iff. exists y. by rewrite <- list_elem_of_In.
Qed.

Lemma most_frequent_tie (a b : A) :
  a ≠ b → _most_frequent eqb [a; b; a; b] = Ok a.
Proof.
  intros Hab. unfold _most_frequent, count_table. simpl.
  assert (eqb a b = false) as Hf by (by apply eqb_false).
  rewrite Hf. simpl. rewrite eqb_refl. simpl. rewrite Hf, eqb_refl.
  reflexivity.
Qed.

End MostFrequentFacts.

(** C8: for a non-empty list the frequency table lists the distinct values
    in first-encounter order with their numbers of occurrences, and
    [_most_frequent] returns the first key of that table whose count is the
    greatest: every key before it occurs strictly less often, every key after
    it at most as often.  With equal counts, [a; b; a; b] gives [a]. *)
Theorem C8_most_frequent {A : Type} (eqb : A → A → bool) (values : list A) :
  (∀ x y, eqb x y = true ↔ x = y) →
  values ≠ [] →
  count_table eqb values
    = List.map (λ k, (k, occurrences eqb k values)) (first_occurrences eqb values) ∧
  (∃ x pre post,
     _most_frequent eqb values = Ok x ∧
     first_occurrences eqb values = (pre ++ x :: post)%list ∧
     (∀ y, y ∈ pre → occurrences eqb y values < occurrences eqb x values)%nat ∧
     (∀ y, y ∈ post → occurrences eqb y values ≤ occurrences eqb x values)%nat ∧
     x ∈ values ∧
     (∀ y, occurrences eqb y values ≤ occurrences eqb x values)%nat) ∧
  (∀ a b, a ≠ b → _most_frequent eqb [a; b; a; b] = Ok a).
Proof.
  intros Heqb Hne. split; [by apply count_table_spec|]. split.
  - destruct (most_frequent_first_max eqb Heqb values Hne)
      as (x & pre & post & Hx & Hfo & Hpre & Hpost).
    exists x, pre, post. repeat split; try done.
    + apply (first_occurrences_elem_of eqb Heqb). rewrite Hfo.
      apply elem_of_app. right. apply elem_of_cons. by left.
    + intros y. destruct (mem eqb y values) eqn:Hm.
      * apply (mem_spec eqb Heqb), (first_occurrences_elem_of eqb Heqb) in Hm.
        rewrite Hfo in Hm.
        apply elem_of_app in Hm as [Hy|[->|Hy]%elem_of_cons].
        -- specialize (Hpre y Hy). lia.
        -- lia.
        -- by apply Hpost.
      * apply (mem_false eqb Heqb) in Hm.
        rewrite (occurrences_not_in eqb Heqb y values Hm). lia.
  - intros a b. by apply most_frequent_tie.
Qed.

Lemma C8_most_frequent_witness :
  _most_frequent String.eqb ["A"; "B"; "A"; "B"] = Ok "A".
Proof.
  apply (C8_most_frequent String.eqb ["A"; "B"; "A"; "B"] String.eqb_eq);
    discriminate.
Defined.

(** ** Hourly post-processing as one pass over the time slots *)

Section Pass.
Context `{PyEnv}.
Local Open Scope list_scope.

Lemma run_slots_app c l1 l2 c2 posts :
  run_slots c (l1 ++ l2) = Ok (c2, posts) ↔
  ∃ c1 p1 p2, run_slots c l1 = Ok (c1, p1) ∧ run_slots c1 l2 = Ok (c2, p2)
              ∧ posts = p1 ++ p2.
Proof.
  revert c posts. induction l1 as [|s l1 IH]; intros c posts; simpl.
  - split.
    + intros Hr. by exists c, [], posts.
    + by intros (c1 & p1 & p2 & [= <- <-] & Hr & ->).
  - destruct (cleanup_slot c s) as [[c' s']|e]; simpl.
    + split.
      * intros Hr. inv_bind Hr. destruct a as [c3 rest']. injection Hr as <- <-.
        apply IH in Ha as (c1 & p1 & p2 & H1 & H2 & ->).
        exists c1, (s' :: p1), p2. rewrite H1. by simpl.
      * intros (c1 & p1 & p2 & H1 & H2 & ->). inv_bind H1.
        destruct a as [c3 rest']. injection H1 as <- <-.
        assert (run_slots c' (l1 ++ l2) = Ok (c2, rest' ++ p2)) as ->;
          [|reflexivity].
        apply IH. by exists c3, rest', p2.
    + split; [done|]. by intros (c1 & p1 & p2 & [=] & _).
Qed.

Lemma run_slots_length c l c' posts :
  run_slots c l = Ok (c', posts) → length posts = length l.
Proof.
  revert c posts. induction l as [|s l IH]; intros c posts; simpl.
  - by intros [= <- <-].
  - intros Hr. inv_bind Hr. destruct a as [c1 s']. inv_bind Hr.
    destruct a as [c2 rest']. injection Hr as <- <-. simpl. f_equal. eauto.
Qed.

(** The slot at position [i] is processed with the carry left by the
    slots before it. *)
Lemma run_slots_lookup c l c' posts i s :
  run_slots c l = Ok (c', posts) → l !! i = Some s →
  ∃ ci ci' s',
    run_slots c (take i l) = Ok (ci, take i posts) ∧
    cleanup_slot ci s = Ok (ci', s') ∧
    posts !! i = Some s'.
Proof.
  intros Hr Hi.
  rewrite <- (take_drop_middle l i s Hi) in Hr.
  apply run_slots_app in Hr as (c1 & p1 & p2 & H1 & H2 & ->).
  simpl in H2. inv_bind H2. destruct a as [ci' s']. inv_bind H2.
  destruct a as [c2 rest']. injection H2 as <- <-.
  apply run_slots_length in H1 as Hlen.
  rewrite length_take_le in Hlen by (apply lookup_lt_Some in Hi; lia).
  exists c1, ci', s'. split; [|split; [done|]].
  - by rewrite take_app_length' by done.
  - rewrite lookup_app_r by lia. by rewrite Hlen, Nat.sub_diag.
Qed.

(** One date: the loop over its sorted times. *)
Lemma cleanup_times_run c (m : gmap string (gmap string pyval)) ts c' m' :
  NoDup ts → (∀ t, t ∈ ts → is_Some (m !! t)) →
  cleanup_times c m ts = Ok (c', m') →
  ∃ posts,
    run_slots c (List.map (λ t, default ∅ (m !! t)) ts) = Ok (c', posts) ∧
    (∀ t, t ∉ ts → m' !! t = m !! t) ∧
    (∀ i t, ts !! i = Some t →
       ∃ s', posts !! i = Some s' ∧
             m' !! t = if has_temp s' then Some s' else None).
Proof.
  revert c m. induction ts as [|t ts IH]; intros c m Hnd Hin; simpl.
  - intros [= <- <-]. exists []. split; [done|]. split; [done|]. by intros i t.
  - apply NoDup_cons in Hnd as [Ht Hnd].
    destruct (Hin t) as [s Hs]; [by left|]. rewrite Hs. simpl.
    intros Hc. inv_bind Hc. destruct a as [c1 s'].
    set (m1 := if has_temp s' then <[t := s']> m else delete t m) in *.
    assert (Hother : ∀ t', t' ≠ t → m1 !! t' = m !! t').
    { intros t' Hne. unfold m1. destruct (has_temp s').
      - by rewrite lookup_insert_ne.
      - by rewrite lookup_delete_ne. }
    assert (Hsame : m1 !! t = if has_temp s' then Some s' else None).
    { unfold m1. destruct (has_temp s').
      - by rewrite lookup_insert_eq.
      - by rewrite lookup_delete_eq. }
    destruct (IH c1 m1 Hnd) as (posts & Hrun & Hout & Hidx); [|exact Hc|].
    { intros t' Ht'. rewrite Hother; [apply Hin; by right|].
      intros ->. done. }
    exists (s' :: posts). split; [|split].
    + rewrite Ha. simpl.
      assert (List.map (λ t0, default ∅ (m !! t0)) ts
              = List.map (λ t0, default ∅ (m1 !! t0)) ts) as ->.
      { apply map_ext_in. intros t' Ht'%list_elem_of_In.
        rewrite Hother; [done|]. by intros ->. }
      by rewrite Hrun.
    + intros t' [Hne Ht']%not_elem_of_cons. rewrite Hout by done. by apply Hother.
    + intros [|i] t'; simpl.
      * intros [= <-]. exists s'. split; [done|]. by rewrite Hout.
      * intros Hi. apply Hidx. exact Hi.
Qed.

Lemma sort_strings_perm (l : list string) : sort_strings l ≡ₚ l.
Proof. apply merge_sort_Permutation. Qed.

Lemma sorted_keys_NoDup {V} (m : gmap string V) :
  NoDup (sort_strings (elements (dom m))).
Proof. rewrite sort_strings_perm. apply NoDup_elements. Qed.

Lemma sorted_keys_elem_of {V} (m : gmap string V) (k : string) :
  k ∈ sort_strings (elements (dom m)) ↔ is_Some (m !! k).
Proof. by rewrite sort_strings_perm, elem_of_elements, elem_of_dom. Qed.

Lemma visits_of_date_slots d (slots : gmap string (gmap string pyval)) :
  List.map (λ v, v.2) (visits_of_date d slots)
  = List.map (λ t, default ∅ (slots !! t)) (sort_strings (elements (dom slots))).
Proof. unfold visits_of_date. rewrite List.map_map. done. Qed.

Lemma visits_of_date_lookup d (slots : gmap string (gmap string pyval)) i d' t s :
  visits_of_date d slots !! i = Some (d', t, s) ↔
  d' = d ∧ sort_strings (elements (dom slots)) !! i = Some t ∧ slots !! t = Some s.
Proof.
  unfold visits_of_date. change List.map with (@fmap list _) at 1.
  rewrite list_lookup_fmap.
  destruct (sort_strings (elements (dom slots)) !! i) as [t0|] eqn:Hi; simpl.
  - assert (is_Some (slots !! t0)) as [s0 Hs0].
    { apply sorted_keys_elem_of. by eapply list_elem_of_lookup_2. }
    rewrite Hs0. simpl. split.
    + by intros [= <- <- <-].
    + intros (-> & [= <-] & Hs). congruence.
  - split; [done|]. by intros (_ & [=] & _).
Qed.

Lemma visits_in_ext (h h' : gmap string (gmap string (gmap string pyval))) ds :
  (∀ d, d ∈ ds → h' !! d = h !! d) → visits_in h' ds = visits_in h ds.
Proof.
  intros Heq. unfold visits_in. induction ds as [|d ds IH]; simpl; [done|].
  rewrite Heq by (by left). f_equal. apply IH. intros d' Hd'. apply Heq. by right.
Qed.

(** All dates: the pass over the dates is the pass over their slots. *)
Lemma cleanup_dates_run c (h : gmap string (gmap string (gmap string pyval)))
    ds c' h' :
  NoDup ds → (∀ d, d ∈ ds → is_Some (h !! d)) →
  cleanup_dates c h ds = Ok (c', h') →
  ∃ posts,
    run_slots c (List.map (λ v, v.2) (visits_in h ds)) = Ok (c', posts) ∧
    (∀ d, d ∉ ds → h' !! d = h !! d) ∧
    (∀ d, d ∈ ds → is_Some (h' !! d)) ∧
    (∀ i d t s, visits_in h ds !! i = Some (d, t, s) →
       ∃ s', posts !! i = Some s' ∧
             slot_at h' d t = if has_temp s' then Some s' else None) ∧
    (∀ d t s', d ∈ ds → slot_at h' d t = Some s' →
       ∃ i s, visits_in h ds !! i = Some (d, t, s)).
Proof.
  revert c h. induction ds as [|d ds IH]; intros c h Hnd Hin; simpl.
  - intros [= <- <-]. exists []. split; [done|]. split; [done|].
    split; [by intros d ?%elem_of_nil|].
    split; [by intros i d t s | by intros d t s' ?%elem_of_nil].
  - apply NoDup_cons in Hnd as [Hd Hnd].
    destruct (Hin d) as [tm Htm]; [by left|]. rewrite Htm. simpl.
    intros Hc. inv_bind Hc. destruct a as [c1 tm1].
    destruct (cleanup_times_run c tm _ c1 tm1 (sorted_keys_NoDup tm)
                (λ t, proj1 (sorted_keys_elem_of tm t)) Ha)
      as (p1 & Hrun1 & Hout1 & Hidx1).
    set (h1 := <[d := tm1]> h) in *.
    assert (Hrest : ∀ d', d' ∈ ds → h1 !! d' = h !! d').
    { intros d' Hd'. unfold h1. rewrite lookup_insert_ne; [done|].
      by intros ->. }
    destruct (IH c1 h1 Hnd) as (p2 & Hrun2 & Hout2 & Hsome2 & Hidx2 & Hback2);
      [|exact Hc|].
    { intros d' Hd'. rewrite Hrest by done. apply Hin. by right. }
    rewrite (visits_in_ext h h1 ds Hrest) in Hrun2, Hidx2, Hback2.
    assert (Hd1 : h' !! d = Some tm1).
    { rewrite Hout2 by done. unfold h1. by rewrite lookup_insert_eq. }
    assert (Hlen1 : length p1 = length (visits_of_date d tm)).
    { apply run_slots_length in Hrun1. rewrite Hrun1, length_map.
      unfold visits_of_date. by rewrite length_map. }
    exists (p1 ++ p2). split; [|split; [|split; [|split]]].
    + rewrite List.map_app. apply run_slots_app. exists c1, p1, p2.
      by rewrite visits_of_date_slots.
    + intros d' [Hne Hd']%not_elem_of_cons. rewrite Hout2 by done.
      unfold h1. by rewrite lookup_insert_ne.
    + intros d' [->|Hd']%elem_of_cons; [by rewrite Hd1 | by apply Hsome2].
    + intros i d' t s Hi.
      apply lookup_app_Some in Hi as [Hi|[Hge Hi]].
      * apply visits_of_date_lookup in Hi as (-> & Hi & Hs).
        destruct (Hidx1 i t Hi) as (s' & Hp & Hm).
        exists s'. split; [by apply lookup_app_l_Some|].
        unfold slot_at. rewrite Hd1. simpl. exact Hm.
      * destruct (Hidx2 _ d' t s Hi) as (s' & Hp & Hm).
        exists s'. split; [|done].
        rewrite lookup_app_r by lia. by rewrite Hlen1.
    + intros d' t s' [->|Hd']%elem_of_cons Hs.
      * unfold slot_at in Hs. rewrite Hd1 in Hs. simpl in Hs.
        destruct (decide (t ∈ sort_strings (elements (dom tm)))) as [Ht|Ht].
        -- apply list_elem_of_lookup in Ht as [i Hi].
           destruct (proj1 (sorted_keys_elem_of tm t)) as [s Hts];
             [by eapply list_elem_of_lookup_2|].
           exists i, s. apply lookup_app_l_Some.
           by apply visits_of_date_lookup.
        -- rewrite Hout1 in Hs by done.
           destruct Ht. apply sorted_keys_elem_of. by exists s'.
      * destruct (Hback2 d' t s' Hd' Hs) as (i & s & Hi).
        exists (length (visits_of_date d tm) + i)%nat, s.
        rewrite lookup_app_r by lia.
        by replace (length (visits_of_date d tm) + i - length (visits_of_date d tm))%nat
          with i by lia.
Qed.

(** [_cleanup] is the pass over all slots in visiting order: a slot
    survives, as the loop body left it, exactly when it has a [temp]. *)
Lemma cleanup_run (data data' : forecast_data) :
  _cleanup data = Ok data' →
  daily data' = daily data ∧
  (∀ d, is_Some (hourly data' !! d) ↔ is_Some (hourly data !! d)) ∧
  ∃ c' posts,
    run_slots carry0 (List.map (λ v, v.2) (visits (hourly data))) = Ok (c', posts) ∧
    (∀ i d t s, visits (hourly data) !! i = Some (d, t, s) →
       ∃ s', posts !! i = Some s' ∧
             slot_at (hourly data') d t = if has_temp s' then Some s' else None) ∧
    (∀ d t s', slot_at (hourly data') d t = Some s' →
       ∃ i s, visits (hourly data) !! i = Some (d, t, s)).
Proof.
  unfold _cleanup. intros Hc. inv_bind Hc. destruct a as [c' h'].
  injection Hc as <-. simpl. split; [done|].
  destruct (cleanup_dates_run carry0 (hourly data) _ c' h'
              (sorted_keys_NoDup (hourly data))
              (λ d, proj1 (sorted_keys_elem_of (hourly data) d)) Ha)
    as (posts & Hrun & Hout & Hsome & Hidx & Hback).
  split.
  { intros d.
    destruct (decide (d ∈ sort_strings (elements (dom (hourly data))))) as [Hd|Hd].
    - split; intros _; [by apply sorted_keys_elem_of | by apply Hsome].
    - by rewrite Hout. }
  exists c', posts. split; [done|]. split; [done|].
  intros d t s' Hs.
  destruct (decide (d ∈ sort_strings (elements (dom (hourly data))))) as [Hd|Hd].
  - by apply (Hback d t s').
  - unfold slot_at in Hs. rewrite Hout in Hs by done.
    destruct (hourly data !! d) as [tm|] eqn:Htm; [|done].
    destruct Hd. apply sorted_keys_elem_of. by exists tm.
Qed.

(** *** The loop body *)

Lemma carry_precip_spec (tmp : pyval) (slot : gmap string pyval) :
  let cur := default VNone (slot !! "precip") in
  (carry_precip tmp slot).1 = (if truthy cur then cur else tmp) ∧
  (carry_precip tmp slot).2 !! "precip"
    = (if truthy cur then slot !! "precip"
       else if truthy tmp then Some tmp else slot !! "precip") ∧
  (∀ k, k ≠ "precip" → (carry_precip tmp slot).2 !! k = slot !! k).
Proof.
  unfold carry_precip. simpl.
  destruct (truthy (default VNone (slot !! "precip"))), (truthy tmp); simpl;
    repeat split; try done.
  - by rewrite lookup_insert_eq.
  - intros k Hk. by rewrite lookup_insert_ne.
Qed.

Lemma carry_amount_spec (field : string) (average : pyval)
    (slot : gmap string pyval) (average' : pyval) (slot' : gmap string pyval) :
  carry_amount field average slot = Ok (average', slot') →
  let cur := default VNone (slot !! field) in
  (if truthy cur
   then ∃ f, py_float cur = Ok f ∧
             average' = VFloat (round_float (f / 2)%float 2) ∧
             slot' !! field = Some average'
   else average' = VInt 0 ∧
        slot' !! field = if ne_zero average then Some average else slot !! field) ∧
  (∀ k, k ≠ field → slot' !! k = slot !! k).
Proof.
  unfold carry_amount. simpl.
  destruct (truthy (default VNone (slot !! field))).
  - intros Hc. inv_bind Hc. injection Hc as <- <-. split.
    + exists a. by rewrite lookup_insert_eq.
    + intros k Hk. by rewrite lookup_insert_ne.
  - intros [= <- <-]. destruct (ne_zero average); split; try done.
    + by rewrite lookup_insert_eq.
    + intros k Hk. by rewrite lookup_insert_ne.
Qed.

(** What one slot does to the carry and to itself. *)
Lemma cleanup_slot_spec (c c' : carry) (s s' : gmap string pyval) :
  cleanup_slot c s = Ok (c', s') →
  let cur := default VNone (s !! "precip") in
  tmpPrecip c' = (if truthy cur then cur else tmpPrecip c) ∧
  s' !! "precip"
    = (if truthy cur then s !! "precip"
       else if truthy (tmpPrecip c) then Some (tmpPrecip c) else s !! "precip") ∧
  amount_spec "rain_amount" (averageRain c) s (averageRain c') s' ∧
  amount_spec "snow_amount" (averageSnow c) s (averageSnow c') s' ∧
  (∀ k, k ≠ "precip" → k ≠ "rain_amount" → k ≠ "snow_amount" →
        s' !! k = s !! k).
Proof.
  unfold cleanup_slot.
  destruct (carry_precip_spec (tmpPrecip c) s) as (Htmp & Hp & Hk1).
  destruct (carry_precip (tmpPrecip c) s) as [tmp s1]. simpl in Htmp, Hp, Hk1.
  intros Hc. inv_bind Hc. destruct a as [rain s2]. inv_bind Hc.
  destruct a as [snow s3]. injection Hc as <- <-. simpl.
  apply carry_amount_spec in Ha as [Hr Hk2].
  apply carry_amount_spec in Ha0 as [Hs Hk3].
  simpl in Hr, Hs.
  rewrite (Hk2 "snow_amount"), (Hk1 "snow_amount") in Hs by done.
  rewrite (Hk1 "rain_amount") in Hr by done.
  split; [done|]. split; [|split; [|split]].
  - by rewrite (Hk3 "precip"), (Hk2 "precip").
  - unfold amount_spec. rewrite (Hk3 "rain_amount") by done. exact Hr.
  - exact Hs.
  - intros k H1 H2 H3. by rewrite Hk3, Hk2, Hk1.
Qed.

Lemma cleanup_slot_has_temp (c c' : carry) (s s' : gmap string pyval) :
  cleanup_slot c s = Ok (c', s') → has_temp s' = has_temp s.
Proof.
  intros (_ & _ & _ & _ & Hk)%cleanup_slot_spec. unfold has_temp.
  by rewrite Hk.
Qed.

(** *** The carry along the pass *)

Lemma seen_precips_cons (s : gmap string pyval) (l : list (gmap string pyval)) :
  seen_precips (s :: l)
  = (if truthy (default VNone (s !! "precip"))
     then [default VNone (s !! "precip")] else []) ++ seen_precips l.
Proof.
  unfold seen_precips. simpl. destruct (s !! "precip") as [v|]; simpl; [|done].
  rewrite filter_cons. by destruct (truthy v).
Qed.

Lemma run_slots_tmpPrecip c l c' posts :
  run_slots c l = Ok (c', posts) →
  tmpPrecip c' = default (tmpPrecip c) (last (seen_precips l)).
Proof.
  revert c posts. induction l as [|s l IH]; intros c posts; simpl.
  - by intros [= <- <-].
  - intros Hr. inv_bind Hr. destruct a as [c1 s']. inv_bind Hr.
    destruct a as [c2 rest']. injection Hr as <- <-.
    apply IH in Ha0. apply cleanup_slot_spec in Ha as (Htmp & _).
    rewrite Ha0, Htmp, seen_precips_cons.
    destruct (truthy (default VNone (s !! "precip"))); simpl; [|done].
    rewrite last_cons. by destruct (last (seen_precips l)).
Qed.

Lemma run_slots_amount_left c l c' posts :
  run_slots c l = Ok (c', posts) → l ≠ [] →
  amount_left "rain_amount" l = Ok (averageRain c') ∧
  amount_left "snow_amount" l = Ok (averageSnow c').
Proof.
  destruct l as [|s l _] using rev_ind; [done|]. intros Hr _.
  apply run_slots_app in Hr as (c1 & p1 & p2 & _ & Hr & _).
  simpl in Hr. inv_bind Hr. destruct a as [c2 s']. injection Hr as <- _.
  apply cleanup_slot_spec in Ha as (_ & _ & Hrain & Hsnow & _).
  unfold amount_left. rewrite last_snoc. unfold amount_spec in Hrain, Hsnow.
  simpl in *. split.
  - destruct (truthy (default VNone (s !! "rain_amount"))).
    + destruct Hrain as (f & -> & -> & _). done.
    + by destruct Hrain as [-> _].
  - destruct (truthy (default VNone (s !! "snow_amount"))).
    + destruct Hsnow as (f & -> & -> & _). done.
    + by destruct Hsnow as [-> _].
Qed.

Lemma run_slots_carry l c' posts :
  run_slots carry0 l = Ok (c', posts) →
  tmpPrecip c' = default VNone (last (seen_precips l)) ∧
  amount_left "rain_amount" l = Ok (averageRain c') ∧
  amount_left "snow_amount" l = Ok (averageSnow c').
Proof.
  intros Hr. split; [by apply run_slots_tmpPrecip in Hr|].
  destruct l as [|s l]; [by injection Hr as <- _|].
  by eapply run_slots_amount_left.
Qed.

(** *** Every slot is visited once *)

Lemma visits_of_date_elem_of d (slots : gmap string (gmap string pyval)) d' t s :
  (d', t, s) ∈ visits_of_date d slots ↔ d' = d ∧ slots !! t = Some s.
Proof.
  rewrite list_elem_of_lookup. split.
  - intros [i Hi]. apply visits_of_date_lookup in Hi. tauto.
  - intros [-> Hs].
    assert (t ∈ sort_strings (elements (dom slots))) as [i Hi]%list_elem_of_lookup
      by (apply sorted_keys_elem_of; by exists s).
    exists i. by apply visits_of_date_lookup.
Qed.

Lemma visits_complete (h : gmap string (gmap string (gmap string pyval))) d t s :
  slot_at h d t = Some s ↔ ∃ i, visits h !! i = Some (d, t, s).
Proof.
  rewrite <- list_elem_of_lookup. unfold visits, visits_in, slot_at.
  rewrite list_elem_of_In, in_flat_map. split.
  - destruct (h !! d) as [tm|] eqn:Hd; [|done]. simpl. intros Hs.
    exists d. split.
    + apply list_elem_of_In, sorted_keys_elem_of. by exists tm.
    + apply list_elem_of_In. rewrite Hd. by apply visits_of_date_elem_of.
  - intros (d0 & Hd0 & Hin).
    apply list_elem_of_In, visits_of_date_elem_of in Hin as [-> Hs].
    apply list_elem_of_In, sorted_keys_elem_of in Hd0 as [tm Htm].
    rewrite Htm in Hs |- *. done.
Qed.

(** What [_cleanup] does with the slot visited at position [i]: the loop
    body runs on it with the carry that the earlier slots leave, and the
    slot is kept, as the body left it, exactly when it has a [temp]. *)
Lemma cleanup_visit (data data' : forecast_data) i d t s :
  _cleanup data = Ok data' →
  visits (hourly data) !! i = Some (d, t, s) →
  let earlier := List.map (λ v, v.2) (take i (visits (hourly data))) in
  ∃ ci ci' s',
    tmpPrecip ci = default VNone (last (seen_precips earlier)) ∧
    amount_left "rain_amount" earlier = Ok (averageRain ci) ∧
    amount_left "snow_amount" earlier = Ok (averageSnow ci) ∧
    cleanup_slot ci s = Ok (ci', s') ∧
    slot_at (hourly data') d t = if has_temp s then Some s' else None.
Proof.
  intros (_ & _ & c' & posts & Hrun & Hidx & _)%cleanup_run Hi. simpl.
  destruct (Hidx i d t s Hi) as (s' & Hp & Hs).
  destruct (run_slots_lookup _ _ _ _ i s Hrun) as (ci & ci' & s'' & Hpre & Hstep & Hp').
  { change List.map with (@fmap list _). by rewrite list_lookup_fmap, Hi. }
  assert (s'' = s') as -> by congruence.
  change List.map with (@fmap list _) in Hpre. rewrite <- fmap_take in Hpre.
  destruct (run_slots_carry _ _ _ Hpre) as (Htmp & Hrain & Hsnow).
  exists ci, ci', s'. repeat split; try done.
  by rewrite <- (cleanup_slot_has_temp _ _ _ _ Hstep).
Qed.

End Pass.

(** *** The visiting order is ascending *)

Lemma string_compare_trans (a b c : string) :
  String.compare a b ≠ Gt → String.compare b c ≠ Gt → String.compare a c ≠ Gt.
Proof.
  revert b c. induction a as [|x a IH]; intros [|y b] [|z c]; simpl; try done.
  unfold Ascii.compare.
  destruct (N.compare_spec (N_of_ascii x) (N_of_ascii y)) as [Hxy|Hxy|Hxy];
    [| |done];
  destruct (N.compare_spec (N_of_ascii y) (N_of_ascii z)) as [Hyz|Hyz|Hyz];
    try done;
  destruct (N.compare_spec (N_of_ascii x) (N_of_ascii z)) as [Hxz|Hxz|Hxz];
    try done; try lia.
  apply IH.
Qed.

#[local] Instance str_le_trans : Transitive str_le.
Proof.
  intros a b c. unfold str_le, String.leb. intros Hab Hbc.
  pose proof (string_compare_trans a b c) as Ht.
  destruct (String.compare a b), (String.compare b c), (String.compare a c);
    try done; by destruct Ht.
Qed.

#[local] Instance str_le_total : Total str_le.
Proof.
  intros a b. unfold str_le.
  destruct (String.leb_total a b) as [->| ->]; [by left | by right].
Qed.

Lemma sort_strings_sorted (l : list string) :
  StronglySorted str_le (sort_strings l).
Proof. apply StronglySorted_merge_sort; apply _. Qed.

Lemma visits_of_date_sorted d (slots : gmap string (gmap string pyval)) :
  StronglySorted visit_le (visits_of_date d slots).
Proof.
  unfold visits_of_date. change List.map with (@fmap list _).
  apply (StronglySorted_fmap _ str_le); [|apply sort_strings_sorted].
  intros t1 t2 Ht. split; simpl; [|done].
  destruct (str_le_total d d); done.
Qed.

Lemma visits_in_sorted (h : gmap string (gmap string (gmap string pyval))) ds :
  StronglySorted str_le ds → NoDup ds → StronglySorted visit_le (visits_in h ds).
Proof.
  unfold visits_in. induction ds as [|d ds IH]; simpl; [constructor|].
  intros [Hs Hall]%StronglySorted_inv [Hd Hnd]%NoDup_cons.
  apply StronglySorted_app_2; [|apply visits_of_date_sorted|by apply IH].
  intros [[d1 t1] s1] [[d2 t2] s2] [-> _]%visits_of_date_elem_of Hin.
  apply list_elem_of_In, in_flat_map in Hin as (d' & Hd' & Hin).
  apply list_elem_of_In, visits_of_date_elem_of in Hin as [-> _].
  apply list_elem_of_In in Hd'. rewrite Forall_forall in Hall.
  split; simpl; [by apply Hall|]. by intros ->.
Qed.

Lemma visits_sorted (h : gmap string (gmap string (gmap string pyval))) :
  StronglySorted visit_le (visits h).
Proof.
  apply visits_in_sorted; [apply sort_strings_sorted | apply sorted_keys_NoDup].
Qed.

(** *** What a slot ends with *)

Section PassResults.
Context `{PyEnv}.
Local Open Scope list_scope.

Lemma seen_precips_snoc (l : list (gmap string pyval)) (s : gmap string pyval) :
  seen_precips (l ++ [s])
  = seen_precips l ++ (if truthy (default VNone (s !! "precip"))
                       then [default VNone (s !! "precip")] else []).
Proof.
  induction l as [|x l IH]; simpl.
  - rewrite seen_precips_cons. by rewrite app_nil_r.
  - rewrite !seen_precips_cons, IH. by rewrite app_assoc.
Qed.

Lemma last_seen_truthy (l : list (gmap string pyval)) (p : pyval) :
  last (seen_precips l) = Some p → truthy p = true.
Proof.
  intros Hl. apply last_Some_elem_of in Hl. unfold seen_precips in Hl.
  apply list_elem_of_filter in Hl as [Hp _]. by apply Is_true_true.
Qed.

Lemma amount_left_snoc (field : string) (l : list (gmap string pyval))
    (s : gmap string pyval) :
  amount_left field (l ++ [s])
  = (let cur := default VNone (s !! field) in
     if truthy cur
     then f ← py_float cur; Ok (VFloat (round_float (f / 2)%float 2))
     else Ok (VInt 0)).
Proof. unfold amount_left. by rewrite last_snoc. Qed.

Lemma cleanup_visit_fields (data data' : forecast_data) i d t s :
  _cleanup data = Ok data' →
  visits (hourly data) !! i = Some (d, t, s) →
  let earlier := List.map (λ v, v.2) (take i (visits (hourly data))) in
  ∃ s',
    slot_at (hourly data') d t = (if has_temp s then Some s' else None) ∧
    precip_result earlier s s' ∧
    amount_result "rain_amount" earlier s s' ∧
    amount_result "snow_amount" earlier s s' ∧
    (∀ k, k ≠ "precip" → k ≠ "rain_amount" → k ≠ "snow_amount" →
          s' !! k = s !! k).
Proof.
  intros Hc Hi. simpl.
  destruct (cleanup_visit data data' i d t s Hc Hi)
    as (ci & ci' & s' & Htmp & Hrain & Hsnow & Hstep & Hs).
  apply cleanup_slot_spec in Hstep as (_ & Hp & Hr & Hn & Hk).
  exists s'. split; [done|]. split; [|split; [|split; [|done]]].
  - unfold precip_result. rewrite Hp, Htmp.
    destruct (truthy (default VNone (s !! "precip"))); [done|].
    destruct (last (seen_precips _)) as [p|] eqn:Hl; simpl; [|done].
    by rewrite (last_seen_truthy _ _ Hl).
  - unfold amount_result, amount_spec in *. simpl in *.
    destruct (truthy (default VNone (s !! "rain_amount"))).
    + destruct Hr as (f & Hf & -> & Hr). by exists f.
    + destruct Hr as [_ Hr]. by exists (averageRain ci).
  - unfold amount_result, amount_spec in *. simpl in *.
    destruct (truthy (default VNone (s !! "snow_amount"))).
    + destruct Hn as (f & Hf & -> & Hn). by exists f.
    + destruct Hn as [_ Hn]. by exists (averageSnow ci).
Qed.

Lemma cleanup_remaining (data data' : forecast_data) :
  _cleanup data = Ok data' →
  (∀ d t s', slot_at (hourly data') d t = Some s' → is_Some (s' !! "temp")) ∧
  (∀ d t s, slot_at (hourly data) d t = Some s → s !! "temp" = None →
     slot_at (hourly data') d t = None) ∧
  (∀ d t s, slot_at (hourly data) d t = Some s → is_Some (s !! "temp") →
     is_Some (slot_at (hourly data') d t)).
Proof.
  intros Hc. split; [|split].
  - intros d t s' Hs'.
    destruct (cleanup_run data data' Hc) as (_ & _ & c' & posts & _ & _ & Hback).
    destruct (Hback d t s' Hs') as (i & s & Hi).
    destruct (cleanup_visit_fields data data' i d t s Hc Hi)
      as (s'' & Hs & _ & _ & _ & Hk).
    unfold has_temp in Hs. case_bool_decide as Htemp; [|congruence].
    assert (s'' = s') as -> by congruence. by rewrite Hk.
  - intros d t s [i Hi]%visits_complete Htemp.
    destruct (cleanup_visit_fields data data' i d t s Hc Hi) as (s' & Hs & _).
    unfold has_temp in Hs. case_bool_decide as Ht; [|done].
    rewrite Htemp in Ht. by destruct Ht.
  - intros d t s [i Hi]%visits_complete Htemp.
    destruct (cleanup_visit_fields data data' i d t s Hc Hi) as (s' & Hs & _).
    unfold has_temp in Hs. case_bool_decide as Ht; [|done]. by rewrite Hs.
Qed.

End PassResults.

(** *** When the post-processing returns *)

Section CleanupReturns.
Context `{PyEnv}.

Lemma carry_amount_ok field average (s : gmap string pyval) :
  (truthy (default VNone (s !! field)) = true →
   is_ok (py_float (default VNone (s !! field))) = true) →
  ∃ r, carry_amount field average s = Ok r.
Proof.
  unfold carry_amount. destruct (truthy (default VNone (s !! field))).
  - intros Hf. destruct (py_float (default VNone (s !! field))) as [f|e];
      [|by specialize (Hf eq_refl)].
    eexists. reflexivity.
  - intros _. eexists. reflexivity.
Qed.

Lemma cleanup_slot_ok c (s : gmap string pyval) :
  convertible s → ∃ r, cleanup_slot c s = Ok r.
Proof.
  intros Hs. unfold cleanup_slot.
  destruct (carry_precip_spec (tmpPrecip c) s) as (_ & _ & Hk1).
  destruct (carry_precip (tmpPrecip c) s) as [tmp s1]. simpl in Hk1.
  destruct (carry_amount_ok "rain_amount" (averageRain c) s1) as [[rain s2] Hr].
  { rewrite (Hk1 "rain_amount") by done. apply Hs. by left. }
  rewrite Hr. cbn [mbind result_bind].
  apply carry_amount_spec in Hr as [_ Hk2].
  destruct (carry_amount_ok "snow_amount" (averageSnow c) s2) as [[snow s3] Hn].
  { rewrite (Hk2 "snow_amount"), (Hk1 "snow_amount") by done. apply Hs. by right. }
  rewrite Hn. eexists. reflexivity.
Qed.

Lemma cleanup_times_ok c (m : gmap string (gmap string pyval)) ts :
  NoDup ts → (∀ t, t ∈ ts → is_Some (m !! t)) →
  (∀ t s, t ∈ ts → m !! t = Some s → convertible s) →
  ∃ r, cleanup_times c m ts = Ok r.
Proof.
  revert c m. induction ts as [|t ts IH]; intros c m Hnd Hin Hconv.
  - eexists. reflexivity.
  - apply NoDup_cons in Hnd as [Ht Hnd].
    destruct (Hin t) as [s Hs]; [by left|].
    destruct (cleanup_slot_ok c s) as [[c1 s'] Hstep];
      [by apply (Hconv t); [left|]|].
    cbn [cleanup_times]. rewrite Hs. cbn [of_option mbind result_bind].
    rewrite Hstep. cbn [mbind result_bind].
    assert (Hother : ∀ t', t' ∈ ts →
              (if has_temp s' then <[t := s']> m else delete t m) !! t' = m !! t').
    { intros t' Ht'. assert (t ≠ t') by (by intros ->).
      destruct (has_temp s'); [by rewrite lookup_insert_ne | by rewrite lookup_delete_ne]. }
    apply IH; [done| |].
    + intros t' Ht'. rewrite Hother by done. apply Hin. by right.
    + intros t' s0 Ht'. rewrite Hother by done. apply Hconv. by right.
Qed.

Lemma cleanup_dates_ok c (h : gmap string (gmap string (gmap string pyval))) ds :
  NoDup ds → (∀ d, d ∈ ds → is_Some (h !! d)) →
  (∀ d t s, d ∈ ds → slot_at h d t = Some s → convertible s) →
  ∃ r, cleanup_dates c h ds = Ok r.
Proof.
  revert c h. induction ds as [|d ds IH]; intros c h Hnd Hin Hconv.
  - eexists. reflexivity.
  - apply NoDup_cons in Hnd as [Hd Hnd].
    destruct (Hin d) as [tm Htm]; [by left|].
    destruct (cleanup_times_ok c tm (sort_strings (elements (dom tm))))
      as [[c1 tm1] Htimes].
    { apply sorted_keys_NoDup. }
    { intros t. apply sorted_keys_elem_of. }
    { intros t s _ Hs. apply (Hconv d t); [by left|].
      unfold slot_at. rewrite Htm. exact Hs. }
    cbn [cleanup_dates]. rewrite Htm. cbn [of_option mbind result_bind].
    rewrite Htimes. cbn [mbind result_bind].
    assert (Hother : ∀ d', d' ∈ ds → <[d := tm1]> h !! d' = h !! d').
    { intros d' Hd'. rewrite lookup_insert_ne; [done|]. by intros ->. }
    apply IH; [done| |].
    + intros d' Hd'. rewrite Hother by done. apply Hin. by right.
    + intros d' t s Hd'. unfold slot_at. rewrite Hother by done.
      apply (Hconv d' t s). by right.
Qed.

(** [_cleanup] returns when every amount that a slot reports converts. *)
Lemma cleanup_ok (data : forecast_data) :
  (∀ d t s, slot_at (hourly data) d t = Some s → convertible s) →
  ∃ data', _cleanup data = Ok data'.
Proof.
  intros Hconv. unfold _cleanup.
  destruct (cleanup_dates_ok carry0 (hourly data)
              (sort_strings (elements (dom (hourly data)))))
    as [[c h'] Hd].
  - apply sorted_keys_NoDup.
  - intros d. apply sorted_keys_elem_of.
  - intros d t s _. apply Hconv.
  - rewrite Hd. eexists. reflexivity.
Qed.

End CleanupReturns.

(** *** The pass, end to end *)

(** C3: [_cleanup] visits the slots in ascending order of date, then
    time.  A visited slot that has a precipitation probability keeps it; one
    that lacks it receives the most recent probability among all the slots
    visited before it, whatever their dates, when there is one.  The slot is
    part of the result when it has a [temp].  E.g. 06:00 with 40 followed by
    09:00 and 12:00 (and 00:00 of the next day) without: all end with 40. *)
Theorem C3_precip_carry :
  (∀ (H : PyEnv) (data data' : forecast_data) d t s,
     _cleanup data = Ok data' →
     slot_at (hourly data) d t = Some s →
     ∃ i s',
       visits (hourly data) !! i = Some (d, t, s) ∧
       slot_at (hourly data') d t = (if has_temp s then Some s' else None) ∧
       precip_result (List.map (λ v, v.2) (take i (visits (hourly data)))) s s') ∧
  (∀ h, StronglySorted visit_le (visits h)) ∧
  (∀ l s, seen_precips (l ++ [s])%list
          = (seen_precips l ++ (if truthy (default VNone (s !! "precip"))
                                then [default VNone (s !! "precip")] else []))%list) ∧
  _cleanup (H := RefEnv.ref_env) carry_example = Ok carry_example_cleaned ∧
  field_at carry_example_cleaned "2020-02-07" "06:00:00" "precip" = Some (VStr "40") ∧
  field_at carry_example_cleaned "2020-02-07" "09:00:00" "precip" = Some (VStr "40") ∧
  field_at carry_example_cleaned "2020-02-07" "12:00:00" "precip" = Some (VStr "40") ∧
  field_at carry_example_cleaned "2020-02-08" "00:00:00" "precip" = Some (VStr "40").
Proof.
  split; [|split; [|split; [|repeat split; vm_compute; reflexivity]]].
  - intros H data data' d t s Hc [i Hi]%visits_complete.
    destruct (cleanup_visit_fields data data' i d t s Hc Hi) as (s' & Hs & Hp & _).
    by exists i, s'.
  - apply visits_sorted.
  - apply seen_precips_snoc.
Qed.

Lemma C3_precip_carry_witness :
  ∃ i s',
    visits (hourly carry_example) !! i
      = Some ("2020-02-07", "12:00:00", list_to_map [("temp", VStr "32")]) ∧
    slot_at (hourly carry_example_cleaned) "2020-02-07" "12:00:00"
      = (if has_temp (list_to_map [("temp", VStr "32")]) then Some s' else None) ∧
    precip_result (List.map (λ v, v.2) (take i (visits (hourly carry_example))))
                  (list_to_map [("temp", VStr "32")]) s'.
Proof.
  apply (proj1 C3_precip_carry RefEnv.ref_env carry_example carry_example_cleaned);
    vm_compute; reflexivity.
Defined.

(** C2: a visited slot that reports a rain amount ends with half of it,
    rounded to two decimals, and that half is the carry-over the next slot
    sees; a slot that reports none receives the carry-over left by the slots
    before it when that is not equal to zero, and leaves a carry-over of
    zero.  Before the first slot the carry-over is [None], which is not equal
    to zero.  The same holds for the snow amount, on its own carry-over.
    E.g. a slot with rain amount 0.40 ends with 0.20, the next slot, without
    the field, receives 0.20, and the one after that receives nothing. *)
Theorem C2_amount_carry :
  (∀ (H : PyEnv) (field : string) (data data' : forecast_data) d t s,
     field = "rain_amount" ∨ field = "snow_amount" →
     _cleanup data = Ok data' →
     slot_at (hourly data) d t = Some s →
     ∃ i s',
       visits (hourly data) !! i = Some (d, t, s) ∧
       slot_at (hourly data') d t = (if has_temp s then Some s' else None) ∧
       amount_result field
         (List.map (λ v, v.2) (take i (visits (hourly data)))) s s') ∧
  (∀ (H : PyEnv) (field : string), amount_left field [] = Ok VNone) ∧
  (∀ (H : PyEnv) (field : string) l s,
     amount_left field (l ++ [s])%list
     = (let cur := default VNone (s !! field) in
        if truthy cur
        then f ← py_float cur; Ok (VFloat (round_float (f / 2)%float 2))
        else Ok (VInt 0))) ∧
  _cleanup (H := RefEnv.ref_env) carry_example = Ok carry_example_cleaned ∧
  field_at carry_example_cleaned "2020-02-07" "06:00:00" "rain_amount"
    = Some (VFloat 0.2) ∧
  field_at carry_example_cleaned "2020-02-07" "09:00:00" "rain_amount"
    = Some (VFloat 0.2) ∧
  field_at carry_example_cleaned "2020-02-07" "12:00:00" "rain_amount" = None ∧
  field_at carry_example_cleaned "2020-02-07" "06:00:00" "snow_amount"
    = Some VNone ∧
  field_at carry_example_cleaned "2020-02-07" "09:00:00" "snow_amount" = None.
Proof.
  split; [|split; [|split; [|repeat split; vm_compute; reflexivity]]].
  - intros H field data data' d t s Hfield Hc [i Hi]%visits_complete.
    destruct (cleanup_visit_fields data data' i d t s Hc Hi)
      as (s' & Hs & _ & Hrain & Hsnow & _).
    exists i, s'. by destruct Hfield as [-> | ->].
  - done.
  - intros H field l s. apply amount_left_snoc.
Qed.

Lemma C2_amount_carry_witness :
  ∃ i s',
    visits (hourly carry_example) !! i
      = Some ("2020-02-07", "09:00:00", list_to_map [("temp", VStr "31")]) ∧
    slot_at (hourly carry_example_cleaned) "2020-02-07" "09:00:00"
      = (if has_temp (list_to_map [("temp", VStr "31")]) then Some s' else None) ∧
    amount_result (H := RefEnv.ref_env) "rain_amount"
      (List.map (λ v, v.2) (take i (visits (hourly carry_example))))
      (list_to_map [("temp", VStr "31")]) s'.
Proof.
  apply (proj1 C2_amount_carry RefEnv.ref_env "rain_amount"
               carry_example carry_example_cleaned);
    [by left | vm_compute; reflexivity | vm_compute; reflexivity].
Defined.

(** C9: [_cleanup] returns whenever the amounts that the slots report
    convert to [float], and every time slot of the returned hourly mapping
    has a [temp] field: a slot without one is removed from the map of its
    date, a slot with one is kept, and the dates themselves stay. *)
Theorem C9_remaining_slots_have_temp :
  (∀ (H : PyEnv) (data : forecast_data),
     (∀ d t s, slot_at (hourly data) d t = Some s → convertible s) →
     ∃ data', _cleanup data = Ok data') ∧
  (∀ (H : PyEnv) (data data' : forecast_data),
     _cleanup data = Ok data' →
     (∀ d t s', slot_at (hourly data') d t = Some s' → is_Some (s' !! "temp")) ∧
     (∀ d t s, slot_at (hourly data) d t = Some s → s !! "temp" = None →
        slot_at (hourly data') d t = None) ∧
     (∀ d t s, slot_at (hourly data) d t = Some s → is_Some (s !! "temp") →
        is_Some (slot_at (hourly data') d t)) ∧
     (∀ d, is_Some (hourly data' !! d) ↔ is_Some (hourly data !! d))).
Proof.
  split.
  - intros H data. apply cleanup_ok.
  - intros H data data' Hc.
    destruct (cleanup_remaining data data' Hc) as (H1 & H2 & H3).
    repeat split; try done; by apply (cleanup_run data data' Hc).
Qed.

Lemma C9_remaining_slots_have_temp_witness :
  (∀ d t s', slot_at (hourly pruned_example_cleaned) d t = Some s' →
     is_Some (s' !! "temp")) ∧
  slot_at (hourly pruned_example_cleaned) "2020-02-07" "18:00:00" = None ∧
  is_Some (slot_at (hourly pruned_example_cleaned) "2020-02-07" "19:00:00").
Proof.
  assert (Hc : _cleanup (H := RefEnv.ref_env) pruned_example
               = Ok pruned_example_cleaned) by (vm_compute; reflexivity).
  destruct (proj2 C9_remaining_slots_have_temp RefEnv.ref_env _ _ Hc)
    as (H1 & H2 & H3 & _).
  split; [exact H1|]. split.
  - eapply H2; vm_compute; reflexivity.
  - eapply H3; [vm_compute; reflexivity|]. vm_compute. eauto.
Defined.

(** C10: a slot without [temp] still takes part in the carry: the slot
    itself is removed, and the slot visited right after it, when it has a
    [temp] and lacks the value, receives the removed slot's precipitation
    probability and half of its rain and snow amounts (when not equal to
    zero). *)
Theorem C10_pruned_slot_carries :
  (∀ (H : PyEnv) (data data' : forecast_data) i d1 t1 s1 d2 t2 s2,
     _cleanup data = Ok data' →
     visits (hourly data) !! i = Some (d1, t1, s1) →
     visits (hourly data) !! S i = Some (d2, t2, s2) →
     s1 !! "temp" = None → is_Some (s2 !! "temp") →
     slot_at (hourly data') d1 t1 = None ∧
     ∃ s2', slot_at (hourly data') d2 t2 = Some s2' ∧
       (truthy (default VNone (s1 !! "precip")) = true →
        truthy (default VNone (s2 !! "precip")) = false →
        s2' !! "precip" = s1 !! "precip") ∧
       (∀ field, field = "rain_amount" ∨ field = "snow_amount" →
          truthy (default VNone (s1 !! field)) = true →
          truthy (default VNone (s2 !! field)) = false →
          ∃ f, py_float (default VNone (s1 !! field)) = Ok f ∧
               s2' !! field
               = if ne_zero (VFloat (round_float (f / 2)%float 2))
                 then Some (VFloat (round_float (f / 2)%float 2))
                 else s2 !! field)) ∧
  _cleanup (H := RefEnv.ref_env) pruned_example = Ok pruned_example_cleaned ∧
  slot_at (hourly pruned_example_cleaned) "2020-02-07" "18:00:00" = None ∧
  field_at pruned_example_cleaned "2020-02-07" "19:00:00" "precip"
    = Some (VStr "55") ∧
  field_at pruned_example_cleaned "2020-02-07" "19:00:00" "rain_amount"
    = Some (VFloat 0.05) ∧
  field_at pruned_example_cleaned "2020-02-07" "19:00:00" "snow_amount"
    = Some (VFloat 0.5).
Proof.
  split; [|repeat split; vm_compute; reflexivity].
  intros H data data' i d1 t1 s1 d2 t2 s2 Hc H1 H2 Ht1 Ht2.
  destruct (cleanup_visit_fields data data' i d1 t1 s1 Hc H1) as (s1' & Hs1 & _).
  destruct (cleanup_visit_fields data data' (S i) d2 t2 s2 Hc H2)
    as (s2' & Hs2 & Hp & Hrain & Hsnow & _).
  rewrite (take_S_r _ _ _ H1), List.map_app in Hp, Hrain, Hsnow.
  simpl in Hp, Hrain, Hsnow.
  unfold has_temp in Hs1, Hs2.
  rewrite bool_decide_eq_false_2 in Hs1 by (rewrite Ht1; by intros [? ?]).
  rewrite bool_decide_eq_true_2 in Hs2 by done.
  split; [done|]. exists s2'. split; [done|]. split.
  - intros Hc1 Hc2. unfold precip_result in Hp.
    rewrite Hc2, seen_precips_snoc, Hc1, last_snoc in Hp. rewrite Hp.
    by destruct (s1 !! "precip").
  - intros field Hfield Hc1 Hc2.
    assert (Ham : amount_result field
              (List.map (λ v, v.2) (take i (visits (hourly data))) ++ [s1])%list
              s2 s2') by (by destruct Hfield as [-> | ->]).
    unfold amount_result in Ham. simpl in Ham. rewrite Hc2 in Ham.
    destruct Ham as (carried & Hleft & Hres).
    rewrite amount_left_snoc in Hleft. simpl in Hleft. rewrite Hc1 in Hleft.
    inv_bind Hleft. injection Hleft as <-. by exists a.
Qed.

Lemma C10_pruned_slot_carries_witness :
  slot_at (hourly pruned_example_cleaned) "2020-02-07" "18:00:00" = None ∧
  ∃ s2', slot_at (hourly pruned_example_cleaned) "2020-02-07" "19:00:00" = Some s2' ∧
    s2' !! "precip" = Some (VStr "55").
Proof.
  destruct (proj1 C10_pruned_slot_carries RefEnv.ref_env
              pruned_example pruned_example_cleaned 0%nat
              "2020-02-07" "18:00:00"
              (list_to_map [("precip", VStr "55"); ("rain_amount", VStr "0.10");
                            ("snow_amount", VStr "1.0")])
              "2020-02-07" "19:00:00" (list_to_map [("temp", VStr "27")]))
    as (Hgone & s2' & Hs2 & Hp & _).
  - vm_compute; reflexivity.
  - vm_compute; reflexivity.
  - vm_compute; reflexivity.
  - vm_compute; reflexivity.
  - vm_compute. eauto.
  - split; [exact Hgone|]. exists s2'. split; [exact Hs2|].
    rewrite Hp; vm_compute; reflexivity.
Defined.

(** ** The daily low *)

Section DailyLow.
Context `{PyEnv}.
Local Open Scope list_scope.

Lemma lowest_app stored l1 l2 :
  lowest stored (l1 ++ l2) = (x ← lowest stored l1; lowest x l2).
Proof.
  revert stored. induction l1 as [|v l1 IH]; intros stored; simpl; [done|].
  destruct (py_int v) as [h|e]; simpl; [|done].
  destruct (py_int stored) as [s|e]; simpl; [|done]. apply IH.
Qed.

Lemma lowered_trans d l1 l2 (data data1 data2 : gmap string pyval) :
  lowered d l1 data data1 → lowered d l2 data1 data2 →
  lowered d (l1 ++ l2) data data2.
Proof.
  unfold lowered. destruct (data !! d) as [stored|].
  - intros (x & Hx & ->) (y & Hy & ->). exists y. split; [|done].
    rewrite lowest_app, Hx. done.
  - by intros ->.
Qed.

Lemma lower_at_lowered date v (data data' : gmap string pyval) d :
  lower_at date v data = Ok data' →
  lowered d (if decide (date = d) then [v] else []) data data'.
Proof.
  unfold lower_at, lowered. destruct (decide (date = d)) as [->|Hne].
  - destruct (data !! d) as [stored|] eqn:Hd.
    + intros Hl. inv_bind Hl. inv_bind Hl. injection Hl as <-. simpl.
      rewrite Ha, Ha0. simpl. destruct (a <? a0).
      * exists v. by rewrite lookup_insert_eq.
      * by exists stored.
    + by intros [= <-].
  - destruct (data !! date) as [stored|] eqn:Hd.
    + intros Hl. inv_bind Hl. inv_bind Hl. injection Hl as <-.
      assert (Hsame : (if a <? a0 then <[date := v]> data else data) !! d = data !! d).
      { destruct (a <? a0); [by rewrite lookup_insert_ne | done]. }
      rewrite Hsame. destruct (data !! d) as [x|]; [by exists x | done].
    + intros [= <-]. destruct (data !! d) as [x|]; [by exists x | done].
Qed.

Lemma hour_step_lowered hour (data data' : gmap string pyval) d :
  hour_step data hour = Ok data' → lowered d (samples_of d hour) data data'.
Proof.
  unfold hour_step, samples_of. intros Hs. inv_bind Hs.
  apply (lower_at_lowered _ _ _ _ d) in Ha.
  apply (lowered_trans _ _ _ _ _ _ Ha).
  destruct (end_ hour) as [e|].
  - by apply lower_at_lowered.
  - injection Hs as <-. unfold lowered. destruct (a !! d) as [x|]; [by exists x | done].
Qed.

Lemma scan_hourlies_lowered hourlies (data data' : gmap string pyval) d :
  scan_hourlies data hourlies = Ok data' →
  lowered d (samples_for d hourlies) data data'.
Proof.
  revert data. induction hourlies as [|hour rest IH]; intros data; simpl.
  - intros [= <-]. unfold lowered. destruct (data !! d) as [x|]; [by exists x | done].
  - intros Hs. inv_bind Hs.
    eapply lowered_trans; [by apply hour_step_lowered | by apply IH].
Qed.

Lemma seed_lows_lookup dailies (data data' : gmap string pyval) d :
  seed_lows data dailies = Ok data' →
  data' !! d = match last (seeds_for d dailies) with
               | Some v => Some v
               | None => data !! d
               end.
Proof.
  revert data. induction dailies as [|day rest IH]; intros data; simpl.
  - by intros [= <-].
  - unfold seeds_for. simpl. destruct (end_ day) as [e|]; [|done]. simpl.
    intros Hs. rewrite (IH _ Hs). fold (seeds_for d rest).
    destruct (decide (strftime_date e = d)) as [->|Hne]; simpl.
    + rewrite last_cons, lookup_insert_eq. by destruct (last (seeds_for d rest)).
    + by rewrite lookup_insert_ne.
Qed.

(** The daily low of a date: the last daily minimum that ends on it,
    lowered by the hourly samples of that date. *)
Lemma daily_low_lookup dailies hourlies (data : gmap string pyval) d :
  _daily_low dailies hourlies = Ok data →
  match last (seeds_for d dailies) with
  | None => data !! d = None
  | Some stored =>
      ∃ x, lowest stored (samples_for d hourlies) = Ok x ∧ data !! d = Some x
  end.
Proof.
  unfold _daily_low. intros Hd. inv_bind Hd.
  apply (seed_lows_lookup _ _ _ d) in Ha. rewrite lookup_empty in Ha.
  apply (scan_hourlies_lowered _ _ _ d) in Hd. unfold lowered in Hd.
  rewrite Ha in Hd. by destruct (last (seeds_for d dailies)).
Qed.

(** The value that [lowest] returns is the stored value or one of the
    samples, and none of them is lower. *)
Lemma lowest_min stored samples x :
  lowest stored samples = Ok x →
  x ∈ stored :: samples ∧
  (samples ≠ [] →
   ∃ zx, py_int x = Ok zx ∧
     ∀ v, v ∈ stored :: samples → ∃ zv, py_int v = Ok zv ∧ zx ≤ zv).
Proof.
  revert stored. induction samples as [|v rest IH]; intros stored; simpl.
  - intros [= <-]. split; [by left | done].
  - intros Hl. inv_bind Hl. inv_bind Hl.
    destruct (IH _ Hl) as [Hin Hmin]. split.
    { apply elem_of_cons in Hin as [->|Hin].
      - destruct (a <? a0); [right; by left | by left].
      - right. by right. }
    intros _. destruct rest as [|w rest].
    + injection Hl as <-. destruct (Z.ltb_spec a a0).
      * exists a. split; [done|]. intros u [->|[->|Hu%elem_of_nil]%elem_of_cons]%elem_of_cons;
          [exists a0 | exists a | done]; split; try done; lia.
      * exists a0. split; [done|]. intros u [->|[->|Hu%elem_of_nil]%elem_of_cons]%elem_of_cons;
          [exists a0 | exists a | done]; split; try done; lia.
    + destruct Hmin as (zx & Hzx & Hall); [done|]. exists zx. split; [done|].
      assert (Hcur : ∃ zc, py_int (if a <? a0 then v else stored) = Ok zc ∧ zx ≤ zc)
        by (apply Hall; by left).
      destruct Hcur as (zc & Hzc & Hle).
      intros u [->|[->|Hu]%elem_of_cons]%elem_of_cons.
      * exists a0. split; [done|]. destruct (Z.ltb_spec a a0); [|congruence].
        assert (zc = a) by congruence. lia.
      * exists a. split; [done|]. destruct (Z.ltb_spec a a0); [congruence|].
        assert (zc = a0) by congruence. lia.
      * apply Hall. by right.
Qed.

End DailyLow.

(** C4: the daily low of a date is seeded with the daily minimum that ends
    on that date (the last one, when several do) and then compared with every
    hourly sample that starts on that date and every one that ends on it, in
    series order: a sample replaces the stored value exactly when it is
    strictly lower as an integer.  Dates on which no daily minimum ends get no
    entry.  E.g. a daily minimum 30 ending on 2020-02-08 with an hourly 28 at
    2020-02-08T05:00 gives 28; with an hourly 35 it stays 30. *)
Theorem C4_daily_low :
  (∀ (H : PyEnv) dailies hourlies (data : gmap string pyval) d,
     _daily_low dailies hourlies = Ok data →
     match last (seeds_for d dailies) with
     | None => data !! d = None
     | Some stored =>
         ∃ x, lowest stored (samples_for d hourlies) = Ok x ∧ data !! d = Some x
     end) ∧
  (∀ (H : PyEnv) stored v h s,
     py_int v = Ok h → py_int stored = Ok s →
     lowest stored [v] = Ok (if h <? s then v else stored)) ∧
  (∀ (H : PyEnv) stored samples x,
     lowest stored samples = Ok x →
     x ∈ stored :: samples ∧
     (samples ≠ [] →
      ∃ zx, py_int x = Ok zx ∧
        ∀ v, v ∈ stored :: samples → ∃ zv, py_int v = Ok zv ∧ zx ≤ zv)) ∧
  _daily_low (H := RefEnv.ref_env) [low_example_daily] [low_example_hourly "28"]
    = Ok {[ "2020-02-08" := VStr "28" ]} ∧
  _daily_low (H := RefEnv.ref_env) [low_example_daily] [low_example_hourly "35"]
    = Ok {[ "2020-02-08" := VStr "30" ]}.
Proof.
  split; [|split; [|split; [|split; vm_compute; reflexivity]]].
  - intros H dailies hourlies data d. apply daily_low_lookup.
  - intros H stored v h s Hh Hs. simpl. by rewrite Hh, Hs.
  - intros H stored samples x. apply lowest_min.
Qed.

Lemma C4_daily_low_witness :
  ∃ x, lowest (H := RefEnv.ref_env) (VStr "30")
         (samples_for "2020-02-08" [low_example_hourly "28"]) = Ok x
       ∧ ({[ "2020-02-08" := VStr "28" ]} : gmap string pyval) !! "2020-02-08" = Some x.
Proof.
  apply (proj1 C4_daily_low RefEnv.ref_env [low_example_daily]
               [low_example_hourly "28"] {[ "2020-02-08" := VStr "28" ]}
               "2020-02-08").
  vm_compute; reflexivity.
Defined.

(** ** The aggregation primitive *)

Section Aggregate.
Context `{PyEnv}.
Local Open Scope list_scope.

Lemma alist_append_get k x iv d :
  alist_get d (alist_append k x iv)
  = if String.eqb k d then alist_get d iv ++ [x] else alist_get d iv.
Proof.
  induction iv as [|[k' l] iv IH]; simpl.
  - by destruct (String.eqb k d).
  - destruct (String.eqb_spec k' k) as [->|Hne]; simpl.
    + by destruct (String.eqb k d).
    + rewrite IH. destruct (String.eqb_spec k' d) as [->|Hne'];
        [|done]. destruct (String.eqb_spec k d) as [->|]; done.
Qed.

Lemma alist_append_keys k x iv d :
  d ∈ (alist_append k x iv).*1 ↔ d = k ∨ d ∈ iv.*1.
Proof.
  induction iv as [|[k' l] iv IH]; simpl.
  - rewrite elem_of_cons. split; intros [Hd|Hd]; auto.
  - destruct (String.eqb_spec k' k) as [->|Hne]; simpl.
    + rewrite elem_of_cons. split; [by right|]. intros [->|Hd]; [by left | done].
    + rewrite !elem_of_cons, IH. tauto.
Qed.

Lemma alist_append_ok k x iv : index_ok iv → index_ok (alist_append k x iv).
Proof.
  intros [Hnd Hne]. induction iv as [|[k' l] iv IH]; simpl.
  - split; [apply NoDup_singleton | by repeat constructor].
  - apply NoDup_cons in Hnd as [Hk' Hnd].
    apply Forall_cons in Hne as [Hl Hne].
    destruct (String.eqb_spec k' k) as [->|Hkk]; simpl.
    + split; [by apply NoDup_cons|]. constructor; [|done]. simpl.
      by destruct l.
    + destruct (IH Hnd Hne) as [Hnd' Hne']. split.
      * apply NoDup_cons. split; [|done]. simpl. rewrite alist_append_keys.
        intros [Heq|Hin]; done.
      * by constructor.
Qed.

(** With no repeated date and no empty group, a date is in the index
    exactly when its group is not empty, and the group is its entry. *)
Lemma index_ok_entry iv d l :
  index_ok iv → ((d, l) ∈ iv ↔ alist_get d iv = l ∧ l ≠ []).
Proof.
  intros [Hnd Hne]. induction iv as [|[k' l'] iv IH]; simpl.
  - split; [by intros ?%elem_of_nil | by intros [<- ?]].
  - apply NoDup_cons in Hnd as [Hk' Hnd].
    apply Forall_cons in Hne as [Hl Hne]. simpl in Hl.
    rewrite elem_of_cons, (IH Hnd Hne).
    destruct (String.eqb_spec k' d) as [->|Hkd].
    + split.
      * intros [[= <-]|[Hg Hn]]; [done|].
        destruct Hk'. clear -Hg Hn. induction iv as [|[k l0] iv IH]; simpl in *;
          [congruence|].
        destruct (String.eqb_spec k d) as [->|]; [by left | right; by apply IH].
      * intros [<- _]. by left.
    + split.
      * by intros [[= ]|Hg].
      * intros Hg. by right.
Qed.

Lemma index_value_spec is_numeric skipper iv v iv' :
  index_value is_numeric skipper iv v = Ok iv' →
  (index_ok iv → index_ok iv') ∧
  ∀ d, length (alist_get d iv')
       = (length (alist_get d iv)
          + if kept is_numeric skipper v && String.eqb (strftime_date (start v)) d
            then 1 else 0)%nat.
Proof.
  unfold index_value.
  destruct (is_numeric && negb (truthy (value v))) eqn:Hdrop.
  { intros [= <-]. split; [done|]. intros d. unfold kept. rewrite Hdrop.
    cbn [negb andb]. lia. }
  intros Hi. inv_bind Hi.
  assert (Hsk : skipped skipper v = a).
  { unfold skipped. destruct skipper as [sk|]; [by rewrite Ha | by injection Ha as <-]. }
  destruct a.
  { injection Hi as <-. split; [done|]. intros d. unfold kept.
    rewrite Hdrop, Hsk. cbn [negb andb]. lia. }
  inv_bind Hi. injection Hi as <-. split; [apply alist_append_ok|].
  intros d. rewrite alist_append_get. unfold kept. rewrite Hdrop, Hsk.
  cbn [negb andb].
  destruct (String.eqb (strftime_date (start v)) d); [|lia].
  rewrite length_app. cbn [length]. lia.
Qed.

Lemma index_values_spec is_numeric skipper iv values iv' :
  index_values is_numeric skipper iv values = Ok iv' →
  (index_ok iv → index_ok iv') ∧
  ∀ d, length (alist_get d iv')
       = (length (alist_get d iv) + count_kept is_numeric skipper d values)%nat.
Proof.
  revert iv. induction values as [|v values IH]; intros iv; simpl.
  - intros [= <-]. split; [done|]. intros d. unfold count_kept. simpl. lia.
  - intros Hi. inv_bind Hi.
    apply index_value_spec in Ha as [Hok1 Hlen1].
    apply IH in Hi as [Hok2 Hlen2]. split; [auto|].
    intros d. rewrite Hlen2, Hlen1. unfold count_kept. cbn [List.filter].
    destruct (kept is_numeric skipper v && String.eqb (strftime_date (start v)) d);
      cbn [length]; lia.
Qed.

Lemma aggregate_dates_dom function is_numeric decimal formatter min_values
    (data data' : gmap string pyval) entries d :
  aggregate_dates function is_numeric decimal formatter min_values data entries
    = Ok data' →
  is_Some (data' !! d) ↔
  is_Some (data !! d) ∨ ∃ l, (d, l) ∈ entries ∧ below_min min_values l = false.
Proof.
  revert data. induction entries as [|[k l] entries IH]; intros data; simpl.
  - intros [= <-]. split; [by left|]. by intros [?|(l & ?%elem_of_nil & _)].
  - intros Ha. inv_bind Ha. rewrite (IH _ Ha). clear IH Ha.
    destruct (below_min min_values l) eqn:Hb.
    + injection Ha0 as <-. split.
      * intros [Hd|(l' & Hin & Hb')]; [by left|].
        right. exists l'. split; [by right | done].
      * intros [Hd|(l' & [[= -> ->]|Hin]%elem_of_cons & Hb')];
          [by left | congruence | right; by exists l'].
    + inv_bind Ha0. inv_bind Ha0. inv_bind Ha0. injection Ha0 as <-. split.
      * intros [Hd|(l' & Hin & Hb')].
        -- destruct (decide (k = d)) as [->|Hne].
           ++ right. exists l. split; [by left | done].
           ++ left. by rewrite lookup_insert_ne in Hd.
        -- right. exists l'. split; [by right | done].
      * intros [Hd|(l' & [[= -> ->]|Hin]%elem_of_cons & Hb')].
        -- left. destruct (decide (k = d)) as [->|Hne].
           ++ by rewrite lookup_insert_eq.
           ++ by rewrite lookup_insert_ne.
        -- left. by rewrite lookup_insert_eq.
        -- right. by exists l'.
Qed.

(** The dates of the result: those on which at least one value takes part
    and, when a minimum count is asked for, at least that many do. *)
Lemma aggregate_dom values function is_numeric decimal skipper formatter
    min_values (data : gmap string pyval) d :
  _aggregate values function is_numeric decimal skipper formatter min_values
    = Ok data →
  is_Some (data !! d) ↔
  (1 ≤ count_kept is_numeric skipper d values)%nat ∧
  (∀ m, min_values = Some m → m ≤ count_kept is_numeric skipper d values)%nat.
Proof.
  unfold _aggregate. intros Ha. inv_bind Ha.
  apply index_values_spec in Ha0 as [Hok Hlen].
  assert (Hok' : index_ok a) by (apply Hok; split; constructor).
  specialize (Hlen d). simpl in Hlen.
  rewrite (aggregate_dates_dom _ _ _ _ _ _ _ _ d Ha), lookup_empty.
  split.
  - intros [[? [=]]|(l & Hin & Hb)].
    apply (index_ok_entry _ _ _ Hok') in Hin as [Hg Hne].
    rewrite Hg in Hlen. rewrite <- Hlen. split.
    + destruct l; [done | simpl; lia].
    + intros m ->. simpl in Hb.
      destruct (Nat.eqb_spec m 0) as [->|Hm]; simpl in Hb; [lia|].
      apply Nat.ltb_ge in Hb. lia.
  - intros [Hone Hmin]. right. exists (alist_get d a). split.
    + apply (index_ok_entry _ _ _ Hok'). split; [done|].
      intros Hnil. rewrite Hnil in Hlen. simpl in Hlen. lia.
    + unfold below_min. destruct min_values as [m|]; [|done].
      specialize (Hmin m eq_refl). rewrite andb_false_iff. right.
      apply Nat.ltb_ge. lia.
Qed.

Lemma count_kept_empty is_numeric skipper d values :
  is_numeric = true →
  (∀ v, v ∈ values → strftime_date (start v) = d → value v = VStr "") →
  count_kept is_numeric skipper d values = 0%nat.
Proof.
  intros -> Hall. unfold count_kept.
  induction values as [|v values IH]; [done|]. cbn [List.filter].
  assert (Hv : kept true skipper v && String.eqb (strftime_date (start v)) d = false).
  { destruct (String.eqb_spec (strftime_date (start v)) d) as [Hd|Hd];
      [|by rewrite andb_false_r].
    unfold kept. rewrite (Hall v) by (done || by left). reflexivity. }
  rewrite Hv. apply IH. intros v' Hv'. apply Hall. by right.
Qed.

(** A series of empty strings under numeric coercion indexes nothing. *)
Lemma index_values_all_empty skipper iv values :
  (∀ v, v ∈ values → value v = VStr "") →
  index_values true skipper iv values = Ok iv.
Proof.
  induction values as [|v values IH]; intros Hall; [done|].
  cbn [index_values]. unfold index_value.
  rewrite (Hall v) by (by left). cbn [truthy String.eqb negb andb mbind result_bind].
  apply IH. intros v' Hv'. apply Hall. by right.
Qed.

End Aggregate.

(** C5: when [_aggregate] returns, its result has an entry for a date
    exactly when at least one value that starts on that date takes part (it
    is neither dropped as empty under numeric coercion nor skipped) and, when
    a minimum sample count is given, at least that many do; every other date
    is absent.  In particular, under numeric coercion a date whose raw values
    are all empty strings is absent. *)
Theorem C5_aggregate_dates :
  (∀ (H : PyEnv) values function is_numeric decimal skipper formatter
     min_values (data : gmap string pyval) d,
     _aggregate values function is_numeric decimal skipper formatter min_values
       = Ok data →
     is_Some (data !! d) ↔
     (1 ≤ count_kept is_numeric skipper d values)%nat ∧
     (∀ m, min_values = Some m → m ≤ count_kept is_numeric skipper d values)%nat) ∧
  (∀ (H : PyEnv) values function decimal skipper formatter min_values
     (data : gmap string pyval) d,
     _aggregate values function true decimal skipper formatter min_values
       = Ok data →
     (∀ v, v ∈ values → strftime_date (start v) = d → value v = VStr "") →
     data !! d = None) ∧
  (∀ (H : PyEnv) values function decimal skipper formatter min_values,
     (∀ v, v ∈ values → value v = VStr "") →
     _aggregate values function true decimal skipper formatter min_values
       = Ok ∅) ∧
  _aggregate (H := RefEnv.ref_env) empty_day_series "first" true 0 None None None
    = Ok {[ "2020-02-08" := VInt 12 ]}.
Proof.
  split; [|split; [|split; [|vm_compute; reflexivity]]].
  - intros H values function is_numeric decimal skipper formatter min_values data d.
    apply aggregate_dom.
  - intros H values function decimal skipper formatter min_values data d Ha Hall.
    apply eq_None_not_Some.
    rewrite (aggregate_dom _ _ _ _ _ _ _ _ d Ha).
    rewrite (count_kept_empty true skipper d values eq_refl Hall). lia.
  - intros H values function decimal skipper formatter min_values Hall.
    unfold _aggregate. by rewrite index_values_all_empty.
Qed.

Lemma C5_aggregate_dates_witness :
  ({[ "2020-02-08" := VInt 12 ]} : gmap string pyval) !! "2020-02-07" = None.
Proof.
  apply (proj1 (proj2 C5_aggregate_dates) RefEnv.ref_env empty_day_series
               "first" 0 None None None).
  - vm_compute; reflexivity.
  - intros v Hv Hd.
    repeat (apply elem_of_cons in Hv as [->|Hv]; [try reflexivity|]).
    + vm_compute in Hd. discriminate Hd.
    + by apply elem_of_nil in Hv.
Defined.

(** ** Looking parameters up by name *)

Lemma parameter_in_Ok (ps : list DwmlParameter) (n : string) (p : DwmlParameter) :
  parameter_in ps n = Ok p ↔
  ∃ pre post, ps = (pre ++ p :: post)%list ∧ name p = Some n ∧
              Forall (λ q, name q ≠ Some n) pre.
Proof.
  induction ps as [|q ps IH]; simpl.
  - split; [done|]. intros (pre & post & Hps & _). by destruct pre.
  - destruct (decide (name q = Some n)) as [Hq|Hq].
    + split.
      * intros [= <-]. by exists [], ps.
      * intros ([|q' pre] & post & [= -> ->] & Hn & Hpre); [done|].
        apply Forall_cons in Hpre as [Hq' _]. done.
    + rewrite IH. split.
      * intros (pre & post & -> & Hn & Hpre). exists (q :: pre), post.
        split; [done|]. split; [done|]. by constructor.
      * intros ([|q' pre] & post & [= -> ->] & Hn & Hpre); [done|].
        apply Forall_cons in Hpre as [_ Hpre]. by exists pre, post.
Qed.

Lemma parameter_in_Raise (ps : list DwmlParameter) (n : string) :
  parameter_in ps n = Raise StopIteration ↔ Forall (λ q, name q ≠ Some n) ps.
Proof.
  induction ps as [|q ps IH]; simpl.
  - split; [constructor | done].
  - destruct (decide (name q = Some n)) as [Hq|Hq].
    + split; [done|]. by intros [? _]%Forall_cons.
    + rewrite IH. split; [by constructor | by intros [_ ?]%Forall_cons].
Qed.

Lemma parameter_in_error (ps : list DwmlParameter) (n : string) (e : pyerr) :
  parameter_in ps n = Raise e → e = StopIteration.
Proof.
  induction ps as [|q ps IH]; simpl; [by intros [= <-]|].
  by destruct (decide (name q = Some n)).
Qed.

Section Assembly.
Context `{PyEnv}.

Ltac values_found :=
  match goal with
  | Hx : values_of ?doc ?c = Ok _ |- is_ok (values_of ?doc ?c) = true =>
      by rewrite Hx
  end.

Lemma daily_lookups (doc : DwmlDoc) r :
  _daily doc = Ok r → Forall (λ c, is_ok (values_of doc c) = true) daily_codes.
Proof.
  unfold _daily. intros Hd. repeat inv_bind Hd.
  repeat constructor; values_found.
Qed.

Lemma hourly_lookups (doc : DwmlDoc) r :
  _hourly doc = Ok r → Forall (λ c, is_ok (values_of doc c) = true) hourly_codes.
Proof.
  unfold _hourly, hourly_field. intros Hh.
  repeat match goal with Hx : _ ≫= _ = Ok _ |- _ => inv_bind Hx end.
  repeat constructor; values_found.
Qed.

Lemma values_of_missing (doc : DwmlDoc) code n :
  code_map code = Ok n → parameter doc n = Raise StopIteration →
  is_ok (values_of doc code) = false.
Proof.
  unfold values_of. intros Hn Hp. rewrite Hn. cbn [mbind result_bind].
  by rewrite Hp.
Qed.

(** A required element whose name no parameter has: no forecast. *)
Lemma parse_missing (tree : Element) (doc : DwmlDoc) code n :
  Dwml.parse tree = Ok doc → code ∈ required_codes →
  code_map code = Ok n → parameter doc n = Raise StopIteration →
  ∃ e, Forecast.parse tree = Raise e.
Proof.
  intros Hdoc Hcode Hn Hp.
  pose proof (values_of_missing doc code n Hn Hp) as Hmiss.
  destruct (Forecast.parse tree) as [r|e] eqn:Hparse; [|by exists e].
  unfold Forecast.parse in Hparse. rewrite Hdoc in Hparse. simpl in Hparse.
  inv_bind Hparse. inv_bind Hparse.
  apply daily_lookups in Ha. apply hourly_lookups in Ha0.
  rewrite Forall_forall in Ha, Ha0.
  assert (code ∈ daily_codes ∨ code ∈ hourly_codes) as [Hin|Hin].
  { unfold required_codes, daily_codes, hourly_codes in *.
    repeat (apply elem_of_cons in Hcode as [->|Hcode];
            [first [left; repeat constructor; fail | right; repeat constructor]|]).
    by apply elem_of_nil in Hcode. }
  - rewrite (Ha code Hin) in Hmiss. done.
  - rewrite (Ha0 code Hin) in Hmiss. done.
Qed.

End Assembly.

(** C6, as stated, fails in one direction: in this feed every required
    element is present, but the daily minimum has a value without an end
    time, and the assembly raises in [_daily_low]. *)
Lemma C6_raises_iff_missing_counterexample :
  ∃ doc, Dwml.parse (H := RefEnv.ref_env) (feed (all_series ["25"])) = Ok doc ∧
         Forecast.parse (H := RefEnv.ref_env) (feed (all_series ["25"]))
           = Raise AttributeError ∧
         ¬ raises_iff_missing (H := RefEnv.ref_env) (feed (all_series ["25"])) doc.
Proof.
  eexists. split; [vm_compute; reflexivity|].
  split; [vm_compute; reflexivity|].
  intros [Hraise _].
  destruct Hraise as (code & n & Hcode & Hn & Hp).
  { exists AttributeError. vm_compute. reflexivity. }
  unfold required_codes in Hcode.
  repeat (apply elem_of_cons in Hcode as [->|Hcode];
          [vm_compute in Hn; injection Hn as <-; vm_compute in Hp; discriminate Hp|]).
  by apply elem_of_nil in Hcode.
Qed.

(** C6 (amended): looking a parameter up by name returns the first
    parameter with that name and raises [StopIteration] exactly when there is
    none; every required element has a name to look up; and when the name of
    a required element is missing from the parsed document, the assembly
    raises and returns no forecast.  (It may also raise on a feed in which
    every required element is present.)  A feed with every required element
    and empty series gives the empty forecast; without the wind gust series it
    raises [StopIteration]. *)
Theorem C6_lookup_failure_propagates :
  (∀ doc n p,
     parameter doc n = Ok p ↔
     ∃ pre post, parameters doc = (pre ++ p :: post)%list ∧ name p = Some n ∧
                 Forall (λ q, name q ≠ Some n) pre) ∧
  (∀ doc n,
     parameter doc n = Raise StopIteration ↔
     Forall (λ q, name q ≠ Some n) (parameters doc)) ∧
  (∀ doc n e, parameter doc n = Raise e → e = StopIteration) ∧
  Forall (λ code, is_ok (code_map code) = true) required_codes ∧
  (∀ (H : PyEnv) tree doc code n,
     Dwml.parse tree = Ok doc → code ∈ required_codes →
     code_map code = Ok n → parameter doc n = Raise StopIteration →
     ∃ e, Forecast.parse tree = Raise e) ∧
  Forecast.parse (H := RefEnv.ref_env) (feed (all_series []))
    = Ok (mkForecast ∅ ∅) ∧
  Forecast.parse (H := RefEnv.ref_env) (feed series_without_wgust)
    = Raise StopIteration.
Proof.
  split; [|split; [|split; [|split; [|split; [|split]]]]].
  - intros doc n p. apply parameter_in_Ok.
  - intros doc n. apply parameter_in_Raise.
  - intros doc n e. apply parameter_in_error.
  - repeat constructor.
  - intros H tree doc code n. apply parse_missing.
  - vm_compute. reflexivity.
  - vm_compute. reflexivity.
Qed.

Lemma C6_lookup_failure_propagates_witness :
  ∃ e, Forecast.parse (H := RefEnv.ref_env) (feed series_without_wgust) = Raise e.
Proof.
  assert (Hok : is_ok (Dwml.parse (H := RefEnv.ref_env) (feed series_without_wgust))
                = true) by (vm_compute; reflexivity).
  destruct (Dwml.parse (H := RefEnv.ref_env) (feed series_without_wgust))
    as [doc|e] eqn:Hdoc; [|discriminate Hok].
  apply (proj1 (proj2 (proj2 (proj2 (proj2 C6_lookup_failure_propagates))))
           RefEnv.ref_env (feed series_without_wgust) doc "wgust" "Wind Speed Gust").
  - exact Hdoc.
  - unfold required_codes. do 7 right. left.
  - reflexivity.
  - assert (Hd : Dwml.parse (H := RefEnv.ref_env) (feed series_without_wgust)
                 = Ok doc) by exact Hdoc.
    vm_compute in Hd. injection Hd as <-. vm_compute. reflexivity.
Defined.

(** ** Time layouts *)

Section TimeLayouts.
Local Open Scope list_scope.

Lemma set_last_end_snoc (ps : list (option string * option string))
    (s e t : option string) :
  set_last_end (ps ++ [(s, e)]) t = Ok (ps ++ [(s, t)]).
Proof.
  induction ps as [|p ps IH]; [reflexivity|].
  change ((p :: ps) ++ [(s, e)]) with (p :: (ps ++ [(s, e)])).
  cbn [set_last_end]. rewrite IH.
  by destruct (ps ++ [(s, e)]) eqn:Hps; [destruct ps|].
Qed.

Lemma last_text_from_cons (k : option string) (t : string) (c : Element)
    (cs : list Element) :
  last_text_from k t (c :: cs)
  = last_text_from (if String.eqb (tag c) t then text c else k) t cs.
Proof.
  unfold last_text_from. cbn [List.filter].
  destruct (String.eqb (tag c) t); [|done].
  destruct (List.filter _ cs) as [|c' l] eqn:Hf; [done|].
  rewrite last_cons_cons.
  destruct (last (c' :: l)) eqn:Hl; [done|]. by apply last_None in Hl.
Qed.

Lemma layout_child_cases (k : option string)
    (ps : list (option string * option string)) (c : Element) :
  layout_child (k, ps) c
  = if String.eqb (tag c) "start-valid-time"
    then Ok (k, ps ++ [(text c, None)])
    else if String.eqb (tag c) "end-valid-time"
    then ps' ← set_last_end ps (text c); Ok (k, ps')
    else Ok (if String.eqb (tag c) "layout-key" then text c else k, ps).
Proof.
  unfold layout_child.
  destruct (String.eqb_spec (tag c) "start-valid-time") as [Hs|Hs];
    destruct (String.eqb_spec (tag c) "end-valid-time") as [He|He];
    destruct (String.eqb_spec (tag c) "layout-key") as [Hk|Hk];
    try reflexivity; congruence.
Qed.

Lemma layout_children_open (cs : list Element) (k : option string)
    (ps : list (option string * option string)) (s e : option string) :
  layout_children (k, ps ++ [(s, e)]) cs
  = Ok (last_text_from k "layout-key" cs,
        ps ++ (s, closing e cs) :: periods_from cs).
Proof.
  revert k ps s e. induction cs as [|c cs IH]; intros k ps s e; [done|].
  cbn [layout_children]. rewrite layout_child_cases, last_text_from_cons.
  cbn [closing periods_from].
  destruct (String.eqb_spec (tag c) "start-valid-time") as [Hs|Hs].
  - cbn [mbind result_bind]. rewrite IH.
    rewrite Hs. cbn [String.eqb Ascii.eqb Bool.eqb]. cbn.
    by rewrite <- app_assoc.
  - destruct (String.eqb_spec (tag c) "end-valid-time") as [He|He].
    + rewrite set_last_end_snoc. cbn [mbind result_bind]. rewrite IH.
      by rewrite He.
    + cbn [mbind result_bind]. by rewrite IH.
Qed.

Lemma layout_children_fresh (cs : list Element) (k : option string) :
  layout_children (k, []) cs
  = if end_before_start cs then Raise IndexError
    else Ok (last_text_from k "layout-key" cs, periods_from cs).
Proof.
  revert k. induction cs as [|c cs IH]; intros k; [done|].
  cbn [layout_children]. rewrite layout_child_cases, last_text_from_cons.
  cbn [end_before_start periods_from].
  destruct (String.eqb_spec (tag c) "start-valid-time") as [Hs|Hs].
  - cbn [mbind result_bind].
    rewrite (layout_children_open cs k [] (text c) None).
    by rewrite Hs.
  - destruct (String.eqb_spec (tag c) "end-valid-time") as [He|He]; [done|].
    cbn [mbind result_bind]. by rewrite IH.
Qed.

Lemma time_layouts_of_raise (acc : gmap (option string) DwmlTimeLayout)
    (ls : list Element) (e : pyerr) :
  time_layouts_of acc ls = Raise e ↔
  e = IndexError ∧ ∃ l, l ∈ ls ∧ end_before_start (getchildren l) = true.
Proof.
  revert acc. induction ls as [|l ls IH]; intros acc; cbn [time_layouts_of].
  - split; [done|]. by intros (_ & l & ?%elem_of_nil & _).
  - rewrite layout_children_fresh.
    destruct (end_before_start (getchildren l)) eqn:Hl; cbn [mbind result_bind].
    + split.
      * intros [= <-]. split; [done|]. exists l. split; [by left | done].
      * by intros [-> _].
    + rewrite IH. split.
      * intros (-> & l' & Hin & Hl'). split; [done|]. exists l'.
        split; [by right | done].
      * intros (-> & l' & Hin & Hl'). split; [done|]. exists l'.
        split; [|done]. apply elem_of_cons in Hin as [->|Hin]; [congruence|done].
Qed.

Lemma time_layouts_of_lookup (acc tl : gmap (option string) DwmlTimeLayout)
    (ls : list Element) (k : option string) :
  time_layouts_of acc ls = Ok tl →
  tl !! k
  = match last (List.filter (λ l, bool_decide (key (layout_of l) = k)) ls) with
    | Some l => Some (layout_of l)
    | None => acc !! k
    end.
Proof.
  revert acc. induction ls as [|l ls IH]; intros acc; cbn [time_layouts_of].
  - by intros [= <-].
  - rewrite layout_children_fresh.
    destruct (end_before_start (getchildren l)); [done|]. cbn [mbind result_bind].
    intros Htl. rewrite (IH _ Htl). cbn [List.filter].
    change (mkTimeLayout _ _ _ _) with (layout_of l).
    change (last_text_from None "layout-key" (getchildren l)) with (key (layout_of l)).
    destruct (List.filter _ ls) as [|l' ls'] eqn:Hf.
    + case_bool_decide as Hk; cbn [last].
      * by rewrite Hk, lookup_insert_eq.
      * by rewrite lookup_insert_ne.
    + assert (Hl : is_Some (last (l' :: ls'))) by (by apply last_is_Some).
      destruct Hl as [x Hx].
      case_bool_decide as Hk; [rewrite last_cons_cons|]; by rewrite Hx.
Qed.

End TimeLayouts.

(** X1: [parse_time_layouts] fails only with [IndexError], and it fails
    exactly when some [time-layout] element of the tree has an
    [end-valid-time] child before its first [start-valid-time] child. *)
Theorem X1_time_layouts_raise (tree : Element) (e : pyerr) :
  parse_time_layouts tree = Raise e ↔
  e = IndexError ∧
  ∃ l, l ∈ getiterator tree "time-layout"
       ∧ end_before_start (getchildren l) = true.
Proof. apply time_layouts_of_raise. Qed.

(** X2: when [parse_time_layouts] returns, the layout stored under a key is
    the one described by the last [time-layout] element of the tree, in
    document order, that has this key (the text of its last [layout-key]
    child, [None] without one); it has one period for each
    [start-valid-time] child, in order, closed by the last [end-valid-time]
    child that comes before the next start.  A key that no element has is
    absent. *)
Theorem X2_time_layouts_lookup (tree : Element)
    (tl : gmap (option string) DwmlTimeLayout) (k : option string) :
  parse_time_layouts tree = Ok tl →
  tl !! k
  = layout_of <$> last (List.filter (λ l, bool_decide (key (layout_of l) = k))
                                    (getiterator tree "time-layout")).
Proof.
  intros Htl. rewrite (time_layouts_of_lookup _ _ _ k Htl).
  by destruct (last _).
Qed.

Lemma X2_time_layouts_lookup_witness :
  ∃ tl, parse_time_layouts open_layout = Ok tl ∧
    periods <$> tl !! Some "k1"
    = Some [(Some "2020-02-07T07:00:00-05:00", Some "2020-02-07T19:00:00-05:00");
            (Some "2020-02-08T07:00:00-05:00", None)].
Proof.
  eexists. split; [vm_compute; reflexivity|].
  rewrite (X2_time_layouts_lookup open_layout _ (Some "k1"))
    by (vm_compute; reflexivity).
  vm_compute. reflexivity.
Defined.

(** ** Parameters *)

Section Parameters.
Context `{PyEnv}.
Local Open Scope list_scope.

Lemma parameter_child_value (nm : option string) (vs : list pyval) (c : Element) :
  parameter_child (nm, vs) c
  = (if String.eqb (tag c) "name" then text c else nm,
     vs ++ option_list (child_value c)).
Proof.
  unfold parameter_child, child_value.
  destruct (String.eqb (tag c) "value" || String.eqb (tag c) "icon-link");
    [done|].
  destruct (String.eqb (tag c) "weather-conditions"); [done|].
  cbn [option_list]. by rewrite app_nil_r.
Qed.

Lemma foldl_parameter_child (nm : option string) (vs : list pyval)
    (cs : list Element) :
  foldl parameter_child (nm, vs) cs
  = (last_text_from nm "name" cs, vs ++ omap child_value cs).
Proof.
  revert nm vs. induction cs as [|c cs IH]; intros nm vs.
  - cbn. by rewrite app_nil_r.
  - cbn [foldl]. rewrite parameter_child_value, IH, last_text_from_cons.
    change (omap child_value (c :: cs))
      with (match child_value c with
            | Some y => y :: omap child_value cs
            | None => omap child_value cs
            end).
    destruct (child_value c); cbn [option_list].
    + by rewrite <- app_assoc.
    + by rewrite app_nil_r.
Qed.

Lemma raw_values_children (e : Element) :
  raw_values e = omap child_value (getchildren e).
Proof. unfold raw_values. by rewrite foldl_parameter_child. Qed.

Lemma parameter_value_carries v p pv :
  parameter_value v p = Ok pv → value pv = v ∧ carries_period p pv.
Proof.
  unfold parameter_value, carries_period. intros Hp.
  inv_bind Hp. inv_bind Hp. injection Hp as <-. cbn [value start end_].
  split; [done|]. split.
  - destruct p.1 as [t|]; [by exists t | done].
  - destruct p.2 as [t|]; [|by injection Ha0 as <-].
    destruct (String.eqb t ""); [by injection Ha0 as <-|].
    destruct (isoparse t) as [d|]; [|done]. injection Ha0 as <-. by exists d.
Qed.

Lemma zip_values_lookup vs ps pvs i pv :
  zip_values vs ps = Ok pvs → pvs !! i = Some pv →
  vs !! i = Some (value pv) ∧ ∃ p, ps !! i = Some p ∧ carries_period p pv.
Proof.
  revert ps pvs i. induction vs as [|v vs IH]; intros [|p ps] pvs i;
    cbn [zip_values]; try (by intros [= <-]).
  intros Hz. inv_bind Hz. inv_bind Hz. injection Hz as <-.
  destruct i as [|i]; cbn [lookup list_lookup].
  - intros [= <-]. apply parameter_value_carries in Ha as [-> Hc].
    split; [done|]. by exists p.
  - by apply IH.
Qed.

Lemma parse_parameter_of tl e P :
  parse_parameter tl e = Ok P → parameter_of tl e P.
Proof.
  unfold parse_parameter. rewrite foldl_parameter_child. cbn [app].
  intros Hp. inv_bind Hp. inv_bind Hp. injection Hp as <-.
  apply of_option_Ok in Ha.
  repeat (split; [done|]). exists a. split; [done|].
  intros i pv Hi. cbn [values] in Hi.
  by apply (zip_values_lookup _ _ _ _ _ Ha0).
Qed.

Lemma parse_parameter_list_of tl es Ps :
  parse_parameter_list tl es = Ok Ps → Forall2 (parameter_of tl) es Ps.
Proof.
  revert Ps. induction es as [|e es IH]; intros Ps; cbn [parse_parameter_list].
  - intros [= <-]. constructor.
  - intros Hp. inv_bind Hp. inv_bind Hp. injection Hp as <-.
    constructor; [by apply parse_parameter_of | by apply IH].
Qed.

Lemma parse_parameters_of tree (doc : DwmlDoc) :
  Dwml.parse tree = Ok doc →
  ∃ ps, find_data_parameters tree = Some ps ∧
    Forall2 (parameter_of (time_layouts doc)) (getchildren ps) (parameters doc).
Proof.
  unfold Dwml.parse. intros Hp. inv_bind Hp. inv_bind Hp. injection Hp as <-.
  cbn [time_layouts parameters]. unfold parse_parameters in Ha0.
  destruct (find_data_parameters tree) as [ps|]; [|done].
  exists ps. split; [done|]. by apply parse_parameter_list_of.
Qed.

Lemma child_value_text (c : Element) (v : pyval) :
  child_value c = Some v → is_text v = true.
Proof.
  unfold child_value.
  destruct (_ || _); [intros [= <-]; by destruct (text c)|].
  destruct (String.eqb _ _); [by intros [= <-] | done].
Qed.

Lemma parsed_values_text tree (doc : DwmlDoc) P pv :
  Dwml.parse tree = Ok doc → P ∈ parameters doc → pv ∈ values P →
  is_text (value pv) = true.
Proof.
  intros Hp HP Hpv. apply parse_parameters_of in Hp as (ps & _ & Hall).
  apply list_elem_of_lookup in HP as [j HP].
  destruct (Forall2_lookup_r _ _ _ _ _ Hall HP) as (e & _ & Hof).
  destruct Hof as (_ & _ & _ & _ & _ & layout & _ & Hvals).
  apply list_elem_of_lookup in Hpv as [i Hi].
  destruct (Hvals i pv Hi) as [Hraw _].
  apply list_elem_of_lookup_2, list_elem_of_omap in Hraw as (c & _ & Hc).
  by apply child_value_text in Hc.
Qed.

Lemma parse_parameter_list_dangling tl pre e post :
  Forall (λ e', is_ok (parse_parameter tl e') = true) pre →
  tl !! attrib_get (attrib e) "time-layout" = None →
  parse_parameter_list tl (pre ++ e :: post) = Raise KeyError.
Proof.
  intros Hpre Hk. induction Hpre as [|e' pre He' _ IH].
  - cbn [app parse_parameter_list]. unfold parse_parameter.
    destruct (foldl parameter_child _ _). by rewrite Hk.
  - change ((e' :: pre) ++ e :: post) with (e' :: (pre ++ e :: post)).
    cbn [parse_parameter_list]. destruct (parse_parameter tl e'); [|done].
    cbn [mbind result_bind]. by rewrite IH.
Qed.

End Parameters.

(** X3: after a successful parse, the parameters are the children of
    [data/parameters] in document order; each takes its tag, its type and
    units and its time layout key from its element and its name from the
    element's last [name] child; its time layout is in the document; and its
    [i]-th value carries the raw value of the element's [i]-th
    value-bearing child together with the parsed start and end of the
    [i]-th period of that layout. *)
Theorem X3_parameters_resolved `{PyEnv} (tree : Element) (doc : DwmlDoc) :
  Dwml.parse tree = Ok doc →
  ∃ ps, find_data_parameters tree = Some ps ∧
    Forall2 (parameter_of (time_layouts doc)) (getchildren ps) (parameters doc).
Proof. apply parse_parameters_of. Qed.

Lemma X3_parameters_resolved_witness :
  ∃ doc ps, Dwml.parse (H := RefEnv.ref_env) short_series_tree = Ok doc ∧
    find_data_parameters short_series_tree = Some ps ∧
    Forall2 (parameter_of (H := RefEnv.ref_env) (time_layouts doc))
            (getchildren ps) (parameters doc).
Proof.
  destruct (Dwml.parse (H := RefEnv.ref_env) short_series_tree) as [doc|e] eqn:Hd;
    [|vm_compute in Hd; discriminate Hd].
  destruct (X3_parameters_resolved (H := RefEnv.ref_env) short_series_tree doc Hd)
    as (ps & Hps & Hall).
  exists doc, ps. split; [reflexivity|]. split; [exact Hps | exact Hall].
Defined.

(** X4: when the time layouts parse, a tree without [data/parameters]
    makes the parse fail with [AttributeError]; and the first parameter
    element, in document order, whose [time-layout] attribute names no parsed
    layout makes it fail with [KeyError], whether or not the element has
    values. *)
Theorem X4_parameters_errors `{PyEnv} :
  (∀ tree tl,
     parse_time_layouts tree = Ok tl → find_data_parameters tree = None →
     Dwml.parse tree = Raise AttributeError) ∧
  (∀ tree tl ps pre e post,
     parse_time_layouts tree = Ok tl → find_data_parameters tree = Some ps →
     getchildren ps = (pre ++ e :: post)%list →
     Forall (λ e', is_ok (parse_parameter tl e') = true) pre →
     tl !! attrib_get (attrib e) "time-layout" = None →
     Dwml.parse tree = Raise KeyError).
Proof.
  split.
  - intros tree tl Htl Hf. unfold Dwml.parse, parse_parameters.
    by rewrite Htl, Hf.
  - intros tree tl ps pre e post Htl Hf Hcs Hpre Hk.
    unfold Dwml.parse, parse_parameters. rewrite Htl, Hf, Hcs.
    cbn [mbind result_bind]. by rewrite parse_parameter_list_dangling.
Qed.

Lemma X4_parameters_errors_witness :
  Dwml.parse (H := RefEnv.ref_env) dangling_layout_tree = Raise KeyError
  ∧ Dwml.parse (H := RefEnv.ref_env) (mkElement "dwml" [] None [])
    = Raise AttributeError.
Proof.
  split.
  - eapply (proj2 (X4_parameters_errors (H := RefEnv.ref_env))
                  dangling_layout_tree _ _ [] _ _).
    + vm_compute; reflexivity.
    + vm_compute; reflexivity.
    + reflexivity.
    + constructor.
    + vm_compute; reflexivity.
  - eapply (proj1 (X4_parameters_errors (H := RefEnv.ref_env))).
    + vm_compute; reflexivity.
    + reflexivity.
Defined.

(** X5: every value of a parsed document is text or [None]: the parser
    never produces a number. *)
Theorem X5_parsed_values_text `{PyEnv} (tree : Element) (doc : DwmlDoc)
    (P : DwmlParameter) (pv : DwmlParameterValue) :
  Dwml.parse tree = Ok doc → P ∈ parameters doc → pv ∈ values P →
  is_text (value pv) = true.
Proof. apply parsed_values_text. Qed.

Lemma X5_parsed_values_text_witness : is_text (VStr "33") = true.
Proof.
  eapply (X5_parsed_values_text (H := RefEnv.ref_env) short_series_tree _ _
            (mkParameterValue (VStr "33") _ _)).
  - vm_compute; reflexivity.
  - apply list_elem_of_here.
  - apply list_elem_of_here.
Defined.

(** ** Weather conditions, from the element to the phrase *)

Lemma string_app_assoc (a b c : string) : ((a ++ b) ++ c = a ++ (b ++ c))%string.
Proof.
  induction a as [|x a IH]; [done|].
  change (String x ((a ++ b) ++ c) = String x (a ++ (b ++ c))). by rewrite IH.
Qed.

Lemma string_app_nil_r (a : string) : (a ++ "" = a)%string.
Proof.
  induction a as [|x a IH]; [done|].
  change (String x (a ++ "") = String x a). by rewrite IH.
Qed.

Lemma conditions_fold (v : string) (gs : list Element) :
  foldl (λ v grand,
           if String.eqb (tag grand) "value" then v ++ encoded grand else v)
        v gs
  = v ++ foldr String.append ""
           (List.map encoded (List.filter (λ g, String.eqb (tag g) "value") gs)).
Proof.
  revert v. induction gs as [|g gs IH]; intros v.
  - cbn [foldl List.filter List.map foldr]. by rewrite string_app_nil_r.
  - cbn [foldl List.filter]. destruct (String.eqb (tag g) "value").
    + rewrite IH. cbn [List.map foldr]. by rewrite string_app_assoc.
    + by rewrite IH.
Qed.

Lemma weather_conditions_value_concat (child : Element) :
  weather_conditions_value child
  = foldr String.append "" (List.map encoded (conditions child)).
Proof. apply (conditions_fold "" (getchildren child)). Qed.

Lemma weather_fields_prefix (c i w r : string) :
  plain c = true → plain i = true → plain w = true →
  weather_fields (VStr ("|coverage:" ++ c ++ "|intensity:" ++ i
                        ++ "|weather-type:" ++ w ++ "|qualifier:" ++ r))
  = Some (c, if String.eqb i "none" then "" else i, w).
Proof.
  unfold plain.
  intros [Hc1 Hc2]%andb_prop [Hi1 Hi2]%andb_prop [Hw1 Hw2]%andb_prop.
  apply negb_true_iff in Hc1, Hc2, Hi1, Hi2, Hw1, Hw2.
  unfold weather_fields. rewrite split_encoded by done.
  change ("coverage:" ++ c) with ("coverage" ++ String ":" c).
  change ("intensity:" ++ i) with ("intensity" ++ String ":" i).
  change ("weather-type:" ++ w) with ("weather-type" ++ String ":" w).
  cbn [lookup list_lookup mbind option_bind].
  rewrite !split_label by done. reflexivity.
Qed.

Lemma first_condition_decoded (child g : Element) (rest : list Element) :
  conditions child = g :: rest →
  plain (coverage_of g) = true → plain (intensity_of g) = true →
  plain (weather_type_of g) = true →
  _format_weather (VStr (weather_conditions_value child))
  = weather_phrase (coverage_of g)
      (if String.eqb (intensity_of g) "none" then "" else intensity_of g)
      (weather_type_of g).
Proof.
  intros Hc Hpc Hpi Hpw. rewrite weather_conditions_value_concat, Hc.
  cbn [List.map foldr]. unfold encoded at 1, format_weather.
  rewrite !string_app_assoc. unfold _format_weather.
  by rewrite (weather_fields_prefix (coverage_of g) (intensity_of g)
                (weather_type_of g)).
Qed.

(** X6: the weather value that the parser builds from a
    [weather-conditions] element decodes to the phrase of the element's first
    nested [value] alone, whatever conditions follow it (its coverage,
    intensity and weather type written as text, ["None"] for a missing
    attribute, and free of the separators of the encoding); an element with no
    nested [value] decodes to the empty string. *)
Theorem X6_first_condition_decoded :
  (∀ child g rest,
     conditions child = g :: rest →
     plain (coverage_of g) = true → plain (intensity_of g) = true →
     plain (weather_type_of g) = true →
     _format_weather (VStr (weather_conditions_value child))
     = weather_phrase (coverage_of g)
         (if String.eqb (intensity_of g) "none" then "" else intensity_of g)
         (weather_type_of g)) ∧
  (∀ child, conditions child = [] →
     _format_weather (VStr (weather_conditions_value child)) = "").
Proof.
  split; [apply first_condition_decoded|].
  intros child Hc. by rewrite weather_conditions_value_concat, Hc.
Qed.

Lemma X6_first_condition_decoded_witness :
  _format_weather (VStr (weather_conditions_value two_conditions))
  = "light rain likely".
Proof.
  rewrite (proj1 X6_first_condition_decoded two_conditions _ _ eq_refl);
    reflexivity.
Defined.

(** ** Night and day *)

Lemma time_lt_hour_r (n h m s u : nat) :
  time_lt (h, m, s, u) (n, 0, 0, 0)%nat = true ↔ (h < n)%nat.
Proof.
  unfold time_lt.
  destruct (Nat.compare_spec h n) as [Hh|Hh|Hh];
    destruct (Nat.compare_spec m 0) as [Hm|Hm|Hm];
    destruct (Nat.compare_spec s 0) as [Hs|Hs|Hs];
    rewrite ?Nat.ltb_lt; split; (lia || discriminate).
Qed.

Lemma time_lt_hour_l (n h m s u : nat) :
  time_lt (n, 0, 0, 0)%nat (h, m, s, u) = true ↔
  (n < h ∨ (h = n ∧ (0 < m ∨ 0 < s ∨ 0 < u)))%nat.
Proof.
  unfold time_lt.
  destruct (Nat.compare_spec n h) as [Hh|Hh|Hh];
    destruct (Nat.compare_spec 0 m) as [Hm|Hm|Hm];
    destruct (Nat.compare_spec 0 s) as [Hs|Hs|Hs];
    rewrite ?Nat.ltb_lt; split; (lia || discriminate).
Qed.

Lemma is_night_hours (h m s u : nat) :
  _is_night (h, m, s, u) = true ↔
  (h < 6 ∨ 18 < h ∨ (h = 18 ∧ (0 < m ∨ 0 < s ∨ 0 < u)))%nat.
Proof.
  unfold _is_night. rewrite orb_true_iff, time_lt_hour_r, time_lt_hour_l. tauto.
Qed.

(** X7: [_skip_night] never fails, and it skips a value exactly when its
    start is before 06:00:00 or after 18:00:00: a start at 06:00:00 sharp or
    at 18:00:00 sharp is daytime, and one second or one microsecond past
    18:00:00 is night. *)
Theorem X7_skip_night (v : DwmlParameterValue) :
  ∃ b, _skip_night v = Ok b ∧
    (b = true ↔
     (hour (start v) < 6 ∨ 18 < hour (start v) ∨
      (hour (start v) = 18 ∧
       (0 < minute (start v) ∨ 0 < second (start v)
        ∨ 0 < microsecond (start v))))%nat).
Proof.
  exists (_is_night (time_of (start v))). split; [done|]. apply is_night_hours.
Qed.

(** ** Symbols *)

Lemma split_nonempty (sep : ascii) (s : string) : split sep s ≠ [].
Proof.
  destruct s as [|c r]; [done|]. cbn [split].
  destruct (Ascii.eqb c sep); [done|]. by destruct (split sep r).
Qed.

Lemma split_two (sep : ascii) (s : string) :
  contains sep s = true → ∃ a b l, split sep s = a :: b :: l.
Proof.
  induction s as [|c r IH]; [done|]. cbn [split contains].
  destruct (Ascii.eqb c sep); cbn [orb].
  - intros _. destruct (split sep r) as [|b l] eqn:Hr;
      [by apply split_nonempty in Hr|]. by exists "", b, l.
  - intros (a & b & l & ->)%IH. by exists (String c a), b, l.
Qed.

(** The last segment of a split has no separator, and what comes before
    it ends with one. *)
Lemma split_last (sep : ascii) (s : string) :
  contains sep (List.last (split sep s) "") = false ∧
  (contains sep s = true →
   ∃ pre, s = pre ++ String sep (List.last (split sep s) "")).
Proof.
  induction s as [|c r [IH1 IH2]]; [done|]. cbn [split contains].
  destruct (Ascii.eqb_spec c sep) as [->|Hc]; cbn [orb].
  - destruct (split sep r) as [|b l] eqn:Hr; [by apply split_nonempty in Hr|].
    change (List.last ("" :: b :: l) "") with (List.last (b :: l) "").
    split; [done|]. intros _.
    destruct (contains sep r) eqn:Hcr.
    + destruct (IH2 eq_refl) as [pre Hpre]. exists (String sep pre).
      by rewrite Hpre at 1.
    + exists "". rewrite split_no_sep in Hr by done. by injection Hr as <- <-.
  - destruct (contains sep r) eqn:Hcr.
    + destruct (split_two sep r Hcr) as (a & b & l & Hr). rewrite Hr in *.
      change (List.last (String c a :: b :: l) "") with (List.last (b :: l) "").
      change (List.last (a :: b :: l) "") with (List.last (b :: l) "") in IH1, IH2.
      split; [done|]. intros _. destruct (IH2 eq_refl) as [pre Hpre].
      exists (String c pre). by rewrite Hpre at 1.
    + rewrite split_no_sep by done. cbn [List.last contains].
      apply Ascii.eqb_neq in Hc. rewrite Hc, Hcr. by split.
Qed.

Lemma symbol_from_link_text (s : string) :
  ∃ r, _symbol_from_link (VStr s) = Ok r ∧
    (contains "/" s = false → r = VNone) ∧
    (contains "/" s = true →
     ∃ pre sym, r = VStr sym ∧ s = pre ++ "/" ++ sym ∧ contains "/" sym = false).
Proof.
  unfold _symbol_from_link. destruct s as [|c s']; [by exists VNone|].
  cbn [truthy String.eqb negb].
  destruct (contains "/" (String c s')) eqn:Hc.
  - eexists. split; [done|]. split; [done|]. intros _.
    destruct (split_last "/" (String c s')) as [Hl [pre Hpre]]; [done|].
    by exists pre, (List.last (split "/" (String c s')) "").
  - exists VNone. by split.
Qed.

(** X8: on a text, [_symbol_from_link] (and [_format_symbol], which is the
    same function) never fails: a text without ["/"], the empty text
    included, gives [None]; any other text gives what follows its last
    ["/"], which has no ["/"] and may be empty.  [None] gives [None]. *)
Theorem X8_symbol_from_link (s : string) :
  _format_symbol VNone = Ok VNone ∧
  ∃ r, _format_symbol (VStr s) = Ok r ∧ _symbol_from_link (VStr s) = Ok r ∧
    (contains "/" s = false → r = VNone) ∧
    (contains "/" s = true →
     ∃ pre sym, r = VStr sym ∧ s = pre ++ "/" ++ sym ∧ contains "/" sym = false).
Proof.
  split; [done|]. destruct (symbol_from_link_text s) as (r & Hr & Hn & Hy).
  by exists r.
Qed.

Lemma contains_app_sep (sep : ascii) (pre x : string) :
  contains sep (pre ++ String sep x) = true.
Proof.
  induction pre as [|c pre IH].
  - change (contains sep (String sep x) = true).
    cbn [contains]. by rewrite Ascii.eqb_refl.
  - change (contains sep (String c (pre ++ String sep x)) = true).
    cbn [contains]. by rewrite IH, orb_true_r.
Qed.

Lemma split_app_last (sep : ascii) (pre x : string) :
  contains sep x = false →
  List.last (split sep (pre ++ String sep x)) "" = x.
Proof.
  intros Hx. induction pre as [|c pre IH].
  - change (split sep ("" ++ String sep x)) with (split sep (String sep x)).
    cbn [split]. rewrite Ascii.eqb_refl, split_no_sep by done. done.
  - change (split sep (String c pre ++ String sep x))
      with (split sep (String c (pre ++ String sep x))).
    cbn [split].
    destruct (split_two sep (pre ++ String sep x)) as (a & b & l & Hs);
      [apply contains_app_sep|].
    rewrite Hs in *. by destruct (Ascii.eqb c sep).
Qed.

Lemma skip_night_symbol_text (v : DwmlParameterValue) :
  is_text (value v) = true →
  ∃ b, _skip_night_symbol v = Ok b ∧ (b = true ↔ night_link (value v)).
Proof.
  unfold _skip_night_symbol, night_link. destruct (value v) as [|s| |]; try done.
  { intros _. exists false. split; [done|]. split; [done|]. by intros (? & ? & ? & _). }
  intros _. destruct s as [|c s'].
  { exists false. split; [done|]. split; [done|].
    intros (pre & rest & [= Hs] & _). by destruct pre. }
  cbn [truthy String.eqb negb]. unfold _symbol_from_link.
  cbn [truthy String.eqb negb]. set (s := String c s').
  destruct (contains "/" s) eqn:Hc; cbn [mbind result_bind truthy negb].
  - destruct (split_last "/" s) as [Hl [pre Hpre]]; [done|].
    destruct (List.last (split "/" s) "") as [|x sym] eqn:Hsym;
      cbn [String.eqb negb _is_night_symbol truthy].
    + exists false. split; [done|]. split; [done|].
      intros (pre' & rest & [= Hs] & Hrest).
      rewrite Hs in Hsym.
      change (pre' ++ "/" ++ String "n" rest)
        with (pre' ++ String "/" (String "n" rest)) in Hsym.
      rewrite split_app_last in Hsym; [done|].
      cbn [contains]. by rewrite Hrest.
    + exists (Ascii.eqb x "n"). split; [done|]. split.
      * intros ->%Ascii.eqb_eq. exists pre, sym. split; [by rewrite Hpre at 1|].
        cbn [contains] in Hl. by apply orb_false_elim in Hl as [_ Hl].
      * intros (pre' & rest & [= Hs] & Hrest).
        rewrite Hs in Hsym.
        change (pre' ++ "/" ++ String "n" rest)
          with (pre' ++ String "/" (String "n" rest)) in Hsym.
        rewrite split_app_last in Hsym by (cbn [contains]; by rewrite Hrest).
        by injection Hsym as <- _.
  - exists false. split; [done|]. split; [done|].
    intros (pre' & rest & [= Hs] & Hrest).
    change (pre' ++ "/" ++ String "n" rest)
      with (pre' ++ String "/" (String "n" rest)) in Hs.
    by rewrite Hs, contains_app_sep in Hc.
Qed.

(** X9: on a value of a parsed document (a text or [None]),
    [_skip_night_symbol] never fails, and it skips the value exactly when it
    is a link whose part after the last ["/"] begins with ["n"]. *)
Theorem X9_skip_night_symbol (v : DwmlParameterValue) :
  is_text (value v) = true →
  ∃ b, _skip_night_symbol v = Ok b ∧ (b = true ↔ night_link (value v)).
Proof. apply skip_night_symbol_text. Qed.

Lemma X9_skip_night_symbol_witness :
  ∃ b, _skip_night_symbol
         (mkParameterValue (VStr "http://forecast.weather.gov/images/wtf/nra80.jpg")
            (mkDatetime 2020 2 7 19 0 0 0 None) None) = Ok b
       ∧ (b = true ↔
          night_link (VStr "http://forecast.weather.gov/images/wtf/nra80.jpg")).
Proof.
  apply (X9_skip_night_symbol
           (mkParameterValue (VStr "http://forecast.weather.gov/images/wtf/nra80.jpg")
              (mkDatetime 2020 2 7 19 0 0 0 None) None)).
  reflexivity.
Defined.

(** ** The first non-empty value *)

Lemma str_nonempty_false (v : pyval) : str_nonempty v = false ↔ v = VStr "".
Proof.
  destruct v as [|s| |]; cbn [str_nonempty]; try (split; done).
  rewrite negb_false_iff, String.eqb_eq. split; [by intros -> | by intros [= ->]].
Qed.

(** X10: [_first_nonempty] returns the first value that is not the empty
    string, which may be [None], and [None] when every value is the empty
    string; so it never returns the empty string. *)
Theorem X10_first_nonempty (values : list pyval) :
  (Forall (λ v, v = VStr "") values ∧ _first_nonempty values = VNone) ∨
  (∃ pre x post, values = (pre ++ x :: post)%list ∧
     Forall (λ v, v = VStr "") pre ∧ x ≠ VStr "" ∧ _first_nonempty values = x).
Proof.
  induction values as [|v values IH]; [by left|]. cbn [_first_nonempty].
  destruct (str_nonempty v) eqn:Hv.
  - right. exists [], v, values. repeat split; [constructor|].
    intros Hv'%str_nonempty_false. congruence.
  - apply str_nonempty_false in Hv as ->.
    destruct IH as [[Hall Hr]|(pre & x & post & -> & Hpre & Hx & Hr)].
    + left. split; [by constructor | done].
    + right. exists (VStr "" :: pre), x, post. repeat split; [by constructor|done..].
Qed.

(** ** The most frequent value, without assumptions on the comparison *)

Section MostFrequentTotal.
Context {A : Type} (eqb : A → A → bool).
Local Open Scope list_scope.

Lemma count_incr_keys (counts : list (A * nat)) (val k : A) :
  k ∈ (count_incr eqb counts val).*1 → k = val ∨ k ∈ counts.*1.
Proof.
  induction counts as [|[k' n] counts IH]; cbn [count_incr fmap list_fmap].
  - intros [->|[]%elem_of_nil]%elem_of_cons. by left.
  - destruct (eqb k' val); cbn [fmap list_fmap]; rewrite !elem_of_cons.
    + tauto.
    + intros [->|Hk]; [right; by left|]. destruct (IH Hk); tauto.
Qed.

Lemma count_fold_keys (counts : list (A * nat)) (values : list A) (k : A) :
  k ∈ (foldl (count_incr eqb) counts values).*1 → k ∈ counts.*1 ∨ k ∈ values.
Proof.
  revert counts. induction values as [|v values IH]; intros counts; cbn [foldl].
  - by left.
  - intros [[->|Hk]%count_incr_keys|Hk]%IH.
    + right. by left.
    + by left.
    + right. by right.
Qed.

Lemma frequent_fold_fst (t : list (A * nat)) (o : option A) (m : nat) :
  (foldl frequent_step (o, m) t).1 = o ∨
  ∃ k, k ∈ t.*1 ∧ (foldl frequent_step (o, m) t).1 = Some k.
Proof.
  revert o m. induction t as [|[k n] t IH]; intros o m; cbn [foldl]; [by left|].
  change (frequent_step (o, m) (k, n))
    with (if (m <? n)%nat then (Some k, n) else (o, m)).
  destruct (m <? n)%nat.
  - right. destruct (IH (Some k) n) as [->|(k' & Hk' & ->)].
    + exists k. split; [by left | done].
    + exists k'. split; [by right | done].
  - destruct (IH o m) as [->|(k' & Hk' & ->)]; [by left|].
    right. exists k'. split; [by right | done].
Qed.

Lemma most_frequent_elem_of (values : list A) (x : A) :
  _most_frequent eqb values = Ok x → x ∈ values.
Proof.
  unfold _most_frequent. intros Hx%of_option_Ok.
  destruct (frequent_fold_fst (count_table eqb values) (last values) 0)
    as [Ho|(k & Hk & Ho)]; rewrite Ho in Hx.
  - apply last_Some in Hx as [l ->]. apply elem_of_app. right. by left.
  - injection Hx as ->. apply count_fold_keys in Hk as [[]%elem_of_nil|Hk]. done.
Qed.

Lemma most_frequent_raise (values : list A) (e : pyerr) :
  _most_frequent eqb values = Raise e ↔ values = [] ∧ e = UnboundLocalError.
Proof.
  unfold _most_frequent. split.
  - destruct values as [|v values] using rev_ind.
    + by intros [= <-].
    + destruct (frequent_fold_fst (count_table eqb (values ++ [v]))
                  (last (values ++ [v])) 0) as [Ho|(k & Hk & Ho)];
        rewrite Ho; [by rewrite last_snoc | done].
  - by intros [-> ->].
Qed.

End MostFrequentTotal.

(** X11: [_most_frequent] fails exactly on an empty list, with
    [UnboundLocalError]; on any other list it returns one of the values of the
    list, however equality on the values behaves. *)
Theorem X11_most_frequent_total {A : Type} (eqb : A → A → bool) (values : list A) :
  (∀ e, _most_frequent eqb values = Raise e ↔ values = [] ∧ e = UnboundLocalError) ∧
  (∀ x, _most_frequent eqb values = Ok x → x ∈ values).
Proof.
  split; [intros e; apply most_frequent_raise | intros x; apply most_frequent_elem_of].
Qed.

Lemma X11_most_frequent_total_witness : "b" ∈ ["a"; "b"; "b"].
Proof.
  apply (proj2 (X11_most_frequent_total String.eqb ["a"; "b"; "b"]) "b").
  reflexivity.
Defined.

(** ** Day and night probabilities *)

Section SkipPredicates.
Context `{PyEnv}.
Local Open Scope list_scope.

Lemma kept_same_day (v : DwmlParameterValue) :
  is_Some (end_ v) →
  (kept true (Some _skip_different_startend_date) v = true
     ↔ truthy (value v) = true ∧ same_day v) ∧
  (kept true (Some _skip_same_startend_date) v = true
     ↔ truthy (value v) = true ∧ ¬ same_day v).
Proof.
  intros [e He]. unfold kept, skipped, same_day,
    _skip_different_startend_date, _skip_same_startend_date.
  rewrite He. cbn [andb]. rewrite !andb_true_iff, !negb_true_iff, negb_false_iff.
  rewrite negb_false_iff, bool_decide_eq_true, bool_decide_eq_false. split.
  - split.
    + intros [Ht Hd]. split; [done|]. by exists e.
    + intros [Ht (e' & [= <-] & Hd)]. done.
  - split.
    + intros [Ht Hd]. split; [done|]. by intros (e' & [= <-] & Hd').
    + intros [Ht Hd]. split; [done|]. intros Hd'. apply Hd. by exists e.
Qed.

Lemma kept_day_or_night (v : DwmlParameterValue) :
  (truthy (value v) = true → is_Some (end_ v)) →
  ((if kept true (Some _skip_different_startend_date) v then 1 else 0)
   + (if kept true (Some _skip_same_startend_date) v then 1 else 0)
   = if kept true None v then 1 else 0)%nat.
Proof.
  unfold kept, skipped, _skip_different_startend_date, _skip_same_startend_date.
  intros Hend. destruct (truthy (value v)); [|done].
  destruct (Hend eq_refl) as [e ->].
  by destruct (bool_decide (date_of (start v) = date_of e)).
Qed.

Lemma count_kept_partition (values : list DwmlParameterValue) (d : string) :
  (∀ v, v ∈ values → truthy (value v) = true → is_Some (end_ v)) →
  (count_kept true (Some _skip_different_startend_date) d values
   + count_kept true (Some _skip_same_startend_date) d values
   = count_kept true None d values)%nat.
Proof.
  unfold count_kept. induction values as [|v values IH]; intros Hend; [done|].
  cbn [List.filter].
  specialize (IH (λ v' Hv', Hend v' (list_elem_of_further _ _ _ Hv'))).
  pose proof (kept_day_or_night v (Hend v (list_elem_of_here _ _))) as Hv.
  destruct (String.eqb (strftime_date (start v)) d);
    rewrite ?andb_true_r, ?andb_false_r; [|exact IH].
  destruct (kept true (Some _skip_different_startend_date) v),
    (kept true (Some _skip_same_startend_date) v), (kept true None v);
    cbn [length]; lia.
Qed.

Lemma index_value_skip_empty iv (v : DwmlParameterValue) :
  is_text (value v) = true →
  index_value true (Some _skip_empty_value) iv v = index_value true None iv v.
Proof.
  unfold index_value, _skip_empty_value.
  destruct (value v) as [|s| |]; try done. intros _.
  destruct s as [|c s]; reflexivity.
Qed.

Lemma index_values_skip_empty iv (values : list DwmlParameterValue) :
  Forall (λ v, is_text (value v) = true) values →
  index_values true (Some _skip_empty_value) iv values
  = index_values true None iv values.
Proof.
  intros Hall. revert iv. induction Hall as [|v values Hv _ IH]; intros iv; [done|].
  cbn [index_values]. rewrite index_value_skip_empty by done.
  destruct (index_value true None iv v); [apply IH | done].
Qed.

End SkipPredicates.

(** X12: the 12-hourly probabilities are split between [precip_day] and
    [precip_night]: when every non-empty value of the series has an end, a
    value takes part in the aggregation that skips values ending on another
    date exactly when it is non-empty and starts and ends on the same date, in
    the aggregation that skips values ending on the same date exactly when it is
    non-empty and does not, and so, for every date, the values taking part in
    the one and in the other add up to the non-empty values that start on
    it. *)
Theorem X12_day_night_partition (values : list DwmlParameterValue) :
  (∀ v, v ∈ values → truthy (value v) = true → is_Some (end_ v)) →
  (∀ v, v ∈ values → truthy (value v) = true →
     (kept true (Some _skip_different_startend_date) v = true ↔ same_day v) ∧
     (kept true (Some _skip_same_startend_date) v = true ↔ ¬ same_day v)) ∧
  (∀ d,
     count_kept true (Some _skip_different_startend_date) d values
     + count_kept true (Some _skip_same_startend_date) d values
     = count_kept true None d values)%nat.
Proof.
  intros Hend. split.
  - intros v Hv Ht. destruct (kept_same_day v (Hend v Hv Ht)) as [Hd Hn].
    rewrite Hd, Hn. tauto.
  - intros d. by apply count_kept_partition.
Qed.

Lemma X12_day_night_partition_witness :
  (count_kept true (Some _skip_different_startend_date) "2020-02-07"
     [pop_example "40" 7; pop_example "60" 8; pop_example "" 8]
   + count_kept true (Some _skip_same_startend_date) "2020-02-07"
       [pop_example "40" 7; pop_example "60" 8; pop_example "" 8]
   = count_kept true None "2020-02-07"
       [pop_example "40" 7; pop_example "60" 8; pop_example "" 8])%nat.
Proof.
  apply (X12_day_night_partition
           [pop_example "40" 7; pop_example "60" 8; pop_example "" 8]).
  intros v Hv _.
  repeat (apply elem_of_cons in Hv as [->|Hv]; [by eexists|]).
  by apply elem_of_nil in Hv.
Defined.

(** X13: on the values of a parsed document (texts and [None]), skipping
    empty values changes nothing under numeric coercion, which drops them
    before the skip predicate is asked: the aggregation with
    [_skip_empty_value] is the aggregation without a skip predicate. *)
Theorem X13_skip_empty_redundant `{PyEnv} (values : list DwmlParameterValue)
    (function : string) (decimal : Z) (formatter : option (pyval → result pyval))
    (min_values : option nat) :
  Forall (λ v, is_text (value v) = true) values →
  _aggregate values function true decimal (Some _skip_empty_value) formatter min_values
  = _aggregate values function true decimal None formatter min_values.
Proof.
  intros Hall. unfold _aggregate. by rewrite index_values_skip_empty.
Qed.

Lemma X13_skip_empty_redundant_witness :
  _aggregate (H := RefEnv.ref_env) empty_day_series "sum" true 2
             (Some _skip_empty_value) None (Some 3%nat)
  = _aggregate (H := RefEnv.ref_env) empty_day_series "sum" true 2
               None None (Some 3%nat).
Proof.
  apply (X13_skip_empty_redundant (H := RefEnv.ref_env) empty_day_series).
  repeat constructor.
Defined.

(** ** What an aggregate is computed from *)

Section AggregateValues.
Context `{PyEnv}.
Local Open Scope list_scope.

Lemma index_value_group is_numeric skipper iv v iv' d :
  index_value is_numeric skipper iv v = Ok iv' →
  ∃ g, alist_get d iv' = alist_get d iv ++ g ∧
       Forall2 (λ v y, indexed is_numeric (value v) = Ok y)
               (group_of is_numeric skipper d [v]) g.
Proof.
  unfold index_value, group_of. cbn [List.filter].
  destruct (is_numeric && negb (truthy (value v))) eqn:Hdrop.
  { intros [= <-]. exists []. rewrite app_nil_r. split; [done|].
    unfold kept. rewrite Hdrop. constructor. }
  intros Hi. inv_bind Hi.
  assert (Hsk : skipped skipper v = a).
  { unfold skipped. destruct skipper as [sk|]; [by rewrite Ha | by injection Ha as <-]. }
  destruct a.
  { injection Hi as <-. exists []. rewrite app_nil_r. split; [done|].
    unfold kept. rewrite Hdrop, Hsk. constructor. }
  inv_bind Hi. injection Hi as <-. rewrite alist_append_get.
  unfold kept. rewrite Hdrop, Hsk. cbn [negb andb].
  destruct (String.eqb (strftime_date (start v)) d).
  - exists [a]. split; [done|]. by repeat constructor.
  - exists []. rewrite app_nil_r. split; [done|]. constructor.
Qed.

Lemma group_of_cons is_numeric skipper d v values :
  group_of is_numeric skipper d (v :: values)
  = group_of is_numeric skipper d [v] ++ group_of is_numeric skipper d values.
Proof.
  unfold group_of. cbn [List.filter].
  by destruct (kept is_numeric skipper v && String.eqb (strftime_date (start v)) d).
Qed.

Lemma index_values_group is_numeric skipper iv values iv' d :
  index_values is_numeric skipper iv values = Ok iv' →
  ∃ g, alist_get d iv' = alist_get d iv ++ g ∧
       Forall2 (λ v y, indexed is_numeric (value v) = Ok y)
               (group_of is_numeric skipper d values) g.
Proof.
  revert iv. induction values as [|v values IH]; intros iv; cbn [index_values].
  - intros [= <-]. exists []. rewrite app_nil_r. split; [done | constructor].
  - intros Hi. inv_bind Hi.
    destruct (index_value_group _ _ _ _ _ d Ha) as (g1 & Hg1 & Hall1).
    destruct (IH _ Hi) as (g2 & Hg2 & Hall2).
    exists (g1 ++ g2). rewrite Hg2, Hg1, app_assoc. split; [done|].
    rewrite group_of_cons. by apply Forall2_app.
Qed.

Lemma aggregate_dates_lookup function is_numeric decimal formatter min_values
    (data data' : gmap string pyval) entries d x :
  aggregate_dates function is_numeric decimal formatter min_values data entries
    = Ok data' →
  data' !! d = Some x →
  data !! d = Some x ∨
  ∃ l r c, (d, l) ∈ entries ∧ below_min min_values l = false ∧
           reduce function l = Ok r ∧ coerced is_numeric decimal r = Ok c ∧
           formatted formatter c = Ok x.
Proof.
  revert data. induction entries as [|[k l] entries IH]; intros data;
    cbn [aggregate_dates].
  - intros [= <-]. by left.
  - intros Ha Hx. inv_bind Ha.
    destruct (IH _ Ha Hx) as [Hd|(l' & r & c & Hin & Hb & Hr & Hc & Hf)].
    + unfold aggregate_date in Ha0.
      destruct (below_min min_values l) eqn:Hb; [injection Ha0 as <-; by left|].
      inv_bind Ha0. inv_bind Ha0. inv_bind Ha0. injection Ha0 as <-.
      destruct (decide (k = d)) as [->|Hne].
      * rewrite lookup_insert_eq in Hd. injection Hd as ->.
        right. exists l, a0, a1. split; [by left | done].
      * rewrite lookup_insert_ne in Hd by done. by left.
    + right. exists l', r, c. split; [by right | done].
Qed.

Lemma aggregate_lookup values function is_numeric decimal skipper formatter
    min_values (data : gmap string pyval) d x :
  _aggregate values function is_numeric decimal skipper formatter min_values
    = Ok data →
  data !! d = Some x →
  aggregate_of function is_numeric decimal formatter
               (group_of is_numeric skipper d values) x.
Proof.
  unfold _aggregate. intros Ha Hx. inv_bind Ha.
  destruct (index_values_spec _ _ _ _ _ Ha0) as [Hok _].
  assert (Hok' : index_ok a) by (apply Hok; split; constructor).
  destruct (index_values_group _ _ _ _ _ d Ha0) as (g & Hg & Hall).
  cbn [alist_get app] in Hg.
  destruct (aggregate_dates_lookup _ _ _ _ _ _ _ _ _ _ Ha Hx)
    as [Hd|(l & r & c & Hin & Hb & Hr & Hc & Hf)]; [by rewrite lookup_empty in Hd|].
  apply (index_ok_entry _ _ _ Hok') in Hin as [Hl _].
  exists g, r, c. split; [done|]. by rewrite <- Hg, Hl.
Qed.

Lemma kept_numeric_nonempty skipper (v : DwmlParameterValue) :
  kept true skipper v = true → str_nonempty (value v) = true.
Proof.
  unfold kept. cbn [andb]. intros [Ht _]%andb_prop.
  apply negb_true_iff, negb_false_iff in Ht.
  destruct (value v) as [|s| |]; try done.
Qed.

Lemma aggregate_first_int values skipper (data : gmap string pyval) d x :
  _aggregate values "first" true 0 skipper None None = Ok data →
  data !! d = Some x →
  ∃ v rest f z, group_of true skipper d values = v :: rest ∧
    py_float (value v) = Ok f ∧ int_of_float f = Ok z ∧ x = VInt z.
Proof.
  intros Ha Hx.
  destruct (aggregate_lookup _ _ _ _ _ _ _ _ _ _ Ha Hx)
    as (g & r & c & Hall & Hr & Hc & Hf).
  cbn in Hr, Hc, Hf. injection Hf as <-.
  destruct (group_of true skipper d values) as [|v vs] eqn:Hg;
    inversion Hall as [|v' y vs' g' Hy Hall' Hv' Hg']; subst; [done|].
  cbn in Hr. injection Hr as <-.
  assert (Hv : kept true skipper v = true).
  { assert (Hin : v ∈ group_of true skipper d values) by (rewrite Hg; by left).
    unfold group_of in Hin. apply list_elem_of_In, filter_In in Hin as [_ Hin].
    by apply andb_prop in Hin as [Hin _]. }
  unfold indexed in Hy. rewrite (kept_numeric_nonempty _ _ Hv) in Hy.
  cbn [andb] in Hy. destruct (py_float (value v)) as [f|] eqn:Hfl; [|done].
  injection Hy as <-. cbn [py_int] in Hc.
  destruct (int_of_float f) as [z|] eqn:Hz; [|done]. injection Hc as <-.
  by exists v, vs, f, z.
Qed.

End AggregateValues.

(** X14: when [_aggregate] returns, the entry of a date is computed from
    the values of the series that take part and start on that date, and from
    no other value: each of them is indexed (as a [float] under numeric
    coercion), in series order, the aggregate function is applied to that
    list, and its result is coerced ([int] for zero decimals, [round]
    otherwise, under numeric coercion) and then formatted. *)
Theorem X14_aggregate_value `{PyEnv} (values : list DwmlParameterValue)
    (function : string) (is_numeric : bool) (decimal : Z)
    (skipper : option (DwmlParameterValue → result bool))
    (formatter : option (pyval → result pyval)) (min_values : option nat)
    (data : gmap string pyval) (d : string) (x : pyval) :
  _aggregate values function is_numeric decimal skipper formatter min_values
    = Ok data →
  data !! d = Some x →
  aggregate_of function is_numeric decimal formatter
               (group_of is_numeric skipper d values) x.
Proof. apply aggregate_lookup. Qed.

Lemma X14_aggregate_value_witness :
  aggregate_of (H := RefEnv.ref_env) "first" true 0 None
    (group_of true None "2020-02-08" empty_day_series) (VInt 12).
Proof.
  apply (X14_aggregate_value (H := RefEnv.ref_env) empty_day_series "first" true 0
           None None None {[ "2020-02-08" := VInt 12 ]} "2020-02-08" (VInt 12)).
  - vm_compute; reflexivity.
  - vm_compute; reflexivity.
Defined.

(** X15: the daily high and the day and night probabilities (the
    aggregate ["first"] under numeric coercion with no decimals and no
    formatter): the entry of a date is the integer part of the [float] of the
    first value that takes part and starts on that date. *)
Theorem X15_aggregate_first `{PyEnv} (values : list DwmlParameterValue)
    (skipper : option (DwmlParameterValue → result bool))
    (data : gmap string pyval) (d : string) (x : pyval) :
  _aggregate values "first" true 0 skipper None None = Ok data →
  data !! d = Some x →
  ∃ v rest f z, group_of true skipper d values = v :: rest ∧
    py_float (value v) = Ok f ∧ int_of_float f = Ok z ∧ x = VInt z.
Proof. apply aggregate_first_int. Qed.

Lemma X15_aggregate_first_witness :
  ∃ v rest f z,
    group_of true None "2020-02-08" empty_day_series = v :: rest ∧
    py_float (H := RefEnv.ref_env) (value v) = Ok f ∧
    int_of_float (PyEnv := RefEnv.ref_env) f = Ok z ∧ VInt 12 = VInt z.
Proof.
  apply (X15_aggregate_first (H := RefEnv.ref_env) empty_day_series None
           {[ "2020-02-08" := VInt 12 ]} "2020-02-08" (VInt 12)).
  - vm_compute; reflexivity.
  - vm_compute; reflexivity.
Defined.

(** ** Single values *)

Section Single.
Context `{PyEnv}.
Local Open Scope list_scope.

Lemma starting_at_cons d t v values :
  starting_at d t (v :: values)
  = (if String.eqb (strftime_date (start v)) d
        && String.eqb (strftime_time (start v)) t then [v] else [])
    ++ starting_at d t values.
Proof.
  unfold starting_at. cbn [List.filter].
  by destruct (String.eqb (strftime_date (start v)) d
               && String.eqb (strftime_time (start v)) t).
Qed.

Lemma entry_at_insert (data : gmap string (gmap string pyval)) d0 t0 x d t :
  entry_at (<[d0 := <[t0 := x]> (default ∅ (data !! d0))]> data) d t
  = if String.eqb d0 d && String.eqb t0 t then Some x else entry_at data d t.
Proof.
  unfold entry_at. destruct (String.eqb_spec d0 d) as [->|Hd]; cbn [andb].
  - rewrite lookup_insert_eq. cbn [mbind option_bind].
    destruct (String.eqb_spec t0 t) as [->|Ht].
    + by rewrite lookup_insert_eq.
    + rewrite lookup_insert_ne by done. destruct (data !! d); [done|].
      cbn [default mbind option_bind]. by rewrite lookup_empty.
  - by rewrite lookup_insert_ne.
Qed.

Lemma single_from_lookup (data data' : gmap string (gmap string pyval))
    values formatter d t :
  single_from data values formatter = Ok data' →
  match last (starting_at d t values) with
  | Some v => ∃ x, formatted formatter (value v) = Ok x ∧ entry_at data' d t = Some x
  | None => entry_at data' d t = entry_at data d t
  end.
Proof.
  revert data. induction values as [|v values IH]; intros data; cbn [single_from].
  - by intros [= <-].
  - intros Hs. inv_bind Hs. specialize (IH _ Hs). rewrite starting_at_cons.
    rewrite last_app. destruct (last (starting_at d t values)) as [v'|]; [done|].
    rewrite IH, entry_at_insert.
    destruct (String.eqb (strftime_date (start v)) d
              && String.eqb (strftime_time (start v)) t); [|done].
    cbn [last]. by exists a.
Qed.

Lemma single_from_ok (data : gmap string (gmap string pyval)) values formatter :
  is_ok (single_from data values formatter)
  = forallb (λ v, is_ok (formatted formatter (value v))) values.
Proof.
  revert data. induction values as [|v values IH]; intros data; [done|].
  cbn [single_from forallb]. unfold formatted at 1.
  destruct (match formatter with Some f => f (value v) | None => Ok (value v) end);
    cbn [mbind result_bind is_ok andb]; [apply IH | done].
Qed.

End Single.

(** X16: when [_single] returns, its entry for a date and a time is the
    formatted value of the last value of the series that starts at that date
    and time, and there is no entry when no value starts then; and [_single]
    returns exactly when the formatter returns on every value of the series,
    so always without a formatter. *)
Theorem X16_single `{PyEnv} (values : list DwmlParameterValue)
    (formatter : option (pyval → result pyval)) :
  (is_ok (_single values formatter) = true ↔
   Forall (λ v, is_ok (formatted formatter (value v)) = true) values) ∧
  (∀ data d t, _single values formatter = Ok data →
     match last (starting_at d t values) with
     | Some v => ∃ x, formatted formatter (value v) = Ok x
                      ∧ entry_at data d t = Some x
     | None => entry_at data d t = None
     end).
Proof.
  split.
  - unfold _single. rewrite single_from_ok, forallb_forall, Forall_forall.
    split; intros Hall v Hv; apply Hall; by apply list_elem_of_In.
  - intros data d t Hs. apply (single_from_lookup _ _ _ _ d t) in Hs.
    by destruct (last (starting_at d t values)).
Qed.

Lemma X16_single_witness :
  entry_at {[ "2020-02-08" := {[ "05:00:00" := VStr "27" ]} ]}
           "2020-02-08" "06:00:00" = None.
Proof.
  apply (proj2 (X16_single (H := RefEnv.ref_env) [low_example_hourly "27"] None)
           _ "2020-02-08" "06:00:00").
  vm_compute; reflexivity.
Defined.

(** ** Combining fields *)

Lemma combine_daily_lookup (daily : gmap string (gmap string pyval))
    (code : string) (a : gmap string pyval) (d : string) :
  _combine_daily daily code a !! d
  = match a !! d with
    | Some x => Some (<[code := x]> (default ∅ (daily !! d)))
    | None => daily !! d
    end.
Proof.
  unfold _combine_daily. rewrite lookup_merge.
  destruct (daily !! d), (a !! d); reflexivity.
Qed.

Lemma combine_daily_field (daily : gmap string (gmap string pyval))
    (code : string) (a : gmap string pyval) (d k : string) :
  daily_field (_combine_daily daily code a) d k
  = match a !! d with
    | Some x => if String.eqb k code then Some x else daily_field daily d k
    | None => daily_field daily d k
    end.
Proof.
  unfold daily_field. rewrite combine_daily_lookup.
  destruct (a !! d) as [x|]; [|done]. cbn [mbind option_bind].
  destruct (String.eqb_spec k code) as [->|Hk].
  - by rewrite lookup_insert_eq.
  - rewrite lookup_insert_ne by done. by destruct (daily !! d).
Qed.

Lemma combine_hourly_slot (h : gmap string (gmap string (gmap string pyval)))
    (code : string) (a : gmap string (gmap string pyval)) (d t : string) :
  slot_at (_combine_hourly h code a) d t
  = match entry_at a d t with
    | Some x => Some (<[code := x]> (default ∅ (slot_at h d t)))
    | None => slot_at h d t
    end.
Proof.
  unfold slot_at, entry_at, _combine_hourly. rewrite lookup_merge.
  destruct (a !! d) as [times|]; cbn [mbind option_bind].
  - assert (Hc : diag_None (combine_times code) (h !! d) (Some times)
                 = Some (merge (combine_field code) (default ∅ (h !! d)) times))
      by (by destruct (h !! d)).
    rewrite Hc. cbn [mbind option_bind]. rewrite lookup_merge.
    destruct (h !! d) as [slots|]; cbn [from_option id mbind option_bind].
    + destruct (slots !! t), (times !! t); reflexivity.
    + rewrite lookup_empty. destruct (times !! t); reflexivity.
  - by destruct (h !! d).
Qed.

Lemma combine_hourly_field (h : gmap string (gmap string (gmap string pyval)))
    (code : string) (a : gmap string (gmap string pyval)) (d t k : string) :
  hourly_field_at (_combine_hourly h code a) d t k
  = match entry_at a d t with
    | Some x => if String.eqb k code then Some x else hourly_field_at h d t k
    | None => hourly_field_at h d t k
    end.
Proof.
  unfold hourly_field_at. rewrite combine_hourly_slot.
  destruct (entry_at a d t) as [x|]; [|done]. cbn [mbind option_bind].
  destruct (String.eqb_spec k code) as [->|Hk].
  - by rewrite lookup_insert_eq.
  - rewrite lookup_insert_ne by done. by destruct (slot_at h d t).
Qed.

Lemma combine_daily_commute (daily : gmap string (gmap string pyval))
    (c1 c2 : string) (a1 a2 : gmap string pyval) :
  c1 ≠ c2 →
  _combine_daily (_combine_daily daily c1 a1) c2 a2
  = _combine_daily (_combine_daily daily c2 a2) c1 a1.
Proof.
  intros Hc. apply map_eq. intros d. rewrite !combine_daily_lookup.
  destruct (a1 !! d) as [x1|], (a2 !! d) as [x2|]; try reflexivity.
  cbn [default from_option id]. f_equal. by apply insert_insert_ne.
Qed.

Lemma combine_hourly_lookup (h : gmap string (gmap string (gmap string pyval)))
    (code : string) (a : gmap string (gmap string pyval)) (d : string) :
  _combine_hourly h code a !! d
  = match a !! d with
    | Some times => Some (merge (combine_field code) (default ∅ (h !! d)) times)
    | None => h !! d
    end.
Proof.
  unfold _combine_hourly. rewrite lookup_merge.
  destruct (h !! d), (a !! d); reflexivity.
Qed.

Lemma combine_fields_commute (c1 c2 : string)
    (m : gmap string (gmap string pyval)) (t1 t2 : gmap string pyval) :
  c1 ≠ c2 →
  merge (combine_field c2) (merge (combine_field c1) m t1) t2
  = merge (combine_field c1) (merge (combine_field c2) m t2) t1.
Proof.
  intros Hc. apply map_eq. intros t. rewrite !lookup_merge.
  destruct (m !! t) as [s|], (t1 !! t) as [x1|], (t2 !! t) as [x2|];
    cbn; try reflexivity; f_equal; by apply insert_insert_ne.
Qed.

Lemma combine_hourly_commute (h : gmap string (gmap string (gmap string pyval)))
    (c1 c2 : string) (a1 a2 : gmap string (gmap string pyval)) :
  c1 ≠ c2 →
  _combine_hourly (_combine_hourly h c1 a1) c2 a2
  = _combine_hourly (_combine_hourly h c2 a2) c1 a1.
Proof.
  intros Hc. apply map_eq. intros d. rewrite !combine_hourly_lookup.
  destruct (a1 !! d) as [t1|], (a2 !! d) as [t2|]; try reflexivity.
  cbn [default from_option id]. f_equal. by apply combine_fields_commute.
Qed.

(** X17: [_combine_daily] and [_combine_hourly] set the field [code]
    wherever the addition has an entry, creating the date or the slot when it
    is missing, and change nothing else: every other field, and the field
    [code] where the addition has no entry, is as before, and a slot exists
    afterwards exactly when it existed before or the addition has an entry
    for it.  So two additions under different fields can be combined in
    either order. *)
Theorem X17_combine (code : string) :
  (∀ daily (a : gmap string pyval) d k,
     daily_field (_combine_daily daily code a) d k
     = match a !! d with
       | Some x => if String.eqb k code then Some x else daily_field daily d k
       | None => daily_field daily d k
       end) ∧
  (∀ h (a : gmap string (gmap string pyval)) d t k,
     hourly_field_at (_combine_hourly h code a) d t k
     = match entry_at a d t with
       | Some x => if String.eqb k code then Some x else hourly_field_at h d t k
       | None => hourly_field_at h d t k
       end) ∧
  (∀ h (a : gmap string (gmap string pyval)) d t,
     is_Some (slot_at (_combine_hourly h code a) d t)
     ↔ is_Some (slot_at h d t) ∨ is_Some (entry_at a d t)) ∧
  (∀ other daily (a b : gmap string pyval), code ≠ other →
     _combine_daily (_combine_daily daily code a) other b
     = _combine_daily (_combine_daily daily other b) code a) ∧
  (∀ other h (a b : gmap string (gmap string pyval)), code ≠ other →
     _combine_hourly (_combine_hourly h code a) other b
     = _combine_hourly (_combine_hourly h other b) code a).
Proof.
  split; [|split; [|split; [|split]]].
  - intros. apply combine_daily_field.
  - intros. apply combine_hourly_field.
  - intros h a d t. rewrite combine_hourly_slot.
    destruct (entry_at a d t) as [x|].
    + split; [intros _; right; by eexists | intros _; by eexists].
    + split; [by left | by intros [?|[? [=]]]].
  - intros other daily a b Hc. by apply combine_daily_commute.
  - intros other h a b Hc. by apply combine_hourly_commute.
Qed.

Lemma X17_combine_witness :
  _combine_daily (_combine_daily ∅ "high" {[ "2020-02-07" := VInt 33 ]})
                 "low" {[ "2020-02-07" := VStr "25" ]}
  = _combine_daily (_combine_daily ∅ "low" {[ "2020-02-07" := VStr "25" ]})
                   "high" {[ "2020-02-07" := VInt 33 ]}.
Proof.
  apply (proj1 (proj2 (proj2 (proj2 (X17_combine "high"))))). discriminate.
Defined.

(** ** The hourly forecast, field by field *)

Section HourlyAssembly.
Context `{PyEnv}.
Local Open Scope list_scope.

Lemma hourly_is_fold (doc : DwmlDoc) :
  _hourly doc = hourly_fold doc ∅ hourly_recipes.
Proof. reflexivity. Qed.

Lemma hourly_fold_fields doc rs
    (h h' : gmap string (gmap string (gmap string pyval))) :
  hourly_fold doc h rs = Ok h' →
  NoDup (rs.*1.*1) →
  (∀ code element fmt, (code, element, fmt) ∈ rs →
     ∃ vs a, values_of doc element = Ok vs ∧ _single vs fmt = Ok a ∧
       ∀ d t, hourly_field_at h' d t code
              = match entry_at a d t with
                | Some x => Some x
                | None => hourly_field_at h d t code
                end) ∧
  (∀ d t k, k ∉ rs.*1.*1 → hourly_field_at h' d t k = hourly_field_at h d t k) ∧
  (∀ d t, is_Some (slot_at h' d t) →
     is_Some (slot_at h d t)
     ∨ ∃ k, k ∈ rs.*1.*1 ∧ is_Some (hourly_field_at h' d t k)).
Proof.
  revert h. induction rs as [|[[code element] fmt] rs IH]; intros h;
    cbn [hourly_fold].
  - intros [= <-] _. split; [|split].
    + by intros ? ? ? ?%elem_of_nil.
    + done.
    + intros d t Hs. by left.
  - intros Hf Hnd. inv_bind Hf. cbn [fmap list_fmap fst] in Hnd.
    apply NoDup_cons in Hnd as [Hcode Hnd].
    destruct (IH _ Hf Hnd) as (IH1 & IH2 & IH3). clear IH.
    unfold hourly_field in Ha. inv_bind Ha. inv_bind Ha. injection Ha as <-.
    split; [|split].
    + intros c e f [[= -> -> ->]|Hin]%elem_of_cons.
      * exists a0, a1. split; [done|]. split; [done|]. intros d t.
        rewrite IH2 by done. rewrite combine_hourly_field.
        by rewrite String.eqb_refl.
      * destruct (IH1 c e f Hin) as (vs & a' & Hvs & Ha' & Hfield).
        exists vs, a'. split; [done|]. split; [done|]. intros d t.
        rewrite Hfield, combine_hourly_field.
        assert (Hne : c ≠ code).
        { intros ->. apply Hcode.
          apply (list_elem_of_fmap_2 fst), (list_elem_of_fmap_2 fst) in Hin. done. }
        apply String.eqb_neq in Hne. rewrite Hne.
        by destruct (entry_at a1 d t).
    + intros d t k [Hk Hks]%not_elem_of_cons. cbn [fst] in Hk.
      rewrite IH2, combine_hourly_field by done.
      apply String.eqb_neq in Hk. rewrite Hk. by destruct (entry_at a1 d t).
    + intros d t [Hs|(k & Hk & Hs)]%IH3.
      * rewrite combine_hourly_slot in Hs.
        destruct (entry_at a1 d t) as [x|] eqn:Hx; [|by left].
        right. exists code. split; [by left|].
        rewrite IH2, combine_hourly_field, Hx, String.eqb_refl by done.
        by eexists.
      * right. exists k. split; [by right | done].
Qed.

Lemma hourly_codes_NoDup : NoDup (hourly_recipes.*1.*1).
Proof. apply (bool_decide_unpack _). vm_compute. reflexivity. Qed.

Lemma hourly_fields (doc : DwmlDoc)
    (h : gmap string (gmap string (gmap string pyval))) :
  _hourly doc = Ok h →
  (∀ code element fmt, (code, element, fmt) ∈ hourly_recipes →
     ∃ vs a, values_of doc element = Ok vs ∧ _single vs fmt = Ok a ∧
       ∀ d t, hourly_field_at h d t code = entry_at a d t) ∧
  (∀ d t k, k ∉ hourly_recipes.*1.*1 → hourly_field_at h d t k = None) ∧
  (∀ d t, is_Some (slot_at h d t) →
     ∃ k, k ∈ hourly_recipes.*1.*1 ∧ is_Some (hourly_field_at h d t k)).
Proof.
  rewrite hourly_is_fold. intros Hf.
  destruct (hourly_fold_fields _ _ _ _ Hf hourly_codes_NoDup) as (H1 & H2 & H3).
  split; [|split].
  - intros code element fmt Hin.
    destruct (H1 code element fmt Hin) as (vs & a & Hvs & Ha & Hfield).
    exists vs, a. split; [done|]. split; [done|]. intros d t.
    rewrite Hfield. unfold hourly_field_at, slot_at. rewrite lookup_empty.
    by destruct (entry_at a d t).
  - intros d t k Hk. rewrite H2 by done.
    unfold hourly_field_at, slot_at. by rewrite lookup_empty.
  - intros d t [Hs|Hk]%H3; [|done].
    unfold slot_at in Hs. rewrite lookup_empty in Hs. by destruct Hs.
Qed.

End HourlyAssembly.

(** ** The daily forecast, field by field *)

Section DailyAssembly.
Context `{PyEnv}.
Local Open Scope list_scope.

Ltac daily_step :=
  cbn [mbind result_bind daily_fold];
  match goal with
  | |- context [values_of ?doc ?c] => destruct (values_of doc c)
  | |- context [_aggregate ?a ?b ?c ?d ?e ?f ?g] =>
      destruct (_aggregate a b c d e f g)
  | |- context [_daily_low ?a ?b] => destruct (_daily_low a b)
  end;
  cbn [mbind result_bind daily_fold]; try reflexivity.

Lemma daily_is_fold (doc : DwmlDoc) :
  _daily doc = daily_fold ∅ (daily_recipes doc).
Proof. unfold _daily, daily_recipes. repeat daily_step. Qed.

Lemma daily_fold_fields rs (dl dl' : gmap string (gmap string pyval)) :
  daily_fold dl rs = Ok dl' →
  NoDup (rs.*1) →
  (∀ code aggregate, (code, aggregate) ∈ rs →
     ∃ a, aggregate = Ok a ∧
       ∀ d, daily_field dl' d code
            = match a !! d with
              | Some x => Some x
              | None => daily_field dl d code
              end) ∧
  (∀ d k, k ∉ rs.*1 → daily_field dl' d k = daily_field dl d k) ∧
  (∀ d, is_Some (dl' !! d) →
     is_Some (dl !! d) ∨ ∃ k, k ∈ rs.*1 ∧ is_Some (daily_field dl' d k)).
Proof.
  revert dl. induction rs as [|[code aggregate] rs IH]; intros dl;
    cbn [daily_fold].
  - intros [= <-] _. split; [|split].
    + by intros ? ? ?%elem_of_nil.
    + done.
    + intros d Hs. by left.
  - intros Hf Hnd. inv_bind Hf. cbn [fmap list_fmap fst] in Hnd.
    apply NoDup_cons in Hnd as [Hcode Hnd].
    destruct (IH _ Hf Hnd) as (IH1 & IH2 & IH3). clear IH.
    split; [|split].
    + intros c m [[= -> ->]|Hin]%elem_of_cons.
      * exists a. split; [done|]. intros d.
        rewrite IH2 by done. rewrite combine_daily_field.
        by rewrite String.eqb_refl.
      * destruct (IH1 c m Hin) as (a' & Ha' & Hfield).
        exists a'. split; [done|]. intros d.
        rewrite Hfield, combine_daily_field.
        assert (Hne : c ≠ code).
        { intros ->. apply Hcode. by apply (list_elem_of_fmap_2 fst) in Hin. }
        apply String.eqb_neq in Hne. rewrite Hne.
        by destruct (a !! d).
    + intros d k [Hk Hks]%not_elem_of_cons. cbn [fst] in Hk.
      rewrite IH2, combine_daily_field by done.
      apply String.eqb_neq in Hk. rewrite Hk. by destruct (a !! d).
    + intros d [Hs|(k & Hk & Hs)]%IH3.
      * rewrite combine_daily_lookup in Hs.
        destruct (a !! d) as [x|] eqn:Hx; [|by left].
        right. exists code. split; [by left|].
        rewrite IH2, combine_daily_field, Hx, String.eqb_refl by done.
        by eexists.
      * right. exists k. split; [by right | done].
Qed.

Lemma daily_codes_NoDup (doc : DwmlDoc) : NoDup ((daily_recipes doc).*1).
Proof. apply (bool_decide_unpack _). vm_compute. reflexivity. Qed.

Lemma daily_fields (doc : DwmlDoc) (dl : gmap string (gmap string pyval)) :
  _daily doc = Ok dl →
  (∀ code aggregate, (code, aggregate) ∈ daily_recipes doc →
     ∃ a, aggregate = Ok a ∧ ∀ d, daily_field dl d code = a !! d) ∧
  (∀ d k, k ∉ (daily_recipes doc).*1 → daily_field dl d k = None) ∧
  (∀ d, is_Some (dl !! d) →
     ∃ k, k ∈ (daily_recipes doc).*1 ∧ is_Some (daily_field dl d k)).
Proof.
  rewrite daily_is_fold. intros Hf.
  destruct (daily_fold_fields _ _ _ Hf (daily_codes_NoDup doc)) as (H1 & H2 & H3).
  split; [|split].
  - intros code aggregate Hin.
    destruct (H1 code aggregate Hin) as (a & Ha & Hfield).
    exists a. split; [done|]. intros d.
    rewrite Hfield. unfold daily_field. rewrite lookup_empty.
    by destruct (a !! d).
  - intros d k Hk. rewrite H2 by done.
    unfold daily_field. by rewrite lookup_empty.
  - intros d [Hs|Hk]%H3; [|done].
    rewrite lookup_empty in Hs. by destruct Hs.
Qed.

End DailyAssembly.

(** X18: when [_hourly] returns, each of its ten fields is taken from its
    own series and from nothing else: the field of a slot is the entry that
    [_single] has for the slot's date and time in that series, with the
    field's formatter; a slot has no other field; and every slot has at least
    one of the ten. *)
Theorem X18_hourly_fields `{PyEnv} (doc : DwmlDoc)
    (h : gmap string (gmap string (gmap string pyval))) :
  _hourly doc = Ok h →
  (∀ code element fmt, (code, element, fmt) ∈ hourly_recipes →
     ∃ vs a, values_of doc element = Ok vs ∧ _single vs fmt = Ok a ∧
       ∀ d t, hourly_field_at h d t code = entry_at a d t) ∧
  (∀ d t k, k ∉ hourly_recipes.*1.*1 → hourly_field_at h d t k = None) ∧
  (∀ d t, is_Some (slot_at h d t) →
     ∃ k, k ∈ hourly_recipes.*1.*1 ∧ is_Some (hourly_field_at h d t k)).
Proof. apply hourly_fields. Qed.

Lemma X18_hourly_fields_witness :
  hourly_field_at forecast_example_hourly "2020-02-07" "19:00:00" "dewpoint" = None.
Proof.
  apply (X18_hourly_fields (H := RefEnv.ref_env) forecast_example_doc
           forecast_example_hourly).
  - vm_compute. reflexivity.
  - apply (bool_decide_unpack _). vm_compute. reflexivity.
Defined.

(** X19: when [_daily] returns, each of its eleven fields is taken from
    its own aggregate and from nothing else: the field of a date is the entry
    that the aggregate has for that date; a date has no other field; and every
    date has at least one of the eleven. *)
Theorem X19_daily_fields `{PyEnv} (doc : DwmlDoc)
    (dl : gmap string (gmap string pyval)) :
  _daily doc = Ok dl →
  (∀ code aggregate, (code, aggregate) ∈ daily_recipes doc →
     ∃ a, aggregate = Ok a ∧ ∀ d, daily_field dl d code = a !! d) ∧
  (∀ d k, k ∉ (daily_recipes doc).*1 → daily_field dl d k = None) ∧
  (∀ d, is_Some (dl !! d) →
     ∃ k, k ∈ (daily_recipes doc).*1 ∧ is_Some (daily_field dl d k)).
Proof. apply daily_fields. Qed.

Lemma X19_daily_fields_witness :
  daily_field forecast_example_daily "2020-02-07" "dewpoint" = None.
Proof.
  apply (X19_daily_fields (H := RefEnv.ref_env) forecast_example_doc
           forecast_example_daily).
  - vm_compute. reflexivity.
  - apply (bool_decide_unpack _). vm_compute. reflexivity.
Defined.

(** ** The forecast, end to end *)

Section EndToEnd.
Context `{PyEnv}.
Local Open Scope list_scope.

Lemma parse_steps (tree : Element) (fd : forecast_data) :
  Forecast.parse tree = Ok fd →
  ∃ doc dl h, Dwml.parse tree = Ok doc ∧ _daily doc = Ok dl ∧ _hourly doc = Ok h ∧
              _cleanup (mkForecast dl h) = Ok fd.
Proof.
  unfold Forecast.parse. intros Hp. inv_bind Hp. inv_bind Hp. inv_bind Hp.
  by exists a, a0, a1.
Qed.

Lemma cleanup_slot_none (data data' : forecast_data) d t :
  _cleanup data = Ok data' → slot_at (hourly data) d t = None →
  slot_at (hourly data') d t = None.
Proof.
  intros Hc Hs.
  destruct (cleanup_run data data' Hc) as (_ & _ & c' & posts & _ & _ & Hback).
  destruct (slot_at (hourly data') d t) as [s'|] eqn:Hs'; [|done].
  destruct (Hback d t s' Hs') as (i & s & Hi).
  assert (Hs0 : slot_at (hourly data) d t = Some s)
    by (apply visits_complete; by exists i).
  congruence.
Qed.

Lemma parse_hourly_slots (tree : Element) (fd : forecast_data) :
  Forecast.parse tree = Ok fd →
  ∃ doc temps, Dwml.parse tree = Ok doc ∧ values_of doc "temp" = Ok temps ∧
    ∀ d t,
      match last (starting_at d t temps) with
      | Some v => ∃ s, slot_at (hourly fd) d t = Some s
                       ∧ s !! "temp" = Some (value v)
      | None => slot_at (hourly fd) d t = None
      end.
Proof.
  intros (doc & dl & h & Hdoc & _ & Hh & Hc)%parse_steps.
  destruct (hourly_fields doc h Hh) as (Hfields & _ & _).
  destruct (Hfields "temp" "temp" None) as (temps & a & Htemps & Ha & Hfield);
    [by left|].
  exists doc, temps. split; [done|]. split; [done|]. intros d t.
  pose proof (single_from_lookup _ _ _ _ d t Ha) as Hl. specialize (Hfield d t).
  destruct (last (starting_at d t temps)) as [v|].
  - destruct Hl as (x & [= <-] & Hx). rewrite Hx in Hfield.
    unfold hourly_field_at in Hfield.
    destruct (slot_at h d t) as [s|] eqn:Hs; [|done]. cbn in Hfield.
    apply visits_complete in Hs as [i Hi].
    destruct (cleanup_visit_fields (mkForecast dl h) fd i d t s Hc Hi)
      as (s' & Hs' & _ & _ & _ & Hk).
    exists s'. unfold has_temp in Hs'. rewrite Hfield in Hs'.
    rewrite bool_decide_eq_true_2 in Hs' by (by eexists).
    split; [done|]. by rewrite Hk.
  - assert (He : entry_at (∅ : gmap string (gmap string pyval)) d t = None)
      by (unfold entry_at; by rewrite lookup_empty).
    rewrite He in Hl. rewrite Hl in Hfield. unfold hourly_field_at in Hfield.
    destruct (slot_at h d t) as [s|] eqn:Hs.
    + cbn in Hfield.
      by apply (proj1 (proj2 (cleanup_remaining (mkForecast dl h) fd Hc)) d t s).
    + by apply (cleanup_slot_none (mkForecast dl h) fd).
Qed.

Lemma parse_first_value (tree : Element) (fd : forecast_data)
    code element skipper d x :
  Forecast.parse tree = Ok fd →
  (code, element, skipper) ∈ first_value_fields →
  daily_field (daily fd) d code = Some x →
  ∃ doc vs v rest f z, Dwml.parse tree = Ok doc ∧ values_of doc element = Ok vs ∧
    group_of true skipper d vs = v :: rest ∧
    py_float (value v) = Ok f ∧ int_of_float f = Ok z ∧ x = VInt z.
Proof.
  intros (doc & dl & h & Hdoc & Hdl & _ & Hc)%parse_steps Hin Hx.
  destruct (cleanup_run _ _ Hc) as (Hdaily & _). cbn in Hdaily.
  rewrite Hdaily in Hx.
  destruct (daily_fields doc dl Hdl) as (Hfields & _ & _).
  assert (Hrec : (code, vs ← values_of doc element;
                        _aggregate vs "first" true 0 skipper None None)
                 ∈ daily_recipes doc).
  { unfold first_value_fields in Hin.
    repeat (apply elem_of_cons in Hin as [[= -> -> ->]|Hin];
            [unfold daily_recipes; set_solver|]).
    by apply elem_of_nil in Hin. }
  destruct (Hfields _ _ Hrec) as (a & Ha & Hfield). inv_bind Ha.
  rewrite Hfield in Hx.
  destruct (aggregate_first_int _ _ _ _ _ Ha Hx) as (v & rest & f & z & Hg & Hf & Hz & ->).
  by exists doc, a0, v, rest, f, z.
Qed.

End EndToEnd.

(** X20: the hourly slots of a forecast are the instants of the
    [Temperature] series: when [ForecastParser.parse] returns, the forecast
    has a slot for a date and a time exactly when some value of that series
    starts then, and the slot's [temp] is the raw value of the last such
    value. *)
Theorem X20_hourly_slots `{PyEnv} (tree : Element) (fd : forecast_data) :
  Forecast.parse tree = Ok fd →
  ∃ doc temps, Dwml.parse tree = Ok doc ∧ values_of doc "temp" = Ok temps ∧
    ∀ d t,
      match last (starting_at d t temps) with
      | Some v => ∃ s, slot_at (hourly fd) d t = Some s
                       ∧ s !! "temp" = Some (value v)
      | None => slot_at (hourly fd) d t = None
      end.
Proof. apply parse_hourly_slots. Qed.

Lemma X20_hourly_slots_witness :
  ∃ doc temps,
    Dwml.parse (H := RefEnv.ref_env) forecast_example = Ok doc ∧
    values_of doc "temp" = Ok temps ∧
    ∀ d t,
      match last (starting_at d t temps) with
      | Some v => ∃ s, slot_at (hourly forecast_example_parsed) d t = Some s
                       ∧ s !! "temp" = Some (value v)
      | None => slot_at (hourly forecast_example_parsed) d t = None
      end.
Proof.
  apply (X20_hourly_slots (H := RefEnv.ref_env) forecast_example
           forecast_example_parsed).
  vm_compute. reflexivity.
Defined.

(** X21: the daily high and the day and night probabilities of a
    forecast: when [ForecastParser.parse] returns, the [high] of a date is the
    integer part of the [float] of the first non-empty value of the daily
    maximum series that starts on that date, and [precip_day] and
    [precip_night] are the same for the first non-empty 12-hourly probability
    that starts on that date and is not skipped. *)
Theorem X21_first_value_fields `{PyEnv} (tree : Element) (fd : forecast_data)
    (code element : string) (skipper : option (DwmlParameterValue → result bool))
    (d : string) (x : pyval) :
  Forecast.parse tree = Ok fd →
  (code, element, skipper) ∈ first_value_fields →
  daily_field (daily fd) d code = Some x →
  ∃ doc vs v rest f z, Dwml.parse tree = Ok doc ∧ values_of doc element = Ok vs ∧
    group_of true skipper d vs = v :: rest ∧
    py_float (value v) = Ok f ∧ int_of_float f = Ok z ∧ x = VInt z.
Proof. apply parse_first_value. Qed.

Lemma X21_first_value_fields_witness :
  ∃ doc vs v rest f z,
    Dwml.parse (H := RefEnv.ref_env) forecast_example = Ok doc ∧
    values_of doc "maxt" = Ok vs ∧
    group_of true None "2020-02-07" vs = v :: rest ∧
    py_float (H := RefEnv.ref_env) (value v) = Ok f ∧
    int_of_float (PyEnv := RefEnv.ref_env) f = Ok z ∧ VInt 33 = VInt z.
Proof.
  apply (X21_first_value_fields (H := RefEnv.ref_env) forecast_example
           forecast_example_parsed "high" "maxt" None "2020-02-07" (VInt 33)).
  - vm_compute. reflexivity.
  - apply list_elem_of_here.
  - vm_compute. reflexivity.
Defined.

(** ** What the post-processing leaves alone *)

Lemma cleanup_preserves `{PyEnv} (data data' : forecast_data) :
  _cleanup data = Ok data' →
  daily data' = daily data ∧
  (∀ d, is_Some (hourly data' !! d) ↔ is_Some (hourly data !! d)) ∧
  (∀ d t s', slot_at (hourly data') d t = Some s' →
     ∃ s, slot_at (hourly data) d t = Some s ∧
       ∀ k, k ≠ "precip" → k ≠ "rain_amount" → k ≠ "snow_amount" →
            s' !! k = s !! k).
Proof.
  intros Hc.
  destruct (cleanup_run data data' Hc) as (Hd & Hdates & c' & posts & _ & _ & Hback).
  split; [done|]. split; [done|]. intros d t s' Hs'.
  destruct (Hback d t s' Hs') as (i & s & Hi).
  destruct (cleanup_visit_fields data data' i d t s Hc Hi)
    as (s'' & Hs'' & _ & _ & _ & Hk).
  exists s. split; [apply visits_complete; by exists i|].
  destruct (has_temp s); [|congruence].
  assert (s'' = s') as -> by congruence. done.
Qed.

(** X22: what [_cleanup] never does: when it returns, the daily forecast
    is unchanged; the hourly forecast has the same dates (a date stays, with
    no slot, when all its slots are removed); no slot is created; and in a
    slot that remains every field other than [precip], [rain_amount] and
    [snow_amount] is as before. *)
Theorem X22_cleanup_preserves `{PyEnv} (data data' : forecast_data) :
  _cleanup data = Ok data' →
  daily data' = daily data ∧
  (∀ d, is_Some (hourly data' !! d) ↔ is_Some (hourly data !! d)) ∧
  (∀ d t s', slot_at (hourly data') d t = Some s' →
     ∃ s, slot_at (hourly data) d t = Some s ∧
       ∀ k, k ≠ "precip" → k ≠ "rain_amount" → k ≠ "snow_amount" →
            s' !! k = s !! k).
Proof. apply cleanup_preserves. Qed.

Lemma X22_cleanup_preserves_witness :
  daily pruned_example_cleaned = daily pruned_example ∧
  (∀ d, is_Some (hourly pruned_example_cleaned !! d)
        ↔ is_Some (hourly pruned_example !! d)) ∧
  (∀ d t s', slot_at (hourly pruned_example_cleaned) d t = Some s' →
     ∃ s, slot_at (hourly pruned_example) d t = Some s ∧
       ∀ k, k ≠ "precip" → k ≠ "rain_amount" → k ≠ "snow_amount" →
            s' !! k = s !! k).
Proof.
  apply (X22_cleanup_preserves (H := RefEnv.ref_env) pruned_example
           pruned_example_cleaned).
  vm_compute. reflexivity.
Defined.

(** ** When the daily low returns *)

Section DailyLowReturns.
Context `{PyEnv}.
Local Open Scope list_scope.

Lemma lowest_cons_ok stored v rest :
  is_ok (lowest stored (v :: rest)) = true →
  ∃ h s, py_int v = Ok h ∧ py_int stored = Ok s.
Proof.
  cbn [lowest]. destruct (py_int v) as [h|]; [|done].
  destruct (py_int stored) as [s|]; [|done]. intros _. by exists h, s.
Qed.

Lemma lower_at_ok date v (data : gmap string pyval) :
  (∀ stored, data !! date = Some stored → is_ok (lowest stored [v]) = true) →
  ∃ data', lower_at date v data = Ok data'.
Proof.
  unfold lower_at. intros Hok. destruct (data !! date) as [stored|]; [|by eexists].
  destruct (lowest_cons_ok _ _ _ (Hok stored eq_refl)) as (h & s & -> & ->).
  by eexists.
Qed.

Lemma hour_step_ok hour (data : gmap string pyval) :
  (∀ d stored, data !! d = Some stored →
     is_ok (lowest stored (samples_of d hour)) = true) →
  ∃ data', hour_step data hour = Ok data'.
Proof.
  intros Hok. unfold hour_step.
  destruct (lower_at_ok (strftime_date (start hour)) (value hour) data)
    as [data1 H1].
  { intros stored Hs. specialize (Hok _ _ Hs). unfold samples_of in Hok.
    rewrite decide_True in Hok by done.
    destruct (lowest_cons_ok _ _ _ Hok) as (h & s & Hh & Hst).
    cbn [lowest]. by rewrite Hh, Hst. }
  rewrite H1. cbn [mbind result_bind].
  destruct (end_ hour) as [e|] eqn:He; [|by eexists].
  apply lower_at_ok. intros stored1 Hs1.
  pose proof (lower_at_lowered _ _ _ _ (strftime_date e) H1) as Hl.
  unfold lowered in Hl.
  destruct (data !! strftime_date e) as [st0|] eqn:Hd; [|congruence].
  destruct Hl as (x & Hx & Hx'). assert (x = stored1) as -> by congruence.
  specialize (Hok _ _ Hd). unfold samples_of in Hok. rewrite He in Hok.
  rewrite (decide_True (P := strftime_date e = strftime_date e)) in Hok by done.
  rewrite lowest_app, Hx in Hok. exact Hok.
Qed.

Lemma scan_hourlies_ok hourlies (data : gmap string pyval) :
  is_ok (scan_hourlies data hourlies) = true ↔
  ∀ d stored, data !! d = Some stored →
    is_ok (lowest stored (samples_for d hourlies)) = true.
Proof.
  split.
  - destruct (scan_hourlies data hourlies) as [data'|] eqn:Hs; [|done].
    intros _ d stored Hd.
    pose proof (scan_hourlies_lowered _ _ _ d Hs) as Hl. unfold lowered in Hl.
    rewrite Hd in Hl. destruct Hl as (x & -> & _). done.
  - revert data. induction hourlies as [|hour rest IH]; intros data Hok; [done|].
    cbn [scan_hourlies].
    destruct (hour_step_ok hour data) as [data1 H1].
    { intros d stored Hd. specialize (Hok d stored Hd).
      unfold samples_for in Hok. cbn [flat_map] in Hok.
      rewrite lowest_app in Hok.
      by destruct (lowest stored (samples_of d hour)). }
    rewrite H1. cbn [mbind result_bind]. apply IH. intros d stored1 Hd1.
    pose proof (hour_step_lowered _ _ _ d H1) as Hl. unfold lowered in Hl.
    destruct (data !! d) as [st0|] eqn:Hd; [|congruence].
    destruct Hl as (x & Hx & Hx'). assert (x = stored1) as -> by congruence.
    specialize (Hok d st0 Hd). unfold samples_for in Hok. cbn [flat_map] in Hok.
    rewrite lowest_app, Hx in Hok. exact Hok.
Qed.

Lemma seed_lows_ok dailies (data : gmap string pyval) :
  is_ok (seed_lows data dailies) = true ↔
  Forall (λ day, is_Some (end_ day)) dailies.
Proof.
  revert data. induction dailies as [|day rest IH]; intros data; cbn [seed_lows].
  - split; [constructor | done].
  - rewrite Forall_cons. destruct (end_ day) as [e|].
    + rewrite IH. split; [intros Hr; split; [by eexists | done] | by intros [_ Hr]].
    + split; [done | by intros [[? [=]] _]].
Qed.

Lemma daily_low_ok dailies hourlies :
  is_ok (_daily_low dailies hourlies) = true ↔
  Forall (λ day, is_Some (end_ day)) dailies ∧
  ∀ d stored, last (seeds_for d dailies) = Some stored →
    is_ok (lowest stored (samples_for d hourlies)) = true.
Proof.
  unfold _daily_low. rewrite <- (seed_lows_ok dailies ∅).
  destruct (seed_lows ∅ dailies) as [data|] eqn:Hs; cbn [mbind result_bind].
  - rewrite scan_hourlies_ok.
    assert (Hd : ∀ d, data !! d = last (seeds_for d dailies)).
    { intros d. rewrite (seed_lows_lookup _ _ _ d Hs), lookup_empty.
      by destruct (last (seeds_for d dailies)). }
    split.
    + intros Hok. split; [done|]. intros d stored Hl. apply Hok. by rewrite Hd.
    + intros [_ Hok] d stored Hl. apply Hok. by rewrite <- Hd.
  - split; [done | by intros [? _]].
Qed.

End DailyLowReturns.

(** X23: [_daily_low] returns exactly when every daily minimum has an end
    and, for every date on which a daily minimum ends, the comparisons of the
    stored value with the hourly samples of that date all convert to [int].
    So a daily minimum without an end makes it fail whatever the hourly
    values are, and hourly samples on dates on which no daily minimum ends
    are never converted: they cannot make it fail. *)
Theorem X23_daily_low_returns `{PyEnv} (dailies hourlies : list DwmlParameterValue) :
  is_ok (_daily_low dailies hourlies) = true ↔
  Forall (λ day, is_Some (end_ day)) dailies ∧
  ∀ d stored, last (seeds_for d dailies) = Some stored →
    is_ok (lowest stored (samples_for d hourlies)) = true.
Proof. apply daily_low_ok. Qed.

(** ** When the hourly forecast returns *)

Section HourlyReturns.
Context `{PyEnv}.
Local Open Scope list_scope.

Lemma hourly_field_ok doc h code element fmt :
  is_ok (hourly_field doc h code element fmt) = true ↔
  ∃ vs, values_of doc element = Ok vs ∧
        Forall (λ v, is_ok (formatted fmt (value v)) = true) vs.
Proof.
  unfold hourly_field. destruct (values_of doc element) as [vs|e];
    cbn [mbind result_bind].
  - assert (Hs : is_ok (_single vs fmt) = true ↔
                 Forall (λ v, is_ok (formatted fmt (value v)) = true) vs).
    { unfold _single. rewrite single_from_ok, forallb_forall, Forall_forall.
      split; intros Hall v Hv; apply Hall; by apply list_elem_of_In. }
    destruct (_single vs fmt); cbn [mbind result_bind is_ok] in *.
    + split; [intros _; exists vs; split; [done | by apply Hs] | done].
    + split; [done|]. intros (vs' & [= <-] & Hall). by apply Hs.
  - split; [done | by intros (vs & [=] & _)].
Qed.

Lemma hourly_fold_ok doc rs (h : gmap string (gmap string (gmap string pyval))) :
  is_ok (hourly_fold doc h rs) = true ↔
  ∀ code element fmt, (code, element, fmt) ∈ rs →
    ∃ vs, values_of doc element = Ok vs ∧
          Forall (λ v, is_ok (formatted fmt (value v)) = true) vs.
Proof.
  revert h. induction rs as [|[[code element] fmt] rs IH]; intros h;
    cbn [hourly_fold].
  - split; [by intros _ ? ? ? ?%elem_of_nil | done].
  - pose proof (hourly_field_ok doc h code element fmt) as Hstep.
    destruct (hourly_field doc h code element fmt) as [h1|e];
      cbn [mbind result_bind].
    + rewrite IH. split.
      * intros Hrs c e f [[= -> -> ->]|Hin]%elem_of_cons;
          [by apply Hstep | by apply (Hrs c e f)].
      * intros Hrs c e f Hin. apply (Hrs c e f). by right.
    + split; [done|]. intros Hrs.
      apply Hstep, (Hrs code element fmt). by left.
Qed.

Lemma formatted_text_ok (fmt : option (pyval → result pyval)) (v : pyval) :
  fmt = None ∨ fmt = Some weather_formatter ∨ fmt = Some _format_symbol →
  is_text v = true → is_ok (formatted fmt v) = true.
Proof.
  intros [-> | [-> | ->]] Hv; [done..|]. cbn [formatted]. unfold _format_symbol.
  destruct v as [|s| |]; try done.
  by destruct (symbol_from_link_text s) as (r & -> & _).
Qed.

End HourlyReturns.

(** X24: [_hourly] returns exactly when each of its ten series is found
    and the formatter of each field returns on every value of its series;
    on text and [None], which is all a parsed document holds, the formatter
    of every field but the two wind fields returns, so then only a missing
    series or a wind speed that does not convert can make it fail. *)
Theorem X24_hourly_returns `{PyEnv} (doc : DwmlDoc) :
  (is_ok (_hourly doc) = true ↔
   ∀ code element fmt, (code, element, fmt) ∈ hourly_recipes →
     ∃ vs, values_of doc element = Ok vs ∧
           Forall (λ v, is_ok (formatted fmt (value v)) = true) vs) ∧
  (∀ code element fmt v, (code, element, fmt) ∈ hourly_recipes →
     code ≠ "wind_sustained" → code ≠ "wind_gust" → is_text v = true →
     is_ok (formatted fmt v) = true).
Proof.
  split.
  - rewrite hourly_is_fold. apply hourly_fold_ok.
  - intros code element fmt v Hin Hws Hwg Hv. apply formatted_text_ok; [|done].
    unfold hourly_recipes in Hin.
    repeat (apply elem_of_cons in Hin as [[= -> -> ->]|Hin]; [by auto|]).
    by apply elem_of_nil in Hin.
Qed.

Lemma X24_hourly_returns_witness :
  is_ok (formatted (Some weather_formatter) (VStr "")) = true.
Proof.
  apply (proj2 (X24_hourly_returns (H := RefEnv.ref_env) forecast_example_doc)
           "weather" "wx" (Some weather_formatter) (VStr "")).
  - unfold hourly_recipes. do 8 right. left.
  - discriminate.
  - discriminate.
  - reflexivity.
Defined.

(** ** When the daily weather and symbol return *)

Section AggregateReturns.
Context `{PyEnv}.
Local Open Scope list_scope.

Lemma alist_append_Forall (P : pyval → Prop) k x iv :
  P x → Forall (λ kl, Forall P kl.2) iv →
  Forall (λ kl, Forall P kl.2) (alist_append k x iv).
Proof.
  intros Hx Hiv. induction Hiv as [|[k' l] iv Hl Hiv IH]; cbn [alist_append].
  - by repeat constructor.
  - destruct (String.eqb k' k).
    + constructor; [|done]. cbn [snd] in *. apply Forall_app. by repeat constructor.
    + by constructor.
Qed.

Lemma index_values_raw (P : pyval → Prop) sk iv values :
  Forall (λ v, is_ok (sk v) = true ∧ P (value v)) values →
  Forall (λ kl, Forall P kl.2) iv →
  ∃ iv', index_values false (Some sk) iv values = Ok iv' ∧
         Forall (λ kl, Forall P kl.2) iv'.
Proof.
  intros Hall. revert iv. induction Hall as [|v values [Hsk Hv] _ IH]; intros iv Hiv.
  - by exists iv.
  - cbn [index_values]. unfold index_value. cbn [andb].
    destruct (sk v) as [[|]|]; [| |done]; cbn [mbind result_bind].
    + by apply IH.
    + apply IH. by apply alist_append_Forall.
Qed.

Lemma aggregate_dates_ok function is_numeric decimal formatter
    (data : gmap string pyval) entries :
  Forall (λ kl, is_ok (r ← reduce function kl.2;
                       c ← coerced is_numeric decimal r;
                       formatted formatter c) = true) entries →
  is_ok (aggregate_dates function is_numeric decimal formatter None data entries)
  = true.
Proof.
  intros Hall. revert data. induction Hall as [|[k l] entries Hl _ IH]; intros data;
    [done|].
  cbn [aggregate_dates]. unfold aggregate_date. cbn [below_min snd] in *.
  unfold coerced, formatted in Hl.
  destruct (reduce function l) as [r|]; [|done]. cbn [mbind result_bind] in *.
  destruct (if is_numeric then _ else _) as [c|]; [|done].
  cbn [mbind result_bind] in *.
  destruct (match formatter with Some f => f c | None => Ok c end); [|done].
  cbn [mbind result_bind]. apply IH.
Qed.

Lemma aggregate_weather_ok (values : list DwmlParameterValue) :
  is_ok (_aggregate values "first-nonempty" false 0 (Some _skip_night)
                    (Some weather_formatter) None) = true.
Proof.
  unfold _aggregate.
  destruct (index_values_raw (λ _, True) _skip_night [] values) as (iv & -> & _).
  { apply Forall_forall. by intros. }
  { constructor. }
  cbn [mbind result_bind]. apply aggregate_dates_ok.
  apply Forall_forall. by intros.
Qed.

Lemma aggregate_symbol_ok (values : list DwmlParameterValue) :
  Forall (λ v, is_text (value v) = true) values →
  is_ok (_aggregate values "frequent" false 0 (Some _skip_night_symbol)
                    (Some _format_symbol) None) = true.
Proof.
  intros Htext. unfold _aggregate.
  destruct (index_values_raw (λ x, is_text x = true) _skip_night_symbol [] values)
    as (iv & Hiv & Hall).
  { eapply Forall_impl; [exact Htext|]. intros v Hv. split; [|done].
    by destruct (skip_night_symbol_text v Hv) as (b & -> & _). }
  { constructor. }
  destruct (index_values_spec _ _ _ _ _ Hiv) as [Hok _].
  assert (Hne : Forall (λ kl : string * list pyval, kl.2 ≠ []) iv)
    by (apply Hok; split; constructor).
  rewrite Hiv. cbn [mbind result_bind]. apply aggregate_dates_ok.
  apply Forall_forall. intros [k l] Hin.
  rewrite Forall_forall in Hall, Hne. specialize (Hall _ Hin). specialize (Hne _ Hin).
  cbn [snd] in *.
  change (reduce "frequent" l) with (_most_frequent py_eqb l).
  destruct (_most_frequent py_eqb l) as [x|e] eqn:Hx.
  - cbn [mbind result_bind coerced]. apply (formatted_text_ok (Some _format_symbol));
      [by auto|].
    apply most_frequent_elem_of in Hx. rewrite Forall_forall in Hall. by apply Hall.
  - by apply most_frequent_raise in Hx as [-> _].
Qed.

End AggregateReturns.

(** X25: the daily weather and the daily symbol never fail on a parsed
    document: the aggregation of the weather series (first non-empty daytime
    value, decoded) returns on every series, and the aggregation of the symbol
    series (most frequent day symbol) returns on every series of texts and
    [None]: no group is empty, so the most frequent value exists. *)
Theorem X25_weather_symbol_return `{PyEnv} (values : list DwmlParameterValue) :
  is_ok (_aggregate values "first-nonempty" false 0 (Some _skip_night)
                    (Some weather_formatter) None) = true ∧
  (Forall (λ v, is_text (value v) = true) values →
   is_ok (_aggregate values "frequent" false 0 (Some _skip_night_symbol)
                     (Some _format_symbol) None) = true).
Proof. split; [apply aggregate_weather_ok | apply aggregate_symbol_ok]. Qed.

Lemma X25_weather_symbol_return_witness :
  is_ok (_aggregate (H := RefEnv.ref_env)
           [mkParameterValue (VStr "http://forecast.weather.gov/images/wtf/ra80.jpg")
              (mkDatetime 2020 2 7 7 0 0 0 None) None;
            mkParameterValue VNone (mkDatetime 2020 2 7 10 0 0 0 None) None]
           "frequent" false 0 (Some _skip_night_symbol) (Some _format_symbol) None)
  = true.
Proof.
  apply (X25_weather_symbol_return (H := RefEnv.ref_env)).
  repeat constructor.
Defined.

(** ** Legacy data *)

Section Legacy.
Local Open Scope list_scope.

Lemma legacy_fold_lookup (ps : list DwmlParameter)
    (data : gmap (option string) (option string * list LegacyValue))
    (n : option string) :
  foldl (λ data p, <[name p := legacy_entry p]> data) data ps !! n
  = match last (named n ps) with
    | Some p => Some (legacy_entry p)
    | None => data !! n
    end.
Proof.
  revert data. induction ps as [|p ps IH]; intros data; [done|].
  cbn [foldl]. rewrite IH. unfold named. cbn [List.filter].
  destruct (List.filter _ ps) as [|q qs] eqn:Hf.
  - case_bool_decide as Hn; cbn [last].
    + by rewrite <- Hn, lookup_insert_eq.
    + by rewrite lookup_insert_ne.
  - assert (Hl : is_Some (last (q :: qs))) by (by apply last_is_Some).
    destruct Hl as [x Hx].
    case_bool_decide as Hn; [rewrite last_cons_cons|]; by rewrite Hx.
Qed.

Lemma as_legacy_data_lookup (doc : DwmlDoc) (n : option string) :
  as_legacy_data doc !! n = legacy_entry <$> last (named n (parameters doc)).
Proof.
  unfold as_legacy_data. rewrite legacy_fold_lookup, lookup_empty.
  by destruct (last _).
Qed.

Lemma parameter_named (doc : DwmlDoc) (s : string) :
  parameter doc s = of_option StopIteration (head (named (Some s) (parameters doc))).
Proof.
  unfold parameter, named. induction (parameters doc) as [|p ps IH]; [done|].
  cbn [parameter_in List.filter].
  destruct (decide (name p = Some s)) as [Hn|Hn].
  - by rewrite bool_decide_eq_true_2.
  - by rewrite bool_decide_eq_false_2.
Qed.

End Legacy.

(** X26: [DwmlDoc.as_legacy_data] has one entry for each name: the entry
    of a name holds the name and the values, as legacy dictionaries, of the
    last parameter of the document with that name, while
    [DwmlDoc.parameter] returns the first one; so a name has an entry exactly
    when [parameter] finds it, and the entry is the one of the parameter that
    [parameter] returns when no other parameter has the name. *)
Theorem X26_legacy_data (doc : DwmlDoc) :
  (∀ n, as_legacy_data doc !! n
        = legacy_entry <$> last (named n (parameters doc))) ∧
  (∀ s, parameter doc s
        = of_option StopIteration (head (named (Some s) (parameters doc)))) ∧
  (∀ s, is_Some (as_legacy_data doc !! Some s)
        ↔ is_ok (parameter doc s) = true) ∧
  (∀ s p, named (Some s) (parameters doc) = [p] →
     parameter doc s = Ok p
     ∧ as_legacy_data doc !! Some s = Some (legacy_entry p)).
Proof.
  split; [|split; [|split]].
  - apply as_legacy_data_lookup.
  - apply parameter_named.
  - intros s. rewrite as_legacy_data_lookup, parameter_named.
    destruct (named (Some s) (parameters doc)) as [|p ps] eqn:Hn.
    + split; [by intros [? [=]] | done].
    + split; [done|]. intros _.
      destruct (last_is_Some (p :: ps)) as [_ [x ->]]; [done|]. by eexists.
  - intros s p Hn. by rewrite as_legacy_data_lookup, parameter_named, Hn.
Qed.

Lemma X26_legacy_data_witness :
  as_legacy_data forecast_example_doc !! Some "Temperature"
  = Some (Some "Temperature",
          [mkLegacyValue (VStr "30") "2020-02-07T19:00:00-05:00" None]).
Proof.
  edestruct (proj2 (proj2 (proj2 (X26_legacy_data forecast_example_doc)))
               "Temperature") as [_ Hl]; [vm_compute; reflexivity|].
  rewrite Hl. vm_compute. reflexivity.
Defined.

(** ** SQL timestamps *)

Section Timestamps.
Local Open Scope nat_scope.

Lemma digit_char_inj (a b : nat) :
  digit_char a = digit_char b → a mod 10 = b mod 10.
Proof.
  unfold digit_char. intros Hd.
  apply (f_equal nat_of_ascii) in Hd.
  pose proof (Nat.mod_upper_bound a 10). pose proof (Nat.mod_upper_bound b 10).
  rewrite !nat_ascii_embedding in Hd by lia. lia.
Qed.

Lemma pad2_inj (n m : nat) : n < 100 → m < 100 → pad2 n = pad2 m → n = m.
Proof.
  unfold pad2. intros Hn Hm [= H1%digit_char_inj H0%digit_char_inj].
  pose proof (Nat.div_mod_eq n 10). pose proof (Nat.div_mod_eq m 10).
  assert (n / 10 < 10) by (apply Nat.Div0.div_lt_upper_bound; lia).
  assert (m / 10 < 10) by (apply Nat.Div0.div_lt_upper_bound; lia).
  rewrite (Nat.mod_small (n / 10)), (Nat.mod_small (m / 10)) in H1 by lia.
  lia.
Qed.

Lemma pad4_inj (n m : nat) :
  (Z.of_nat n < 10000)%Z → (Z.of_nat m < 10000)%Z → pad4 n = pad4 m → n = m.
Proof.
  unfold pad4, pad2. intros Hn Hm Hp.
  assert (H3 : digit_char (n / 1000) = digit_char (m / 1000)) by congruence.
  assert (H2 : digit_char (n / 100) = digit_char (m / 100)) by congruence.
  assert (H1 : digit_char (n / 10) = digit_char (m / 10)) by congruence.
  assert (H0 : digit_char n = digit_char m) by congruence.
  apply digit_char_inj in H3, H2, H1, H0.
  assert (Hd : ∀ k, k / 100 = k / 10 / 10 ∧ k / 1000 = k / 10 / 10 / 10).
  { intros k. rewrite !Nat.Div0.div_div. done. }
  destruct (Hd n) as [Hn2 Hn3]. destruct (Hd m) as [Hm2 Hm3].
  rewrite Hn2, Hm2 in H2. rewrite Hn3, Hm3 in H3.
  pose proof (Nat.div_mod_eq n 10). pose proof (Nat.div_mod_eq m 10).
  pose proof (Nat.div_mod_eq (n / 10) 10). pose proof (Nat.div_mod_eq (m / 10) 10).
  pose proof (Nat.div_mod_eq (n / 10 / 10) 10).
  pose proof (Nat.div_mod_eq (m / 10 / 10) 10).
  pose proof (Nat.div_mod_eq (n / 10 / 10 / 10) 10).
  pose proof (Nat.div_mod_eq (m / 10 / 10 / 10) 10).
  pose proof (Nat.mod_upper_bound n 10). pose proof (Nat.mod_upper_bound m 10).
  pose proof (Nat.mod_upper_bound (n / 10) 10).
  pose proof (Nat.mod_upper_bound (m / 10) 10).
  pose proof (Nat.mod_upper_bound (n / 10 / 10) 10).
  pose proof (Nat.mod_upper_bound (m / 10 / 10) 10).
  pose proof (Nat.mod_upper_bound (n / 10 / 10 / 10) 10).
  pose proof (Nat.mod_upper_bound (m / 10 / 10 / 10) 10).
  lia.
Qed.

Lemma strftime_wall_clock (dt1 dt2 : datetime) :
  four_digit_year dt1 → four_digit_year dt2 →
  (strftime_date dt1 ++ " " ++ strftime_time dt1
   = strftime_date dt2 ++ " " ++ strftime_time dt2)%string
  ↔ wall_clock dt1 = wall_clock dt2.
Proof.
  intros (Hy1 & Hmo1 & Hd1 & Hh1 & Hmi1 & Hs1) (Hy2 & Hmo2 & Hd2 & Hh2 & Hmi2 & Hs2).
  unfold wall_clock. split.
  - unfold strftime_date, strftime_time, pad4, pad2. intros Heq.
    cbv [append] in Heq.
    assert (Hy : pad4 (year dt1) = pad4 (year dt2))
      by (unfold pad4, pad2; congruence).
    assert (Hmo : pad2 (month dt1) = pad2 (month dt2))
      by (unfold pad2; congruence).
    assert (Hd : pad2 (day dt1) = pad2 (day dt2)) by (unfold pad2; congruence).
    assert (Hh : pad2 (hour dt1) = pad2 (hour dt2)) by (unfold pad2; congruence).
    assert (Hmi : pad2 (minute dt1) = pad2 (minute dt2))
      by (unfold pad2; congruence).
    assert (Hs : pad2 (second dt1) = pad2 (second dt2))
      by (unfold pad2; congruence).
    apply pad4_inj in Hy; [|lia..]. apply pad2_inj in Hmo, Hd, Hh, Hmi, Hs; [|lia..].
    congruence.
  - intros [= Hy Hmo Hd Hh Hmi Hs]. unfold strftime_date, strftime_time.
    by rewrite Hy, Hmo, Hd, Hh, Hmi, Hs.
Qed.

End Timestamps.

(** X27: [convert_xml_datetime_sql] never fails: it gives the empty
    string for whatever [isoparse] does not read and, for a timestamp it
    reads (with a four-digit year), the 19 characters [YYYY-MM-DD HH:MM:SS] of
    its wall-clock time; the offset and the microseconds are dropped, so two
    timestamps convert to the same text exactly when their wall-clock times
    to the second are the same. *)
Theorem X27_convert_xml_datetime_sql `{PyEnv} :
  (∀ v, (∀ s dt, v = VStr s → isoparse s ≠ Ok dt) →
        convert_xml_datetime_sql v = "") ∧
  (∀ s dt, isoparse s = Ok dt → four_digit_year dt →
     convert_xml_datetime_sql (VStr s)
     = strftime_date dt ++ " " ++ strftime_time dt
     ∧ String.length (convert_xml_datetime_sql (VStr s)) = 19%nat) ∧
  (∀ s1 s2 dt1 dt2, isoparse s1 = Ok dt1 → isoparse s2 = Ok dt2 →
     four_digit_year dt1 → four_digit_year dt2 →
     (convert_xml_datetime_sql (VStr s1) = convert_xml_datetime_sql (VStr s2)
      ↔ wall_clock dt1 = wall_clock dt2)).
Proof.
  split; [|split].
  - intros v Hv. unfold convert_xml_datetime_sql. destruct v as [|s| |]; try done.
    destruct (isoparse s) as [dt|] eqn:Hs; [|done]. by destruct (Hv s dt).
  - intros s dt Hs _. unfold convert_xml_datetime_sql. rewrite Hs. done.
  - intros s1 s2 dt1 dt2 H1 H2 Hy1 Hy2. unfold convert_xml_datetime_sql.
    rewrite H1, H2. by apply strftime_wall_clock.
Qed.

Lemma X27_convert_xml_datetime_sql_witness :
  convert_xml_datetime_sql (H := RefEnv.ref_env) (VStr "2020-02-07T19:00:00-05:00")
  = convert_xml_datetime_sql (H := RefEnv.ref_env) (VStr "2020-02-07T19:00:00+01:00").
Proof.
  apply (proj2 (proj2 (X27_convert_xml_datetime_sql (H := RefEnv.ref_env)))
           "2020-02-07T19:00:00-05:00" "2020-02-07T19:00:00+01:00"
           (mkDatetime 2020 2 7 19 0 0 0 (Some (-300)))
           (mkDatetime 2020 2 7 19 0 0 0 (Some 60))).
  - vm_compute. reflexivity.
  - vm_compute. reflexivity.
  - unfold four_digit_year. cbn. lia.
  - unfold four_digit_year. cbn. lia.
  - reflexivity.
Defined.

(** ** Locations *)

Section Locations.
Local Open Scope list_scope.

Lemma last_point_from_cons (k : option string) (a : string) (c : Element)
    (cs : list Element) :
  last_point_from k a (c :: cs)
  = last_point_from
      (if String.eqb (tag c) "point"
       then match attrib_get (attrib c) a with Some v => Some v | None => k end
       else k) a cs.
Proof.
  unfold last_point_from.
  change (omap ?f (c :: cs))
    with (match f c with Some y => y :: omap f cs | None => omap f cs end).
  cbv beta.
  destruct (String.eqb (tag c) "point"); [|done].
  destruct (attrib_get (attrib c) a) as [v|]; [|done].
  destruct (omap _ cs) as [|y ys] eqn:Ho; [done|].
  rewrite last_cons_cons.
  destruct (last (y :: ys)) eqn:Hl; [done|]. by apply last_None in Hl.
Qed.

Lemma foldl_location_child (nm lat lon : option string) (cs : list Element) :
  foldl location_child (nm, lat, lon) cs
  = (last_text_from nm "location-key" cs,
     last_point_from lat "latitude" cs,
     last_point_from lon "longitude" cs).
Proof.
  revert nm lat lon. induction cs as [|c cs IH]; intros nm lat lon; [done|].
  cbn [foldl]. rewrite last_text_from_cons, !last_point_from_cons.
  unfold location_child at 2.
  destruct (String.eqb (tag c) "point"); by rewrite IH.
Qed.

Lemma parse_locations_map (tree : Element) :
  parse_locations tree = List.map location_of (getiterator tree "location").
Proof.
  unfold parse_locations. apply map_ext. intros e.
  by rewrite foldl_location_child.
Qed.

End Locations.

(** X28: [parse_locations] gives one location for each [location] element
    of the tree, at any depth, in document order; its name is the text of the
    element's last [location-key] child, and its latitude and its longitude
    are taken, each on its own, from the last [point] child that has the
    attribute; what is missing is [None].  A successful parse stores exactly
    these locations. *)
Theorem X28_locations (tree : Element) :
  parse_locations tree = List.map location_of (getiterator tree "location") ∧
  ∀ (H : PyEnv) doc, Dwml.parse tree = Ok doc →
    locations doc = List.map location_of (getiterator tree "location").
Proof.
  split; [apply parse_locations_map|].
  intros H doc Hp. unfold Dwml.parse in Hp. inv_bind Hp. inv_bind Hp.
  injection Hp as <-. apply parse_locations_map.
Qed.

Lemma X28_locations_witness :
  parse_locations split_point_location
  = [mkLocation (Some "point1") (Some "38.99") (Some "-77.01")].
Proof.
  rewrite (proj1 (X28_locations split_point_location)). reflexivity.
Defined.
